(** * Maya-MCP: the command bridge between the MCP adapter and Maya

    A shallow embedding of the two Python sources of the repository

    - [src/Client/maya_mcp.py]: the socket server that runs inside Maya
      (class [MayaMCPServer]), and
    - [src/Server/maya_mcp/server.py]: the MCP adapter with its connection
      manager (class [MayaConnection], [get_maya_connection], the tools),

    together with a model of what they call in the Python library
    ([json.dumps], [json.loads], [bytes.decode], [str.encode]) and of the
    host ([maya.cmds], [maya.utils], the socket). *)

From Stdlib Require Import String Ascii NArith ZArith Bool Lia Arith.
From Stdlib Require Import Strings.Byte DecimalN DecimalZ DecimalPos DecimalFacts List.
Import ListNotations.

Set Implicit Arguments.
Set Warnings "-register-all".

(* ================================================================== *)
(** * Python values *)

(** A Python [str] is its sequence of Unicode code points; a [bytes]
    object is a list of bytes. *)
Definition str := list N.
Definition bytes := list byte.

(** A string literal of the source, as a [str]. *)
Definition lit (s : string) : str :=
  map N_of_ascii (list_ascii_of_string s).

Fixpoint str_eqb (a b : str) : bool :=
  match a, b with
  | [], [] => true
  | x :: a', y :: b' => N.eqb x y && str_eqb a' b'
  | _, _ => false
  end.

(** A Python [dict] with [str] keys: an association list in insertion
    order, which is the order [json.dumps] writes it in. *)
Section Dict.
Variable V : Type.

Definition dict := list (str * V).

Fixpoint dict_get (d : dict) (k : str) : option V :=
  match d with
  | [] => None
  | (k', v) :: d' => if str_eqb k' k then Some v else dict_get d' k
  end.

(** [d[k] = v]: an existing key keeps its place, a new one goes last. *)
Fixpoint dict_set (d : dict) (k : str) (v : V) : dict :=
  match d with
  | [] => [(k, v)]
  | (k', v') :: d' =>
      if str_eqb k' k then (k', v) :: d' else (k', v') :: dict_set d' k v
  end.

Definition dict_keys (d : dict) : list str := map fst d.

Definition dict_has (d : dict) (k : str) : bool :=
  match dict_get d k with Some _ => true | None => false end.

(** [dict(pairs)]: the pairs are inserted from left to right. *)
Definition dict_of_pairs (ps : list (str * V)) : dict :=
  fold_left (fun d kv => dict_set d (fst kv) (snd kv)) ps [].
End Dict.

Arguments dict_get {V} d k.
Arguments dict_set {V} d k v.
Arguments dict_keys {V} d.
Arguments dict_has {V} d k.
Arguments dict_of_pairs {V} ps.

(** The values the bridge moves around: what [json.loads] can return and
    [json.dumps] can write.  [None] is [JNull]; a tuple is written by
    [json.dumps] as the list of its items and is a [JList] here.  A float
    is not computed with: it is carried as the text that denotes it on the
    wire. *)
Inductive json : Type :=
| JNull
| JBool (b : bool)
| JInt (z : Z)
| JFloat (text : str)
| JStr (s : str)
| JList (items : list json)
| JDict (d : list (str * json)).

(** The result of a Python call that may raise. *)
Inductive result (E A : Type) : Type :=
| Ok (a : A)
| Raise (e : E).
Arguments Ok {E A} a.
Arguments Raise {E A} e.

(** Python code that reads and writes a state [S] and may raise [E]: the
    state it leaves is kept when it raises, as the effects of a Python
    block are. *)
Definition M (S E A : Type) : Type := S -> result E A * S.

Definition ret {S E A} (a : A) : M S E A := fun s => (Ok a, s).

Definition raise {S E A} (e : E) : M S E A := fun s => (Raise e, s).

Definition bind {S E A B} (m : M S E A) (k : A -> M S E B) : M S E B :=
  fun s =>
    match m s with
    | (Ok a, s') => k a s'
    | (Raise e, s') => (Raise e, s')
    end.

(** [try: m  except Exception as e: h e]. *)
Definition try_except {S E A} (m : M S E A) (h : E -> M S E A) : M S E A :=
  fun s =>
    match m s with
    | (Ok a, s') => (Ok a, s')
    | (Raise e, s') => h e s'
    end.

(** A call that only reads the state. *)
Definition query {S E A} (q : S -> result E A) : M S E A :=
  fun s => (q s, s).

Definition pure {S E A} (r : result E A) : M S E A := fun s => (r, s).

Notation "x <- m ;; k" := (bind m (fun x => k))
  (at level 61, m at next level, right associativity).
Notation "m ;;; k" := (bind m (fun _ => k))
  (at level 61, right associativity).

(** The name Python prints for the type of a value. *)
Definition type_name (v : json) : str :=
  match v with
  | JNull => lit "NoneType"
  | JBool _ => lit "bool"
  | JInt _ => lit "int"
  | JFloat _ => lit "float"
  | JStr _ => lit "str"
  | JList _ => lit "list"
  | JDict _ => lit "dict"
  end.

(** Truth value of a Python object, as [if x:] and [x or y] test it.
    A float is carried as its text and taken as true: [0.0] is not
    told apart. *)
Definition truthy (v : json) : bool :=
  match v with
  | JNull => false
  | JBool b => b
  | JInt z => negb (Z.eqb z 0)
  | JFloat _ => true
  | JStr s => match s with [] => false | _ => true end
  | JList l => match l with [] => false | _ => true end
  | JDict d => match d with [] => false | _ => true end
  end.

(** [v == "text"] for a string literal of the source. *)
Definition eq_str (v : json) (s : str) : bool :=
  match v with
  | JStr s' => str_eqb s' s
  | _ => false
  end.

(* ================================================================== *)
(** * The Python library: UTF-8 *)

Module Utf8.
Local Open Scope N_scope.

Definition byte_of (n : N) : byte :=
  match Byte.of_N n with
  | Some b => b
  | None => x00
  end.

Definition is_surrogate (c : N) : bool := (0xD800 <=? c) && (c <=? 0xDFFF).

(** [chr(c).encode('utf-8')]; [None] is [UnicodeEncodeError]. *)
Definition encode_char (c : N) : option bytes :=
  if c <? 0x80 then Some [byte_of c]
  else if c <? 0x800 then
    Some [byte_of (N.lor 0xC0 (N.shiftr c 6));
          byte_of (N.lor 0x80 (N.land c 0x3F))]
  else if c <? 0x10000 then
    if is_surrogate c then None
    else Some [byte_of (N.lor 0xE0 (N.shiftr c 12));
               byte_of (N.lor 0x80 (N.land (N.shiftr c 6) 0x3F));
               byte_of (N.lor 0x80 (N.land c 0x3F))]
  else if c <? 0x110000 then
    Some [byte_of (N.lor 0xF0 (N.shiftr c 18));
          byte_of (N.lor 0x80 (N.land (N.shiftr c 12) 0x3F));
          byte_of (N.lor 0x80 (N.land (N.shiftr c 6) 0x3F));
          byte_of (N.lor 0x80 (N.land c 0x3F))]
  else None.

(** [s.encode('utf-8')]. *)
Fixpoint encode (s : str) : option bytes :=
  match s with
  | [] => Some []
  | c :: s' =>
      match encode_char c, encode s' with
      | Some b, Some bs => Some (b ++ bs)
      | _, _ => None
      end
  end.

Definition is_cont (b : byte) : bool :=
  (0x80 <=? Byte.to_N b) && (Byte.to_N b <=? 0xBF).

Definition cont_bits (b : byte) : N := N.land (Byte.to_N b) 0x3F.

(** [b.decode('utf-8')]; [None] is [UnicodeDecodeError].  Overlong
    forms, surrogates and code points above U+10FFFF are refused, as
    Python does. *)
Fixpoint decode (b : bytes) : option str :=
  match b with
  | [] => Some []
  | b0 :: r0 =>
      let n0 := Byte.to_N b0 in
      if n0 <? 0x80 then option_map (cons n0) (decode r0)
      else if n0 <? 0xC0 then None
      else if n0 <? 0xE0 then
        match r0 with
        | b1 :: r1 =>
            let c := N.lor (N.shiftl (N.land n0 0x1F) 6) (cont_bits b1) in
            if is_cont b1 && (0x80 <=? c)
            then option_map (cons c) (decode r1) else None
        | _ => None
        end
      else if n0 <? 0xF0 then
        match r0 with
        | b1 :: b2 :: r2 =>
            let c := N.lor (N.shiftl (N.land n0 0x0F) 12)
                       (N.lor (N.shiftl (cont_bits b1) 6) (cont_bits b2)) in
            if is_cont b1 && is_cont b2 && (0x800 <=? c)
               && negb (is_surrogate c)
            then option_map (cons c) (decode r2) else None
        | _ => None
        end
      else if n0 <? 0xF8 then
        match r0 with
        | b1 :: b2 :: b3 :: r3 =>
            let c := N.lor (N.shiftl (N.land n0 0x07) 18)
                       (N.lor (N.shiftl (cont_bits b1) 12)
                          (N.lor (N.shiftl (cont_bits b2) 6) (cont_bits b3))) in
            if is_cont b1 && is_cont b2 && is_cont b3
               && (0x10000 <=? c) && (c <? 0x110000)
            then option_map (cons c) (decode r3) else None
        | _ => None
        end
      else None
  end.
End Utf8.

(* ================================================================== *)
(** * The Python library: json.dumps *)

Module Encoder.
Local Open Scope N_scope.

(** One digit of ['{0:04x}'.format(n)]. *)
Definition hex_digit (d : N) : N :=
  if d <? 10 then 48 + d else 87 + d.

Definition hex4 (n : N) : str :=
  [hex_digit ((n / 4096) mod 16); hex_digit ((n / 256) mod 16);
   hex_digit ((n / 16) mod 16); hex_digit (n mod 16)].

(** ["\\u{0:04x}".format(n)]. *)
Definition u_escape (n : N) : str := 92 :: 117 :: hex4 n.

(** The replacement [py_encode_basestring_ascii] makes for one
    character: [ESCAPE_ASCII] matches the backslash, the double quote
    and everything outside the printable ASCII range. *)
Definition escape_char (c : N) : str :=
  if c =? 34 then [92; 34]
  else if c =? 92 then [92; 92]
  else if c =? 10 then [92; 110]
  else if c =? 13 then [92; 114]
  else if c =? 9 then [92; 116]
  else if c =? 8 then [92; 98]
  else if c =? 12 then [92; 102]
  else if (32 <=? c) && (c <=? 126) then [c]
  else if c <? 0x10000 then u_escape c
  else
    let n := c - 0x10000 in
    let s1 := N.lor 0xD800 (N.land (N.shiftr n 10) 0x3FF) in
    let s2 := N.lor 0xDC00 (N.land n 0x3FF) in
    u_escape s1 ++ u_escape s2.

Definition encode_basestring_ascii (s : str) : str :=
  34 :: flat_map escape_char s ++ [34].

Fixpoint uint_chars (d : Decimal.uint) : str :=
  match d with
  | Decimal.Nil => []
  | Decimal.D0 u => 48 :: uint_chars u
  | Decimal.D1 u => 49 :: uint_chars u
  | Decimal.D2 u => 50 :: uint_chars u
  | Decimal.D3 u => 51 :: uint_chars u
  | Decimal.D4 u => 52 :: uint_chars u
  | Decimal.D5 u => 53 :: uint_chars u
  | Decimal.D6 u => 54 :: uint_chars u
  | Decimal.D7 u => 55 :: uint_chars u
  | Decimal.D8 u => 56 :: uint_chars u
  | Decimal.D9 u => 57 :: uint_chars u
  end.

(** [int.__repr__]. *)
Definition int_repr (z : Z) : str :=
  match Z.to_int z with
  | Decimal.Pos u => uint_chars u
  | Decimal.Neg u => 45 :: uint_chars u
  end.

(** [sep.join(parts)]. *)
Fixpoint join (sep : str) (parts : list str) : str :=
  match parts with
  | [] => []
  | [p] => p
  | p :: ps => p ++ sep ++ join sep ps
  end.

(** [json.dumps(v)] with the defaults the source uses: separators
    [", "] and [": "], [ensure_ascii=True], keys in insertion order. *)
Fixpoint dumps (v : json) : str :=
  match v with
  | JNull => lit "null"
  | JBool true => lit "true"
  | JBool false => lit "false"
  | JInt z => int_repr z
  | JFloat text => text
  | JStr s => encode_basestring_ascii s
  | JList items => 91 :: join (lit ", ") (map dumps items) ++ [93]
  | JDict d =>
      123 :: join (lit ", ")
               (map (fun kv => match kv with
                               | (k, x) => encode_basestring_ascii k
                                           ++ lit ": " ++ dumps x
                               end) d)
          ++ [125]
  end.
End Encoder.

(* ================================================================== *)
(** * The Python library: json.loads *)

Module Decoder.
Local Open Scope N_scope.

(** The outcome of a scanner: a value and the text after it,
    [StopIteration]/[JSONDecodeError], or the recursion bound of this
    model reached (which [scan_once_total] shows does not happen). *)
Inductive scanned (A : Type) : Type :=
| Scanned (a : A) (rest : str)
| Stop
| NoFuel.
Arguments Scanned {A} a rest.
Arguments Stop {A}.
Arguments NoFuel {A}.

Definition is_ws (c : N) : bool :=
  (c =? 32) || (c =? 9) || (c =? 10) || (c =? 13).

(** [WHITESPACE.match(s, end).end()]. *)
Fixpoint skip_ws (s : str) : str :=
  match s with
  | c :: s' => if is_ws c then skip_ws s' else s
  | [] => []
  end.

Definition is_digit (c : N) : bool := (48 <=? c) && (c <=? 57).

Definition hex_val (c : N) : option N :=
  if (48 <=? c) && (c <=? 57) then Some (c - 48)
  else if (97 <=? c) && (c <=? 102) then Some (c - 87)
  else if (65 <=? c) && (c <=? 70) then Some (c - 55)
  else None.

(** The four hex digits of a [\uXXXX] escape. *)
Definition decode_hex4 (h1 h2 h3 h4 : N) : option N :=
  match hex_val h1, hex_val h2, hex_val h3, hex_val h4 with
  | Some a, Some b, Some c, Some d =>
      Some (N.lor (N.shiftl (N.lor (N.shiftl (N.lor (N.shiftl a 4) b) 4) c) 4) d)
  | _, _, _, _ => None
  end.

(** The [BACKSLASH] table. *)
Definition unescape (e : N) : option N :=
  if e =? 34 then Some 34
  else if e =? 92 then Some 92
  else if e =? 47 then Some 47
  else if e =? 98 then Some 8
  else if e =? 102 then Some 12
  else if e =? 110 then Some 10
  else if e =? 114 then Some 13
  else if e =? 116 then Some 9
  else None.

Definition is_high_surrogate (c : N) : bool := (0xD800 <=? c) && (c <=? 0xDBFF).

Definition is_low_surrogate (c : N) : bool := (0xDC00 <=? c) && (c <=? 0xDFFF).

Definition join_surrogates (hi lo : N) : N :=
  0x10000 + N.lor (N.shiftl (hi - 0xD800) 10) (lo - 0xDC00).

Definition consc (c : N) (r : option (str * str)) : option (str * str) :=
  match r with
  | Some (s, rest) => Some (c :: s, rest)
  | None => None
  end.

(** [scanstring(s, end, strict=True)], from just after the opening
    quote: the decoded string and the text after the closing quote;
    [None] is [JSONDecodeError].  A high surrogate escape directly
    followed by a low surrogate escape is joined into one character. *)
Fixpoint scanstring (s : str) : option (str * str) :=
  match s with
  | [] => None
  | c :: s1 =>
      if c =? 34 then Some ([], s1)
      else if c =? 92 then
        match s1 with
        | [] => None
        | e :: s2 =>
            if e =? 117 then
              match s2 with
              | h1 :: h2 :: h3 :: h4 :: s6 =>
                  match decode_hex4 h1 h2 h3 h4 with
                  | None => None
                  | Some uni =>
                      if is_high_surrogate uni then
                        match s6 with
                        | b :: u :: s8 =>
                            if (b =? 92) && (u =? 117) then
                              match s8 with
                              | g1 :: g2 :: g3 :: g4 :: s12 =>
                                  match decode_hex4 g1 g2 g3 g4 with
                                  | None => None
                                  | Some uni2 =>
                                      if is_low_surrogate uni2
                                      then consc (join_surrogates uni uni2)
                                                 (scanstring s12)
                                      else consc uni (scanstring s6)
                                  end
                              | _ => None
                              end
                            else consc uni (scanstring s6)
                        | _ => consc uni (scanstring s6)
                        end
                      else consc uni (scanstring s6)
                  end
              | _ => None
              end
            else
              match unescape e with
              | Some ch => consc ch (scanstring s2)
              | None => None
              end
        end
      else if c <? 32 then None
      else consc c (scanstring s1)
  end.

(** The longest run of decimal digits at the head of the text. *)
Fixpoint span_digits (s : str) : str * str :=
  match s with
  | c :: s' =>
      if is_digit c then
        let (ds, r) := span_digits s' in (c :: ds, r)
      else ([], s)
  | [] => ([], [])
  end.

Fixpoint uint_of_chars (ds : str) : Decimal.uint :=
  match ds with
  | [] => Decimal.Nil
  | c :: ds' =>
      let u := uint_of_chars ds' in
      if c =? 48 then Decimal.D0 u else if c =? 49 then Decimal.D1 u
      else if c =? 50 then Decimal.D2 u else if c =? 51 then Decimal.D3 u
      else if c =? 52 then Decimal.D4 u else if c =? 53 then Decimal.D5 u
      else if c =? 54 then Decimal.D6 u else if c =? 55 then Decimal.D7 u
      else if c =? 56 then Decimal.D8 u else Decimal.D9 u
  end.

(** The integer part of [NUMBER_RE]: an optional minus sign, then a
    single zero or a non-zero digit and the digits after it. *)
Definition match_integer (s : str) : option (bool * str * str) :=
  let (neg, s1) :=
    match s with
    | c :: r => if c =? 45 then (true, r) else (false, s)
    | [] => (false, s)
    end in
  match s1 with
  | c :: r =>
      if c =? 48 then Some (neg, [c], r)
      else if is_digit c then
        let (ds, r') := span_digits r in Some (neg, c :: ds, r')
      else None
  | [] => None
  end.

(** The optional fraction of [NUMBER_RE]: a dot and one digit or more. *)
Definition match_frac (s : str) : str * str :=
  match s with
  | d :: f :: r =>
      if (d =? 46) && is_digit f then
        let (fs, r') := span_digits r in (d :: f :: fs, r')
      else ([], s)
  | _ => ([], s)
  end.

(** The optional exponent of [NUMBER_RE]: e or E, an optional sign, one
    digit or more. *)
Definition match_exp (s : str) : str * str :=
  match s with
  | e :: r =>
      if (e =? 101) || (e =? 69) then
        match r with
        | g :: r1 =>
            if (g =? 45) || (g =? 43) then
              match span_digits r1 with
              | ([], _) => ([], s)
              | (ds, r2) => (e :: g :: ds, r2)
              end
            else
              match span_digits r with
              | ([], _) => ([], s)
              | (ds, r2) => (e :: ds, r2)
              end
        | [] => ([], s)
        end
      else ([], s)
  | [] => ([], s)
  end.

(** [NUMBER_RE.match] and the conversion that follows it: an [int]
    when there is neither fraction nor exponent, a [float] otherwise. *)
Definition match_number (s : str) : option (json * str) :=
  match match_integer s with
  | None => None
  | Some (neg, ds, r) =>
      let (frac, r1) := match_frac r in
      let (exp, r2) := match_exp r1 in
      match frac, exp with
      | [], [] =>
          let n := Z.of_N (N.of_uint (uint_of_chars ds)) in
          Some (JInt (if neg then Z.opp n else n), r2)
      | _, _ =>
          Some (JFloat ((if neg then [45] else []) ++ ds ++ frac ++ exp), r2)
      end
  end.

(** [s.startswith(p)], with what follows [p]. *)
Fixpoint strip_prefix (p s : str) : option str :=
  match p, s with
  | [], _ => Some s
  | a :: p', b :: s' => if a =? b then strip_prefix p' s' else None
  | _ :: _, [] => None
  end.

Section Containers.
(** [scan_once], as [JSONArray] and [JSONObject] receive it. *)
Variable scan : str -> scanned json.

(** The [while True] loop of [JSONArray]: [n] bounds the number of
    rounds. *)
Fixpoint array_items (n : nat) (s : str) : scanned (list json) :=
  match n with
  | O => NoFuel
  | S n' =>
      match scan s with
      | Scanned v r =>
          match skip_ws r with
          | c :: r1 =>
              if c =? 93 then Scanned [v] r1
              else if c =? 44 then
                match array_items n' (skip_ws r1) with
                | Scanned vs r2 => Scanned (v :: vs) r2
                | Stop => Stop
                | NoFuel => NoFuel
                end
              else Stop
          | [] => Stop
          end
      | Stop => Stop
      | NoFuel => NoFuel
      end
  end.

(** [JSONArray], from just after the opening bracket. *)
Definition JSONArray (n : nat) (s : str) : scanned (list json) :=
  match skip_ws s with
  | c :: r =>
      if c =? 93 then Scanned [] r else array_items n (c :: r)
  | [] => Stop
  end.

(** The [while True] loop of [JSONObject], from just after the
    opening quote of a key. *)
Fixpoint object_pairs (n : nat) (s : str) : scanned (list (str * json)) :=
  match n with
  | O => NoFuel
  | S n' =>
      match scanstring s with
      | None => Stop
      | Some (key, r) =>
          match skip_ws r with
          | c :: r1 =>
              if c =? 58 then
                match scan (skip_ws r1) with
                | Scanned v r2 =>
                    match skip_ws r2 with
                    | c2 :: r3 =>
                        if c2 =? 125 then Scanned [(key, v)] r3
                        else if c2 =? 44 then
                          match skip_ws r3 with
                          | q :: r4 =>
                              if q =? 34 then
                                match object_pairs n' r4 with
                                | Scanned ps r5 => Scanned ((key, v) :: ps) r5
                                | Stop => Stop
                                | NoFuel => NoFuel
                                end
                              else Stop
                          | [] => Stop
                          end
                        else Stop
                    | [] => Stop
                    end
                | Stop => Stop
                | NoFuel => NoFuel
                end
              else Stop
          | [] => Stop
          end
      end
  end.

(** [JSONObject], from just after the opening brace; the pairs are
    turned into a dict at the end. *)
Definition JSONObject (n : nat) (s : str) : scanned (list (str * json)) :=
  match skip_ws s with
  | c :: r =>
      if c =? 34 then
        match object_pairs n r with
        | Scanned ps r' => Scanned (dict_of_pairs ps) r'
        | Stop => Stop
        | NoFuel => NoFuel
        end
      else if c =? 125 then Scanned [] r
      else Stop
  | [] => Stop
  end.
End Containers.

(** [scan_once(string, idx)]. *)
Fixpoint scan_once (fuel : nat) (s : str) : scanned json :=
  match fuel with
  | O => NoFuel
  | S fuel' =>
      match s with
      | [] => Stop
      | c :: s' =>
          if c =? 34 then
            match scanstring s' with
            | Some (v, r) => Scanned (JStr v) r
            | None => Stop
            end
          else if c =? 123 then
            match JSONObject (scan_once fuel') fuel' s' with
            | Scanned d r => Scanned (JDict d) r
            | Stop => Stop
            | NoFuel => NoFuel
            end
          else if c =? 91 then
            match JSONArray (scan_once fuel') fuel' s' with
            | Scanned l r => Scanned (JList l) r
            | Stop => Stop
            | NoFuel => NoFuel
            end
          else
            match strip_prefix (lit "null") s with
            | Some r => Scanned JNull r
            | None =>
            match strip_prefix (lit "true") s with
            | Some r => Scanned (JBool true) r
            | None =>
            match strip_prefix (lit "false") s with
            | Some r => Scanned (JBool false) r
            | None =>
            match match_number s with
            | Some (v, r) => Scanned v r
            | None =>
            match strip_prefix (lit "NaN") s with
            | Some r => Scanned (JFloat (lit "NaN")) r
            | None =>
            match strip_prefix (lit "Infinity") s with
            | Some r => Scanned (JFloat (lit "Infinity")) r
            | None =>
            match strip_prefix (lit "-Infinity") s with
            | Some r => Scanned (JFloat (lit "-Infinity")) r
            | None => Stop
            end end end end end end end
      end
  end.

(** [json.loads(s)] for a [str]: leading white space, one value,
    trailing white space, nothing else; a byte order mark is
    refused.  This is the grammar: the [ValueError] of an integer of
    more than 4300 digits and the [RecursionError] of deep nesting are
    not part of it, and a statement that derives a parse from a value
    bounds the value by [within_limits]. *)
Definition loads (s : str) : scanned json :=
  if match s with c :: _ => c =? 0xFEFF | [] => false end then Stop
  else
    match scan_once (S (length s)) (skip_ws s) with
    | Scanned v r =>
        match skip_ws r with
        | [] => Scanned v []
        | _ :: _ => Stop
        end
    | Stop => Stop
    | NoFuel => NoFuel
    end.
End Decoder.


(* ================================================================== *)
(** * The wire: JSON text as UTF-8 bytes *)

(** The two ways [json.loads(data.decode('utf-8'))] raises. *)
Inductive decode_error : Type :=
| JSONDecodeError
| UnicodeDecodeError.

(** [json.loads(data.decode('utf-8'))]. *)
Definition loads_bytes (data : bytes) : result decode_error json :=
  match Utf8.decode data with
  | None => Raise UnicodeDecodeError
  | Some s =>
      match Decoder.loads s with
      | Decoder.Scanned v _ => Ok v
      | _ => Raise JSONDecodeError
      end
  end.

(** [json.dumps(v).encode('utf-8')]; [None] when the encoding raises. *)
Definition dumps_bytes (v : json) : option bytes :=
  Utf8.encode (Encoder.dumps v).

(** [{"command": command_type, "params": params}], the request of the
    protocol. *)
Definition Command (command_type : str) (params : json) : json :=
  JDict [(lit "command", JStr command_type); (lit "params", params)].

(** [obj.get(key, default)]: the value under [key], [default] when the
    key is absent; [None] when [obj] is not a dict and has no [get]
    (Python raises [AttributeError]). *)
Definition dict_get_or (obj : json) (key : str) (default : json) : option json :=
  match obj with
  | JDict d => Some (match dict_get d key with Some v => v | None => default end)
  | _ => None
  end.

Definition is_not_None (v : json) : bool :=
  match v with JNull => false | _ => true end.

(** [b''.join(chunks)]. *)
Definition join_bytes (chunks : list bytes) : bytes := concat chunks.

(* ================================================================== *)
(** * src/Client/maya_mcp.py: the server inside Maya *)

Module MayaMCPServer.

(** The keyword that selects what [cmds.xform] sets or queries. *)
Inductive xform_flag : Type := xf_t | xf_ro | xf_s.

(** [maya.cmds], as far as the handlers call it, over the state of the
    open document.  A call that raises is [Raise msg], where [msg] is
    [str(e)]: the message is all the server reads from an exception.
    Floats come back as their text. *)
Record cmds_api (scene : Type) : Type := {
  (** [cmds.polyCube(name=name)] *)
  polyCube : json -> M scene str (list str);
  (** [cmds.xform(target, ws=True, t=value)], and so for [ro], [s] *)
  xform : xform_flag -> json -> json -> M scene str unit;
  (** [cmds.xform(target, q=True, ws=True, t=True)], and so for [ro], [s] *)
  xform_q : xform_flag -> json -> scene -> result str (list str);
  (** [cmds.ls(name)] *)
  ls : json -> scene -> result str (list str);
  (** [cmds.ls(transforms=True)] *)
  ls_transforms : scene -> result str (list str);
  (** [cmds.ls(materials=True)] *)
  ls_materials : scene -> result str (list str);
  (** [cmds.nodeType(obj)] *)
  nodeType : str -> scene -> result str str;
  (** [cmds.file(q=True, sn=True, shn=True)] *)
  file_sn : scene -> result str str;
  (** [cmds.setAttr(attr, value)] *)
  setAttr : str -> json -> M scene str unit;
  (** [cmds.getAttr(attr)] *)
  getAttr : str -> scene -> result str json
}.

(** The thread a piece of code runs on: the thread [_server_loop]
    starts for a client, or the main thread of Maya. *)
Inductive thread : Type := handling_thread | main_thread.

(** One run of [_execute_command_internal]: the thread it ran on,
    whether [executeInMainThreadWithResult] was asked to run it, and
    the command it was given. *)
Record run_entry : Type := {
  ran_on : thread;
  via_executeInMainThreadWithResult : bool;
  ran_command : json
}.

(** What [self.get_scene_info] and the like denote in the dispatch
    table: a method of the class. *)
Inductive bound_method : Type :=
| self_get_scene_info
| self_create_object
| self_modify_object.

(** What [client.recv(8192)] gives the handling thread. *)
Inductive received : Type :=
| recv_data (data : bytes)
| recv_raises.

Section Host.
Variable scene : Type.
Variable cmds : cmds_api scene.
(** [round(x, 2)] on a float. *)
Variable round2 : str -> str.

(** [obj.get(key, default)], with the message of the
    [AttributeError] when [obj] is not a dict. *)
Definition get (obj : json) (key : str) (default : json) : result str json :=
  match dict_get_or obj key default with
  | Some v => Ok v
  | None => Raise (lit "'" ++ type_name obj
                     ++ lit "' object has no attribute 'get'")
  end.

(** [l[i]] on a list. *)
Definition item (A : Type) (l : list A) (i : nat) : result str A :=
  match nth_error l i with
  | Some x => Ok x
  | None => Raise (lit "list index out of range")
  end.

(** [if c: body]. *)
Definition when (c : bool) (body : M scene str unit) : M scene str unit :=
  if c then body else ret tt.

Definition create_object (params : json) : M scene str json :=
  name <- pure (get params (lit "type") (JStr (lit "pCube1"))) ;;
  location <- pure (get params (lit "location")
                      (JList [JInt 0; JInt 0; JInt 0])) ;;
  rotaion <- pure (get params (lit "rotation")
                     (JList [JInt 0; JInt 0; JInt 0])) ;;
  scale <- pure (get params (lit "scale")
                   (JList [JInt 1; JInt 1; JInt 1])) ;;
  created <- polyCube cmds name ;;
  cube <- pure (item created 0) ;;
  xform cmds xf_t (JStr cube) location ;;;
  xform cmds xf_ro (JStr cube) rotaion ;;;
  xform cmds xf_s (JStr cube) scale ;;;
  ret (JDict [(lit "name", name); (lit "location", location)]).

Definition floats (l : list str) : json := JList (map JFloat l).

Definition modify_object (params : json) : M scene str json :=
  name <- pure (get params (lit "name") JNull) ;;
  obj <- query (ls cmds name) ;;
  location <- pure (get params (lit "location") JNull) ;;
  rotation <- pure (get params (lit "rotation") JNull) ;;
  scale <- pure (get params (lit "scale") JNull) ;;
  visibility <- pure (get params (lit "visibility") (JBool true)) ;;
  let target := JList (map JStr obj) in
  when (is_not_None location) (xform cmds xf_t target location) ;;;
  when (is_not_None rotation) (xform cmds xf_ro target rotation) ;;;
  when (is_not_None scale) (xform cmds xf_s target scale) ;;;
  when (is_not_None visibility)
    (first <- pure (item obj 0) ;;
     setAttr cmds (first ++ lit ".visibility") visibility) ;;;
  loc <- query (xform_q cmds xf_t target) ;;
  rot <- query (xform_q cmds xf_ro target) ;;
  sc <- query (xform_q cmds xf_s target) ;;
  first <- pure (item obj 0) ;;
  vis <- query (getAttr cmds (first ++ lit ".visibility")) ;;
  ret (JDict [(lit "name", name); (lit "location", floats loc);
              (lit "rotation", floats rot); (lit "scale", floats sc);
              (lit "visibility", vis)]).

(** The entry of one object in the [objects] list. *)
Definition obj_info (obj : str) : M scene str json :=
  position <- query (xform_q cmds xf_t (JStr obj)) ;;
  type <- query (nodeType cmds obj) ;;
  x <- pure (item position 0) ;;
  y <- pure (item position 1) ;;
  z <- pure (item position 2) ;;
  ret (JDict [(lit "name", JStr obj); (lit "type", JStr type);
              (lit "location",
               JList [JFloat (round2 x); JFloat (round2 y);
                      JFloat (round2 z)])]).

(** The loop [for i, obj in enumerate(all_objects)], from index [i]
    on, with the [objects] list built so far. *)
Fixpoint collect_objects (i : nat) (all_objects : list str)
         (objects : list json) : M scene str (list json) :=
  match all_objects with
  | [] => ret objects
  | obj :: rest =>
      if 10 <=? i then ret objects
      else
        info <- obj_info obj ;;
        collect_objects (S i) rest (objects ++ [info])
  end.

Definition get_scene_info (params : json) : M scene str json :=
  try_except
    (sn <- query (file_sn cmds) ;;
     let scene_name := match sn with [] => lit "untitled" | _ => sn end in
     all_objects <- query (ls_transforms cmds) ;;
     let object_count := List.length all_objects in
     materials <- query (ls_materials cmds) ;;
     objects <- collect_objects 0 all_objects [] ;;
     ret (JDict [(lit "name", JStr scene_name);
                 (lit "object_count", JInt (Z.of_nat object_count));
                 (lit "objects", JList objects);
                 (lit "materials_count",
                  JInt (Z.of_nat (List.length materials)))]))
    (fun e => ret (JDict [(lit "error", JStr e)])).

Definition call (handler : bound_method) (params : json)
  : M scene str json :=
  match handler with
  | self_get_scene_info => get_scene_info params
  | self_create_object => create_object params
  | self_modify_object => modify_object params
  end.

(** The dispatch table of [_execute_command_internal]. *)
Definition handlers : dict bound_method :=
  [(lit "get_scene_info", self_get_scene_info);
   (lit "create_object", self_create_object)].

(** [handlers.get(cmd_type)]: a list or a dict cannot be looked up. *)
Definition handlers_get (cmd_type : json)
  : result str (option bound_method) :=
  match cmd_type with
  | JStr name => Ok (dict_get handlers name)
  | JList _ => Raise (lit "unhashable type: 'list'")
  | JDict _ => Raise (lit "unhashable type: 'dict'")
  | _ => Ok None
  end.

(** The function ends without a [return] when there is no handler:
    it returns [None]. *)
Definition _execute_command_internal (command : json)
  : M scene str json :=
  cmd_type <- pure (get command (lit "command") JNull) ;;
  params <- pure (get command (lit "params") (JDict [])) ;;
  handler <- pure (handlers_get cmd_type) ;;
  match handler with
  | Some h =>
      result <- call h params ;;
      ret (JDict [(lit "status", JStr (lit "success"));
                  (lit "result", result)])
  | None => ret JNull
  end.

(** The document, and the runs of [_execute_command_internal] so
    far (oldest first). *)
Record host_state : Type := {
  doc : scene;
  runs : list run_entry
}.

(** [cmd_type in ["create_object", "modify_object", "delete_object"]]. *)
Definition mutating (cmd_type : json) : bool :=
  eq_str cmd_type (lit "create_object")
  || eq_str cmd_type (lit "modify_object")
  || eq_str cmd_type (lit "delete_object").

(** A run of [_execute_command_internal] on thread [th]. *)
Definition run_internal (th : thread) (via : bool) (command : json)
  : M host_state str json :=
  fun h =>
    let (r, sc) := _execute_command_internal command (doc h) in
    (r, {| doc := sc;
           runs := runs h ++ [{| ran_on := th;
                                 via_executeInMainThreadWithResult := via;
                                 ran_command := command |}] |}).

(** [maya.utils.executeInMainThreadWithResult(
      self._execute_command_internal, command)]: the function runs
    on the main thread and the caller waits for what it returns or
    raises. *)
Definition executeInMainThreadWithResult (command : json)
  : M host_state str json :=
  run_internal main_thread true command.

(** [execute_command], called on thread [th]. *)
Definition execute_command (th : thread) (command : json)
  : M host_state str json :=
  try_except
    (cmd_type <- pure (get command (lit "command") JNull) ;;
     params <- pure (get command (lit "params") (JDict [])) ;;
     if mutating cmd_type
     then executeInMainThreadWithResult command
     else run_internal th false command)
    (fun e => ret (JDict [(lit "status", JStr (lit "error"));
                          (lit "message", JStr e)])).

(** One client connection, as [_handle_client] and the wrappers it
    hands to [maya.utils.executeDeferred] see it.  [command] is the
    local variable of [_handle_client] that every [execute_wrapper]
    closure reads when it runs. *)
Record connection : Type := {
  running : bool;            (* self.running *)
  buffer : bytes;
  command : option json;
  client_open : bool;        (* the loop has not ended in client.close() *)
  deferred : nat;            (* wrappers queued by executeDeferred *)
  sent : list bytes;         (* what client.sendall has written *)
  host : host_state
}.

Definition close (c : connection) : connection :=
  {| running := running c; buffer := buffer c; command := command c;
     client_open := false; deferred := deferred c; sent := sent c;
     host := host c |}.

(** One round of [while self.running] in [_handle_client], with what
    [client.recv] gives in it. *)
Definition handle_client_round (r : received) (c : connection)
  : connection :=
  if negb (client_open c) then c
  else if negb (running c) then close c
  else
    match r with
    | recv_raises => close c
    | recv_data [] => close c
    | recv_data data =>
        let buffer' := buffer c ++ data in
        match loads_bytes buffer' with
        | Ok cmd =>
            {| running := running c; buffer := [];
               command := Some cmd; client_open := true;
               deferred := S (deferred c); sent := sent c;
               host := host c |}
        | Raise JSONDecodeError =>
            {| running := running c; buffer := buffer';
               command := command c; client_open := true;
               deferred := deferred c; sent := sent c; host := host c |}
        | Raise UnicodeDecodeError =>
            close {| running := running c; buffer := buffer';
                     command := command c; client_open := true;
                     deferred := deferred c; sent := sent c;
                     host := host c |}
        end
    end.

(** [client.sendall(data)] inside [try: ... except: pass]: nothing
    is written when the socket is closed or the peer is gone. *)
Definition sendall_or_pass (peer_ok : bool) (data : option bytes)
           (c : connection) (h : host_state) : connection :=
  {| running := running c; buffer := buffer c; command := command c;
     client_open := client_open c; deferred := deferred c;
     sent := match data with
             | Some b => if peer_ok && client_open c
                         then sent c ++ [b] else sent c
             | None => sent c
             end;
     host := h |}.

(** [execute_wrapper], run on thread [th]. *)
Definition execute_wrapper (th : thread) (peer_ok : bool)
           (c : connection) : connection :=
  match command c with
  | None => c
  | Some cmd =>
      match execute_command th cmd (host c) with
      | (Ok response, h) =>
          sendall_or_pass peer_ok (dumps_bytes response) c h
      | (Raise e, h) =>
          sendall_or_pass peer_ok
            (dumps_bytes (JDict [(lit "status", JStr (lit "error"));
                                 (lit "message", JStr e)])) c h
      end
  end.

(** What happens around a connection: the handling thread makes a
    round of its loop, the main thread of Maya is idle and runs the
    next deferred call, or [stop()] clears [self.running]. *)
Inductive event : Type :=
| Recv (r : received)
| Idle (peer_ok : bool)
| Stopped.

Definition step (e : event) (c : connection) : connection :=
  match e with
  | Recv r => handle_client_round r c
  | Idle peer_ok =>
      match deferred c with
      | O => c
      | S n =>
          execute_wrapper main_thread peer_ok
            {| running := running c; buffer := buffer c;
               command := command c; client_open := client_open c;
               deferred := n; sent := sent c; host := host c |}
      end
  | Stopped =>
      {| running := false; buffer := buffer c; command := command c;
         client_open := client_open c; deferred := deferred c;
         sent := sent c; host := host c |}
  end.

Definition run (events : list event) (c : connection) : connection :=
  fold_left (fun c e => step e c) events c.

(** A connection just accepted by a running server. *)
Definition accepted (sc : scene) : connection :=
  {| running := true; buffer := []; command := None;
     client_open := true; deferred := 0; sent := [];
     host := {| doc := sc; runs := [] |} |}.
End Host.
End MayaMCPServer.

(* ================================================================== *)
(** * src/Client/maya_mcp.py: starting and stopping the server *)

Module Lifecycle.

(** The calls of the [try] block of [start] that can raise, in the
    order they are made: [socket.socket], [setsockopt], [bind],
    [listen] and the [start] of the server thread. *)
Inductive setup_call : Type :=
| call_socket
| call_setsockopt
| call_bind
| call_listen
| call_thread_start.

(** The operating system, as [start] and [stop] see it: for each run
    of the [try] block of [start] to come, the call that raises in it
    if one does (none does when the list is used up); for each
    [socket.close()] to come, whether it raises (a socket is closed
    even when [close] raises); the sockets that are open, those that
    listen, the number of server threads started, and the next socket
    to be handed out. *)
Record os : Type := {
  faults : list (option setup_call);
  close_raises : list bool;
  open_sockets : list nat;
  listening : list nat;
  threads_started : nat;
  next_socket : nat
}.

(** An object of the class, by its attributes. *)
Record MayaMCPServer : Type := {
  host : str;
  port : N;
  running : bool;
  socket : option nat;
  server_thread : option nat
}.

Definition __init__ (host : str) (port : N) : MayaMCPServer :=
  {| host := host; port := port; running := false; socket := None;
     server_thread := None |}.

Definition without (fd : nat) (l : list nat) : list nat :=
  filter (fun x => negb (Nat.eqb x fd)) l.

(** [self.socket.close()] inside [try: ... except Exception]: the
    socket is closed for the object and the process.  What the system
    does with a socket on which a thread is still blocked in [accept]
    is not followed. *)
Definition close_socket (fd : nat) (o : os) : os :=
  {| faults := faults o; close_raises := tl (close_raises o);
     open_sockets := without fd (open_sockets o);
     listening := without fd (listening o);
     threads_started := threads_started o;
     next_socket := next_socket o |}.

Definition stop (self : MayaMCPServer) (o : os) : MayaMCPServer * os :=
  ({| host := host self; port := port self; running := false;
      socket := None; server_thread := None |},
   match socket self with
   | Some fd => close_socket fd o
   | None => o
   end).

(** The [try] block of [start], in which [fault] raises: whether it
    ran to its end, and the object and the system it leaves. *)
Definition setup (fault : option setup_call) (self : MayaMCPServer) (o : os)
  : bool * MayaMCPServer * os :=
  let fd := next_socket o in
  let with_socket :=
    {| host := host self; port := port self; running := running self;
       socket := Some fd; server_thread := server_thread self |} in
  let with_thread :=
    {| host := host self; port := port self; running := running self;
       socket := Some fd; server_thread := Some (threads_started o) |} in
  let opened :=
    {| faults := faults o; close_raises := close_raises o;
       open_sockets := open_sockets o ++ [fd]; listening := listening o;
       threads_started := threads_started o; next_socket := S fd |} in
  let listens :=
    {| faults := faults o; close_raises := close_raises o;
       open_sockets := open_sockets o ++ [fd];
       listening := listening o ++ [fd];
       threads_started := threads_started o; next_socket := S fd |} in
  match fault with
  | Some call_socket => (false, self, o)
  | Some call_setsockopt | Some call_bind | Some call_listen =>
      (false, with_socket, opened)
  | Some call_thread_start => (false, with_thread, listens)
  | None =>
      (true, with_thread,
       {| faults := faults o; close_raises := close_raises o;
          open_sockets := open_sockets o ++ [fd];
          listening := listening o ++ [fd];
          threads_started := S (threads_started o); next_socket := S fd |})
  end.

Definition start (self : MayaMCPServer) (o : os) : MayaMCPServer * os :=
  if running self then (self, o)
  else
    let self1 :=
      {| host := host self; port := port self; running := true;
         socket := socket self; server_thread := server_thread self |} in
    let o1 :=
      {| faults := tl (faults o); close_raises := close_raises o;
         open_sockets := open_sockets o; listening := listening o;
         threads_started := threads_started o;
         next_socket := next_socket o |} in
    match setup (hd None (faults o)) self1 o1 with
    | (true, self2, o2) => (self2, o2)
    | (false, self2, o2) => stop self2 o2
    end.

(** What [self.socket.accept()] and the start of the client thread
    give in one round of [_server_loop]. *)
Inductive accept_outcome : Type :=
| accept_client (client : nat) (thread_starts : bool)
| accept_timeout
| accept_raises.

(** [_server_loop]: the rounds of [while self.running], each with the
    value of [self.running] when the round begins and what [accept]
    gives in it.  The result is the clients whose handling thread was
    started, and whether the loop has ended. *)
Fixpoint _server_loop (rounds : list (bool * accept_outcome))
         (clients : list nat) : list nat * bool :=
  match rounds with
  | [] => (clients, false)
  | (false, _) :: _ => (clients, true)
  | (true, accept_client client true) :: rest =>
      _server_loop rest (clients ++ [client])
  | (true, _) :: rest => _server_loop rest clients
  end.

End Lifecycle.

(* ================================================================== *)
(** * src/Server/maya_mcp/server.py: the MCP adapter *)

Module Adapter.

(** The exceptions the adapter tells apart or passes on.
    [ConnectionError] stands for itself and its subclasses
    [BrokenPipeError] and [ConnectionResetError]; [OSError] for any
    other error of the socket. *)
Inductive exn : Type :=
| Exception (arg : json)
| socket_timeout
| ConnectionError
| OSError
| DecodeError (e : decode_error)
| UnicodeEncodeError
| AttributeError
| KeyError
| TypeError.

(** What the network does to the adapter: the outcome of the calls to
    [connect], [sendall] and [recv] to come, in order, and what
    [sendall] has written so far.  When a list is used up, [connect]
    is refused, [sendall] succeeds and [recv] times out. *)
Record network : Type := {
  connects : list bool;
  sendalls : list (option exn);
  recvs : list (result exn bytes);
  wire : list bytes;
  opened : nat
}.

Record MayaConnection : Type := {
  host : str;
  port : N;
  sock : option nat
}.

Definition set_sock (s : option nat) (self : MayaConnection) : MayaConnection :=
  {| host := host self; port := port self; sock := s |}.

Definition connect (self : MayaConnection) (net : network)
  : bool * MayaConnection * network :=
  match sock self with
  | Some _ => (true, self, net)
  | None =>
      match connects net with
      | true :: rest =>
          (true, set_sock (Some (opened net)) self,
           {| connects := rest; sendalls := sendalls net;
              recvs := recvs net; wire := wire net;
              opened := S (opened net) |})
      | false :: rest =>
          (false, set_sock None self,
           {| connects := rest; sendalls := sendalls net;
              recvs := recvs net; wire := wire net;
              opened := S (opened net) |})
      | [] => (false, set_sock None self, net)
      end
  end.

Definition disconnect (self : MayaConnection) : MayaConnection :=
  match sock self with
  | Some _ => set_sock None self
  | None => self
  end.

(** [self.sock.sendall(data)].  [wire] records the messages written
    in full; what part of a message is on the wire when [sendall]
    raises is not recorded. *)
Definition sendall (data : bytes) : M network exn unit :=
  fun net =>
    match sendalls net with
    | Some e :: rest =>
        (Raise e, {| connects := connects net; sendalls := rest;
                     recvs := recvs net; wire := wire net;
                     opened := opened net |})
    | None :: rest =>
        (Ok tt, {| connects := connects net; sendalls := rest;
                   recvs := recvs net; wire := wire net ++ [data];
                   opened := opened net |})
    | [] =>
        (Ok tt, {| connects := connects net; sendalls := [];
                   recvs := recvs net; wire := wire net ++ [data];
                   opened := opened net |})
    end.

(** How the [while True] loop of [receive_full_response] ends. *)
Inductive loop_exit : Type :=
| Returned (data : bytes)
| Broke (chunks : list bytes)
| Raised (e : exn).

(** The loop, with the chunks appended so far and what the calls to
    [sock.recv] give from here on. *)
Fixpoint receive_loop (chunks : list bytes) (script : list (result exn bytes))
  : loop_exit * list (result exn bytes) :=
  match script with
  | [] => (Broke chunks, [])
  | Ok [] :: rest =>
      match chunks with
      | [] => (Raised (Exception (JStr (lit
                 "Connection closed before receiving any data"))), rest)
      | _ :: _ => (Broke chunks, rest)
      end
  | Ok chunk :: rest =>
      let chunks' := chunks ++ [chunk] in
      match loads_bytes (join_bytes chunks') with
      | Ok _ => (Returned (join_bytes chunks'), rest)
      | Raise JSONDecodeError => receive_loop chunks' rest
      | Raise UnicodeDecodeError =>
          (Raised (DecodeError UnicodeDecodeError), rest)
      end
  | Raise socket_timeout :: rest => (Broke chunks, rest)
  | Raise e :: rest => (Raised e, rest)
  end.

Definition receive_full_response : M network exn bytes :=
  fun net =>
    let (exit, rest) := receive_loop [] (recvs net) in
    let net' := {| connects := connects net; sendalls := sendalls net;
                   recvs := rest; wire := wire net;
                   opened := opened net |} in
    match exit with
    | Returned data => (Ok data, net')
    | Raised e => (Raise e, net')
    | Broke [] => (Raise (Exception (JStr (lit "No data received"))), net')
    | Broke chunks =>
        let data := join_bytes chunks in
        match loads_bytes data with
        | Ok _ => (Ok data, net')
        | Raise JSONDecodeError =>
            (Raise (Exception (JStr (lit
               "Incomplete JSON response received"))), net')
        | Raise UnicodeDecodeError =>
            (Raise (DecodeError UnicodeDecodeError), net')
        end
    end.

(** [obj.get(key, default)]. *)
Definition get (S : Type) (obj : json) (key : str) (default : json)
  : M S exn json :=
  match dict_get_or obj key default with
  | Some v => ret v
  | None => raise AttributeError
  end.

(** The body of the [try] block of [send_command]. *)
Definition exchange (command : json) : M network exn json :=
  match dumps_bytes command with
  | None => raise UnicodeEncodeError
  | Some data =>
      sendall data ;;;
      response_data <- receive_full_response ;;
      match loads_bytes response_data with
      | Raise e => raise (DecodeError e)
      | Ok response =>
          status <- get response (lit "status") JNull ;;
          if eq_str status (lit "error") then
            message <- get response (lit "message")
                         (JStr (lit "Unknown error from Maya")) ;;
            raise (Exception message)
          else get response (lit "result") (JDict [])
      end
  end.

(** [self.send_command(command_type, params)]: what it returns or
    raises, the object afterwards and the network afterwards. *)
Definition send_command (self : MayaConnection) (command_type : str)
           (params : json) (net : network)
  : result exn json * MayaConnection * network :=
  match sock self with
  | None =>
      (Raise (Exception (JStr (lit "Not connected to Maya"))), self, net)
  | Some _ =>
      let command :=
        Command command_type (if truthy params then params else JDict []) in
      match exchange command net with
      | (Ok v, net') => (Ok v, self, net')
      | (Raise e, net') => (Raise e, set_sock None self, net')
      end
  end.

(** The module: its global [_maya_connection] and the network. *)
Record world : Type := {
  _maya_connection : option MayaConnection;
  net : network
}.

(** What a call hands back: the object [_maya_connection] refers to,
    or a plain value. *)
Inductive object : Type :=
| the_connection
| value (v : json).

(** The second half of [get_maya_connection], when the global is
    [None]. *)
Definition new_connection (n : network) : result exn object * world :=
  let c := {| host := lit "localhost"; port := 9876%N; sock := None |} in
  match connect c n with
  | (true, c', n') =>
      (Ok the_connection, {| _maya_connection := Some c'; net := n' |})
  | (false, _, n') =>
      (Raise (Exception (JStr (lit "Failed to connect to Maya"))),
       {| _maya_connection := None; net := n' |})
  end.

Definition get_maya_connection : M world exn object :=
  fun w =>
    match _maya_connection w with
    | Some c =>
        match send_command c (lit "about") JNull (net w) with
        | (Ok result, c', n') =>
            match dict_get_or result (lit "enabled") (JBool false) with
            | Some v =>
                (Ok (value v), {| _maya_connection := Some c'; net := n' |})
            | None => new_connection n'
            end
        | (Raise _, _, n') => new_connection n'
        end
    | None => new_connection (net w)
    end.

(** [maya.send_command(command_type, params)] on what
    [get_maya_connection] handed back. *)
Definition call_send_command (maya : object) (command_type : str)
           (params : json) : M world exn json :=
  fun w =>
    match maya with
    | value _ => (Raise AttributeError, w)
    | the_connection =>
        match _maya_connection w with
        | None => (Raise AttributeError, w)
        | Some c =>
            match send_command c command_type params (net w) with
            | (r, c', n') => (r, {| _maya_connection := Some c'; net := n' |})
            end
        end
    end.

Definition get_maya_version : M world exn json :=
  maya <- get_maya_connection ;;
  call_send_command maya (lit "about") JNull.

Definition get_scene_info : M world exn json :=
  maya <- get_maya_connection ;;
  call_send_command maya (lit "get_scene_info") JNull.

(** [result['name']]. *)
Definition subscript (S : Type) (obj : json) (key : str) : M S exn json :=
  match obj with
  | JDict d =>
      match dict_get d key with
      | Some v => ret v
      | None => raise KeyError
      end
  | _ => raise TypeError
  end.

(** The [params] dict that [modify_object] builds. *)
Definition modify_object_params (name : str)
           (location rotation scale visible : json) : dict json :=
  let params := [(lit "name", JStr name)] in
  let params := if is_not_None location
                then dict_set params (lit "location") location else params in
  let params := if is_not_None rotation
                then dict_set params (lit "rotation") rotation else params in
  let params := if is_not_None scale
                then dict_set params (lit "scale") scale else params in
  let params := if is_not_None visible
                then dict_set params (lit "visible") visible else params in
  params.

(** The two strings [modify_object] returns, by what they are built
    from: [f"Modified object: {result['name']}"] and
    [f"Error modifying object: {str(e)}"]. *)
Inductive modify_reply : Type :=
| Modified_object (name : json)
| Error_modifying_object (e : exn).

Definition modify_object (name : str)
           (location rotation scale visible : json) (w : world)
  : modify_reply * world :=
  match (maya <- get_maya_connection ;;
         result <- call_send_command maya (lit "modify_object")
                     (JDict (modify_object_params name location rotation
                               scale visible)) ;;
         subscript result (lit "name")) w with
  | (Ok n, w') => (Modified_object n, w')
  | (Raise e, w') => (Error_modifying_object e, w')
  end.

(** The [params] dict that [create_object] builds. *)
Definition create_object_params (type : str)
           (name location rotation scale : json) : dict json :=
  let loc := if truthy location then location
             else JList [JInt 0; JInt 0; JInt 0] in
  let rot := if truthy rotation then rotation
             else JList [JInt 0; JInt 0; JInt 0] in
  let sc := if truthy scale then scale
            else JList [JInt 1; JInt 1; JInt 1] in
  let params := [(lit "type", JStr type); (lit "location", loc);
                 (lit "rotation", rot); (lit "scale", sc)] in
  let params := if truthy name
                then dict_set params (lit "name") name else params in
  dict_set params (lit "scale") sc.

(** [f"Created {type} object: {result['name']}"] and
    [f"Error creating object: {str(e)}"]. *)
Inductive create_reply : Type :=
| Created_object (type : str) (name : json)
| Error_creating_object (e : exn).

Definition create_object (type : str)
           (name location rotation scale : json) (w : world)
  : create_reply * world :=
  match (maya <- get_maya_connection ;;
         result <- call_send_command maya (lit "create_object")
                     (JDict (create_object_params type name location
                               rotation scale)) ;;
         subscript result (lit "name")) w with
  | (Ok n, w') => (Created_object type n, w')
  | (Raise e, w') => (Error_creating_object e, w')
  end.

(** The [finally] block of [server_lifespan]: the connection the
    global holds is disconnected.  The assignment that follows binds
    the local name [_maya_connect]; the global keeps the object. *)
Definition lifespan_finally (w : world) : world :=
  match _maya_connection w with
  | Some c => {| _maya_connection := Some (disconnect c); net := net w |}
  | None => w
  end.

(** [server_lifespan] up to its [yield]: an exception of
    [get_maya_connection] leaves through the [finally] block. *)
Definition server_lifespan_enter : M world exn unit :=
  fun w =>
    match get_maya_connection w with
    | (Ok _, w') => (Ok tt, w')
    | (Raise e, w') => (Raise e, lifespan_finally w')
    end.

(** [server_lifespan] from its [yield] on. *)
Definition server_lifespan_exit : M world exn unit :=
  fun w => (Ok tt, lifespan_finally w).

(** The tool [add]. *)
Definition add (a b : Z) : Z := (a * b)%Z.
End Adapter.

(* ================================================================== *)
(** * A small host to run the server against

    A document with a file name, transform nodes with a type and a
    world position, and materials; [polyCube] adds a transform under
    the name it is given. *)

Module Demo.
Import MayaMCPServer.

Record node : Type := {
  node_name : str;
  node_type : str;
  node_position : list str
}.

Record scene : Type := {
  file : str;
  transforms : list node;
  materials : list str
}.

Fixpoint find (name : str) (nodes : list node) : option node :=
  match nodes with
  | [] => None
  | n :: rest => if str_eqb (node_name n) name then Some n else find name rest
  end.

Definition no_object : str := lit "No object matches name".

Definition lookup (A : Type) (target : json) (f : node -> A) (sc : scene)
  : result str A :=
  match target with
  | JStr name =>
      match find name (transforms sc) with
      | Some n => Ok (f n)
      | None => Raise no_object
      end
  | _ => Raise no_object
  end.

Definition cmds : cmds_api scene := {|
  polyCube := fun name sc =>
    match name with
    | JStr n =>
        (Ok [n; lit "polyCube1"],
         {| file := file sc;
            transforms := transforms sc
              ++ [{| node_name := n; node_type := lit "transform";
                     node_position := [lit "0.0"; lit "0.0"; lit "0.0"] |}];
            materials := materials sc |})
    | _ => (Raise (lit "Invalid arguments for flag 'name'"), sc)
    end;
  xform := fun _ target _ sc =>
    match lookup target (fun _ => tt) sc with
    | Ok _ => (Ok tt, sc)
    | Raise e => (Raise e, sc)
    end;
  xform_q := fun _ target sc => lookup target node_position sc;
  ls := fun name sc =>
    match lookup name node_name sc with
    | Ok n => Ok [n]
    | Raise _ => Ok []
    end;
  ls_transforms := fun sc => Ok (map node_name (transforms sc));
  ls_materials := fun sc => Ok (materials sc);
  nodeType := fun obj sc => lookup (JStr obj) node_type sc;
  file_sn := fun sc => Ok (file sc);
  setAttr := fun _ _ sc => (Ok tt, sc);
  getAttr := fun _ _ => Ok (JBool true)
|}.

Definition round2 (x : str) : str := x.

Definition empty : scene :=
  {| file := []; transforms := []; materials := [lit "lambert1"] |}.

Definition one_cube : scene :=
  {| file := lit "shot.ma";
     transforms := [{| node_name := lit "pCube1";
                       node_type := lit "transform";
                       node_position := [lit "1.0"; lit "2.0"; lit "3.0"] |}];
     materials := [lit "lambert1"] |}.
End Demo.

(* ================================================================== *)
(** * A host on which calls fail

    The host of [Demo], except that the document does not tell its
    file name and that [xform] wants three values. *)

Module Faulty.
Import MayaMCPServer.

Definition locked : str := lit "file: the scene is locked".

Definition bad_vector : str := lit "xform: three values expected".

Definition cmds : cmds_api Demo.scene := {|
  polyCube := polyCube Demo.cmds;
  xform := fun flag target value sc =>
    match value with
    | JList [_; _; _] => xform Demo.cmds flag target value sc
    | _ => (Raise bad_vector, sc)
    end;
  xform_q := xform_q Demo.cmds;
  ls := ls Demo.cmds;
  ls_transforms := ls_transforms Demo.cmds;
  ls_materials := ls_materials Demo.cmds;
  nodeType := nodeType Demo.cmds;
  file_sn := fun _ => Raise locked;
  setAttr := setAttr Demo.cmds;
  getAttr := getAttr Demo.cmds
|}.
End Faulty.

(* ================================================================== *)
(** * A host with objects that can be hidden

    A document of named objects, each visible or hidden.  [ls] lists
    the object of a name, [setAttr] and [getAttr] write and read the
    attribute [<name>.visibility], and the queries of [xform] take
    the list [ls] gave, as [modify_object] passes it. *)

Module Stage.
Import MayaMCPServer.

Record prop : Type := {
  prop_name : str;
  visible : bool
}.

Definition scene : Type := list prop.

Definition no_object : str := lit "No object matches name".

Definition has (name : str) (sc : scene) : bool :=
  existsb (fun p => str_eqb (prop_name p) name) sc.

(** The objects a target names: a name, or the first name of a
    list. *)
Definition target_name (target : json) : option str :=
  match target with
  | JStr name => Some name
  | JList (JStr name :: _) => Some name
  | _ => None
  end.

Definition on_target (A : Type) (target : json) (a : A) (sc : scene)
  : result str A :=
  match target_name target with
  | Some name => if has name sc then Ok a else Raise no_object
  | None => Raise no_object
  end.

Definition is_attr (p : prop) (attr : str) : bool :=
  str_eqb (prop_name p ++ lit ".visibility") attr.

Definition cmds : cmds_api scene := {|
  polyCube := fun name sc =>
    match name with
    | JStr n =>
        (Ok [n; lit "polyCube1"],
         sc ++ [{| prop_name := n; visible := true |}])
    | _ => (Raise (lit "Invalid arguments for flag 'name'"), sc)
    end;
  xform := fun _ target _ sc =>
    match on_target target tt sc with
    | Ok _ => (Ok tt, sc)
    | Raise e => (Raise e, sc)
    end;
  xform_q := fun flag target sc =>
    on_target target
      match flag with
      | xf_s => [lit "1.0"; lit "1.0"; lit "1.0"]
      | _ => [lit "0.0"; lit "0.0"; lit "0.0"]
      end sc;
  ls := fun name sc =>
    match name with
    | JStr n => Ok (if has n sc then [n] else [])
    | _ => Ok []
    end;
  ls_transforms := fun sc => Ok (map prop_name sc);
  ls_materials := fun _ => Ok [];
  nodeType := fun obj sc => on_target (JStr obj) (lit "transform") sc;
  file_sn := fun _ => Ok [];
  setAttr := fun attr value sc =>
    if existsb (fun p => is_attr p attr) sc
    then
      match value with
      | JBool b =>
          (Ok tt,
           map (fun p => if is_attr p attr
                         then {| prop_name := prop_name p; visible := b |}
                         else p) sc)
      | _ => (Raise (lit "setAttr: a boolean is expected"), sc)
      end
    else (Raise no_object, sc);
  getAttr := fun attr sc =>
    match find (fun p => is_attr p attr) sc with
    | Some p => Ok (JBool (visible p))
    | None => Raise no_object
    end
|}.

(** A document with one cube, hidden, and the same cube shown. *)
Definition hidden_cube : scene :=
  [{| prop_name := lit "pCube1"; visible := false |}].

Definition shown_cube : scene :=
  [{| prop_name := lit "pCube1"; visible := true |}].
End Stage.

(* ================================================================== *)
(** * What the statements below speak of *)

(** The JSON text [null], as bytes. *)
Definition null_bytes : bytes := [x6e; x75; x6c; x6c].

(** A reply of the protocol: a dict whose [status] is ["success"] or
    ["error"]. *)
Definition is_Response (v : json) : bool :=
  match dict_get_or v (lit "status") JNull with
  | Some st => eq_str st (lit "success") || eq_str st (lit "error")
  | None => false
  end.


(** The bytes of a value on the wire, for values that have them. *)
Definition wire_bytes (v : json) : bytes :=
  match dumps_bytes v with
  | Some data => data
  | None => []
  end.

(** An adapter whose global holds a connected [MayaConnection], on a
    network that delivers the given chunks to the calls of [recv]. *)
Definition connected : Adapter.MayaConnection :=
  {| Adapter.host := lit "localhost"; Adapter.port := 9876%N;
     Adapter.sock := Some 0 |}.

Definition delivering (chunks : list (result Adapter.exn bytes))
  : Adapter.network :=
  {| Adapter.connects := []; Adapter.sendalls := [];
     Adapter.recvs := chunks; Adapter.wire := []; Adapter.opened := 1 |}.

(** The reply the probe of [get_maya_connection] reads [enabled] from. *)
Definition about_reply : json :=
  JDict [(lit "status", JStr (lit "success"));
         (lit "result", JDict [(lit "enabled", JBool true)])].

(** The host answers the queries [get_scene_info] makes about [obj]:
    the position has its three coordinates and the node has a type. *)
Definition answers (scene : Type) (cmds : MayaMCPServer.cmds_api scene)
           (sc : scene) (obj : str) : bool :=
  match MayaMCPServer.xform_q cmds MayaMCPServer.xf_t (JStr obj) sc,
        MayaMCPServer.nodeType cmds obj sc with
  | Ok (_ :: _ :: _ :: _), Ok _ => true
  | _, _ => false
  end.

(** An entry of the [objects] list: a dict with exactly the keys
    [name], [type] and [location], in this order. *)
Definition is_obj_info (v : json) : bool :=
  match v with
  | JDict [(k1, _); (k2, _); (k3, _)] =>
      str_eqb k1 (lit "name") && str_eqb k2 (lit "type")
      && str_eqb k3 (lit "location")
  | _ => false
  end.

Definition nonempty (b : bytes) : bool :=
  match b with [] => false | _ :: _ => true end.

(** Chunks that leave a receiver waiting: none is empty, and the bytes
    accumulated after each of them, on top of [acc], fail to parse with
    [JSONDecodeError]. *)
Fixpoint waiting (acc : bytes) (chunks : list bytes) : bool :=
  match chunks with
  | [] => true
  | c :: rest =>
      nonempty c
      && match loads_bytes (acc ++ c) with
         | Raise JSONDecodeError => true
         | _ => false
         end
      && waiting (acc ++ c) rest
  end.

(** The network after the calls to [recv] that left [rest] to come. *)
Definition recvs_left (rest : list (result Adapter.exn bytes))
           (n : Adapter.network) : Adapter.network :=
  {| Adapter.connects := Adapter.connects n;
     Adapter.sendalls := Adapter.sendalls n;
     Adapter.recvs := rest; Adapter.wire := Adapter.wire n;
     Adapter.opened := Adapter.opened n |}.

(** The three conditions [receive_full_response] raises of its own. *)
Definition closed_before_data : Adapter.exn :=
  Adapter.Exception (JStr (lit "Connection closed before receiving any data")).
Definition incomplete_response : Adapter.exn :=
  Adapter.Exception (JStr (lit "Incomplete JSON response received")).
Definition no_data_received : Adapter.exn :=
  Adapter.Exception (JStr (lit "No data received")).

(** [d.get(key, default)] on a dict. *)
Definition get_or (d : dict json) (key : str) (default : json) : json :=
  match dict_get d key with
  | Some v => v
  | None => default
  end.

(** A connection on which the wrapper of a [modify_object] command is
    about to run. *)
Definition modify_command : dict json :=
  [(lit "command", JStr (lit "modify_object"));
   (lit "params", JDict [(lit "name", JStr (lit "pCube1"))])].

Definition about_to_run : MayaMCPServer.connection Demo.scene :=
  {| MayaMCPServer.running := true; MayaMCPServer.buffer := [];
     MayaMCPServer.command := Some (JDict modify_command);
     MayaMCPServer.client_open := true; MayaMCPServer.deferred := 0;
     MayaMCPServer.sent := [];
     MayaMCPServer.host := {| MayaMCPServer.doc := Demo.one_cube;
                              MayaMCPServer.runs := [] |} |}.

(** The params of a [create_object] request that names its cube. *)
Definition named_cube : dict json :=
  [(lit "name", JStr (lit "crate"));
   (lit "location", JList [JInt 1; JInt 2; JInt 3])].

(** The scene [Demo.empty] after a cube named [pCube1] was added. *)
Definition with_pCube1 : Demo.scene :=
  {| Demo.file := [];
     Demo.transforms :=
       [{| Demo.node_name := lit "pCube1"; Demo.node_type := lit "transform";
           Demo.node_position := [lit "0.0"; lit "0.0"; lit "0.0"] |}];
     Demo.materials := [lit "lambert1"] |}.

(* ------------------------------------------------------------------ *)
(** ** Valid values and what the scanner makes of their text *)

Section CodecTerms.
Import Encoder Decoder.
Local Open Scope N_scope.

(** A Unicode scalar value: a code point that is not a surrogate. *)
Definition scalar (c : N) : bool :=
  (c <? 0x110000) && negb (Utf8.is_surrogate c).

(** What may follow a value inside a document. *)
Definition delim (rest : str) : bool :=
  match rest with
  | [] => true
  | c :: _ => (c =? 44) || (c =? 93) || (c =? 125)
  end.

(** The characters number literals are made of. *)
Definition number_char (c : N) : bool :=
  is_digit c || (c =? 45) || (c =? 43) || (c =? 46) || (c =? 101) || (c =? 69).

(** The first character of a value on the wire. *)
Definition opening (c : N) : bool :=
  is_digit c || (c =? 45) || (c =? 34) || (c =? 91) || (c =? 123)
  || (c =? 110) || (c =? 116) || (c =? 102).

Definition text_ok (s : str) : bool := forallb scalar s.

Fixpoint distinct (ks : list str) : bool :=
  match ks with
  | [] => true
  | k :: rest => negb (existsb (str_eqb k) rest) && distinct rest
  end.

(** The text of a float: made of the characters of numbers, and read by
    the scanner as one float with nothing left. *)
Definition float_text (t : str) : bool :=
  forallb number_char t
  && match match_number t with
     | Some (JFloat t', []) => str_eqb t' t
     | _ => false
     end.

Fixpoint valid (v : json) : bool :=
  match v with
  | JNull | JBool _ | JInt _ => true
  | JFloat t => float_text t
  | JStr s => text_ok s
  | JList items => forallb valid items
  | JDict d =>
      distinct (map fst d)
      && forallb (fun kv => match kv with
                            | (k, x) => text_ok k && valid x
                            end) d
  end.

Definition is_number (v : json) : bool :=
  match v with
  | JInt _ | JFloat _ => true
  | _ => false
  end.

(** The limits of CPython's [json] within which [Decoder] and
    [Encoder] stand for the library.  [int(text)] and [str(n)] refuse
    integers of more than 4300 digits with a [ValueError], and the
    scanner and the encoder recurse once for each level of nesting
    until the interpreter raises [RecursionError]; neither is a
    [JSONDecodeError].  A value is within the limits when each of its
    integers is written with at most [max_str_digits] characters and
    its lists and dicts are nested at most [max_depth] deep, a depth
    far below the one the default recursion limit of 1000 allows. *)
Definition max_str_digits : nat := 4300%nat.

Definition max_depth : nat := 100%nat.

Fixpoint nested_within (v : json) (depth : nat) {struct v} : bool :=
  match v with
  | JInt z => Nat.leb (List.length (int_repr z)) max_str_digits
  | JList items =>
      match depth with
      | O => false
      | S depth' => forallb (fun x => nested_within x depth') items
      end
  | JDict d =>
      match depth with
      | O => false
      | S depth' =>
          forallb (fun kv => match kv with
                             | (_, x) => nested_within x depth'
                             end) d
      end
  | _ => true
  end.

Definition within_limits (v : json) : bool := nested_within v max_depth.

(** The scanner gives [a] and leaves [rest], unless the bound of the
    model is reached. *)
Definition yields (A : Type) (r : scanned A) (a : A) (rest : str) : Prop :=
  r = Scanned a rest \/ r = NoFuel.

(** The scanner does not give a value. *)
Definition fails (A : Type) (r : scanned A) : Prop :=
  r = Stop \/ r = NoFuel.

(** Nothing that could follow a value inside a list or a dict comes
    next. *)
Definition stuck (r : str) : Prop :=
  match skip_ws r with
  | [] => True
  | c :: _ => c <> 44 /\ c <> 93 /\ c <> 125
  end.

(** A scan of a text that was cut short: no value, or the value of a
    number with what is left stuck. *)
Definition cut_short (r : scanned json) : Prop :=
  match r with
  | Scanned _ rest => stuck rest
  | _ => True
  end.

(** What a value of the text is to a scanner: the scanner reads it back
    before any delimiter, and does not read a value from a text cut
    inside it. *)
Definition read_by (scan : str -> scanned json) (x : json) : Prop :=
  (exists c t, dumps x = c :: t /\ opening c = true)
  /\ (forall rest, delim rest = true -> yields (scan (dumps x ++ rest)) x rest)
  /\ (forall p q, dumps x = p ++ q -> q <> [] -> cut_short (scan p)).

(** The text of the items of a list, after the opening bracket. *)
Definition items_text (l : list json) : str := join [44; 32] (map dumps l).

(** The text of one entry of a dict, after the opening quote of its
    key. *)
Definition entry_text (k : str) (x : json) : str :=
  flat_map escape_char k ++ 34 :: 58 :: 32 :: dumps x.

(** The text of the entries of a dict, after the opening quote of the
    first key. *)
Fixpoint entries_text (d : list (str * json)) : str :=
  match d with
  | [] => []
  | (k, x) :: d' =>
      entry_text k x
      ++ match d' with
         | [] => []
         | _ :: _ => 44 :: 32 :: 34 :: entries_text d'
         end
  end.

(** The entries of a dict, to a scanner. *)
Definition entry_read_by (scan : str -> scanned json) (kv : str * json) : Prop :=
  text_ok (fst kv) = true /\ read_by scan (snd kv).

(** A text cut inside a value that is not a number gives no value. *)
Definition cut_fails (scan : str -> scanned json) (x : json) : Prop :=
  forall p q, dumps x = p ++ q -> q <> [] -> fails (scan p).

(** A scanner that always ends on texts shorter than [bound], leaving
    no more than it was given. *)
Definition ends_below (bound : nat) (scan : str -> scanned json) : Prop :=
  forall s, (List.length s < bound)%nat ->
    scan s <> NoFuel
    /\ forall v r, scan s = Scanned v r ->
                   (List.length r <= List.length s)%nat.

Definition ascii_text (s : str) : bool := forallb (fun c => c <? 128) s.
End CodecTerms.

(** The rounds of the handling thread in which the chunks arrive. *)
Definition receive (chunks : list bytes) : list MayaMCPServer.event :=
  map (fun data => MayaMCPServer.Recv (MayaMCPServer.recv_data data)) chunks.

(** The connection with other bytes in its buffer. *)
Definition buffering (scene : Type) (b : bytes)
           (c : MayaMCPServer.connection scene)
  : MayaMCPServer.connection scene :=
  {| MayaMCPServer.running := MayaMCPServer.running c;
     MayaMCPServer.buffer := b;
     MayaMCPServer.command := MayaMCPServer.command c;
     MayaMCPServer.client_open := MayaMCPServer.client_open c;
     MayaMCPServer.deferred := MayaMCPServer.deferred c;
     MayaMCPServer.sent := MayaMCPServer.sent c;
     MayaMCPServer.host := MayaMCPServer.host c |}.

(** The connection after it has parsed [cmd] and queued its wrapper. *)
Definition dispatching (scene : Type) (cmd : json)
           (c : MayaMCPServer.connection scene)
  : MayaMCPServer.connection scene :=
  {| MayaMCPServer.running := MayaMCPServer.running c;
     MayaMCPServer.buffer := [];
     MayaMCPServer.command := Some cmd;
     MayaMCPServer.client_open := MayaMCPServer.client_open c;
     MayaMCPServer.deferred := S (MayaMCPServer.deferred c);
     MayaMCPServer.sent := MayaMCPServer.sent c;
     MayaMCPServer.host := MayaMCPServer.host c |}.


(** Data handed over one byte at a time. *)
Definition byte_by_byte (data : bytes) : list bytes :=
  map (fun b => [b]) data.

(** A request for a cube with a float coordinate and a name outside
    ASCII. *)
Definition cafe_cube : json :=
  JDict [(lit "type", JStr (lit "caf" ++ [233%N]));
         (lit "location", JList [JInt 1; JFloat (lit "2.5"); JInt (-3)])].

(* ------------------------------------------------------------------ *)
(** ** Connections, the system and the two programs together *)

(** The connection has neither executed nor answered anything since
    [c], and what it holds in its buffer will never parse. *)
Definition wedged (scene : Type) (prefix : bytes)
           (c c' : MayaMCPServer.connection scene) : Prop :=
  MayaMCPServer.deferred c' = 0
  /\ MayaMCPServer.command c' = MayaMCPServer.command c
  /\ MayaMCPServer.sent c' = MayaMCPServer.sent c
  /\ MayaMCPServer.host c' = MayaMCPServer.host c
  /\ (MayaMCPServer.client_open c' = false
      \/ exists more, MayaMCPServer.buffer c' = prefix ++ more).

(** No socket that is open is one the system has yet to hand out. *)
Definition fresh (o : Lifecycle.os) : Prop :=
  forall fd,
    In fd (Lifecycle.open_sockets o) \/ In fd (Lifecycle.listening o) ->
    fd < Lifecycle.next_socket o.

(** What the server writes to a connection, just accepted on the
    document [sc], that receives [data] in one read and whose wrapper
    then runs. *)
Definition served (scene : Type) (cmds : MayaMCPServer.cmds_api scene)
           (round2 : str -> str) (sc : scene) (data : bytes) : list bytes :=
  MayaMCPServer.sent
    (MayaMCPServer.run cmds round2
       [MayaMCPServer.Recv (MayaMCPServer.recv_data data);
        MayaMCPServer.Idle true]
       (MayaMCPServer.accepted sc)).

(** The network on which the adapter has sent [data] and read the
    replies up to [rest]. *)
Definition after_exchange (data : bytes)
           (rest : list (result Adapter.exn bytes)) (n : Adapter.network)
  : Adapter.network :=
  {| Adapter.connects := Adapter.connects n;
     Adapter.sendalls := tl (Adapter.sendalls n);
     Adapter.recvs := rest;
     Adapter.wire := Adapter.wire n ++ [data];
     Adapter.opened := Adapter.opened n |}.

(** An adapter that has no connection yet, on a network that accepts
    one and delivers the given replies, each in one read. *)
Definition talking_to (replies : list bytes) : Adapter.world :=
  {| Adapter._maya_connection := None;
     Adapter.net := {| Adapter.connects := [true]; Adapter.sendalls := [];
                       Adapter.recvs := map Ok replies; Adapter.wire := [];
                       Adapter.opened := 0 |} |}.

(** The system before any socket was opened, in which nothing
    fails. *)
Definition quiet : Lifecycle.os :=
  {| Lifecycle.faults := []; Lifecycle.close_raises := [];
     Lifecycle.open_sockets := []; Lifecycle.listening := [];
     Lifecycle.threads_started := 0; Lifecycle.next_socket := 0 |}.

(** What [get_scene_info] reports of the document [Demo.one_cube]. *)
Definition one_cube_info : json :=
  JDict [(lit "name", JStr (lit "shot.ma"));
         (lit "object_count", JInt 1);
         (lit "objects",
          JList [JDict [(lit "name", JStr (lit "pCube1"));
                        (lit "type", JStr (lit "transform"));
                        (lit "location",
                         JList [JFloat (lit "1.0"); JFloat (lit "2.0");
                                JFloat (lit "3.0")])]]);
         (lit "materials_count", JInt 1)].

(** A host state with the document [sc] on which nothing has run. *)
Definition untouched (sc : Demo.scene) : MayaMCPServer.host_state Demo.scene :=
  {| MayaMCPServer.doc := sc; MayaMCPServer.runs := [] |}.

(** The scene [Demo.empty] after a cube named [CUBE] was added. *)
Definition with_CUBE : Demo.scene :=
  {| Demo.file := [];
     Demo.transforms :=
       [{| Demo.node_name := lit "CUBE"; Demo.node_type := lit "transform";
           Demo.node_position := [lit "0.0"; lit "0.0"; lit "0.0"] |}];
     Demo.materials := [lit "lambert1"] |}.

(** The reply to a message that has no [get]: the error reply with
    the message of the [AttributeError]. *)
Definition no_attribute_get (cmd : json) : json :=
  JDict [(lit "status", JStr (lit "error"));
         (lit "message",
          JStr (lit "'" ++ type_name cmd
                  ++ lit "' object has no attribute 'get'"))].

(* ================================================================== *)
(** * Facts about strings and dicts *)

Lemma str_eqb_refl (a : str) : str_eqb a a = true.
Proof.
  induction a as [|x a IH]; simpl; [reflexivity|].
  now rewrite N.eqb_refl, IH.
Qed.

Lemma str_eqb_eq (a b : str) : str_eqb a b = true <-> a = b.
Proof.
  split.
  - revert b; induction a as [|x a IH]; intros [|y b] H; simpl in H;
      try discriminate; [reflexivity|].
    apply andb_true_iff in H as [Hx Hab].
    apply N.eqb_eq in Hx. now rewrite Hx, (IH b Hab).
  - intros ->. apply str_eqb_refl.
Qed.

Lemma str_eqb_neq (a b : str) : str_eqb a b = false <-> a <> b.
Proof.
  rewrite <- str_eqb_eq. destruct (str_eqb a b); split; intro H;
    try reflexivity; try discriminate; try congruence; now elim H.
Qed.

Lemma str_eqb_sym (a b : str) : str_eqb a b = str_eqb b a.
Proof.
  destruct (str_eqb a b) eqn:E.
  - apply str_eqb_eq in E. subst. now rewrite str_eqb_refl.
  - symmetry. apply str_eqb_neq. apply str_eqb_neq in E. congruence.
Qed.

(* ================================================================== *)
(** * The dispatch of the server *)

Section Dispatch.
Import MayaMCPServer.
Variable scene : Type.
Variable cmds : cmds_api scene.
Variable round2 : str -> str.

(** The table holds two names and nothing else. *)
Lemma handlers_unregistered (name : str) :
  name <> lit "get_scene_info" -> name <> lit "create_object" ->
  dict_get handlers name = None.
Proof.
  intros H1 H2. unfold handlers. cbn [dict_get].
  rewrite str_eqb_sym. apply str_eqb_neq in H1. rewrite H1.
  rewrite str_eqb_sym. apply str_eqb_neq in H2. now rewrite H2.
Qed.

Lemma handlers_get_never_modify_object (cmd_type : json) :
  handlers_get cmd_type <> Ok (Some self_modify_object).
Proof.
  destruct cmd_type; cbn [handlers_get]; try discriminate.
  unfold handlers; cbn [dict_get].
  destruct (str_eqb _ s); [discriminate|].
  destruct (str_eqb _ s); discriminate.
Qed.

Lemma internal_unregistered (d : dict json) (name : str) (sc : scene) :
  dict_get d (lit "command") = Some (JStr name) ->
  name <> lit "get_scene_info" -> name <> lit "create_object" ->
  _execute_command_internal cmds round2 (JDict d) sc = (Ok JNull, sc).
Proof.
  intros Hc H1 H2.
  unfold _execute_command_internal, bind, pure, get, dict_get_or.
  rewrite Hc. cbn [handlers_get]. rewrite (handlers_unregistered H1 H2).
  reflexivity.
Qed.

Lemma execute_command_unregistered (th : thread) (d : dict json)
      (name : str) (h : host_state scene) :
  dict_get d (lit "command") = Some (JStr name) ->
  name <> lit "get_scene_info" -> name <> lit "create_object" ->
  execute_command cmds round2 th (JDict d) h
  = (Ok JNull,
     {| doc := doc h;
        runs := runs h ++
          [{| ran_on := if mutating (JStr name) then main_thread else th;
              via_executeInMainThreadWithResult := mutating (JStr name);
              ran_command := JDict d |}] |}).
Proof.
  intros Hc H1 H2.
  unfold execute_command, try_except, bind, pure, get, dict_get_or.
  rewrite Hc.
  unfold executeInMainThreadWithResult, run_internal.
  destruct (mutating (JStr name)); cbv beta;
    rewrite internal_unregistered with (name := name) by assumption;
    reflexivity.
Qed.

(** What [execute_command] adds to the record of runs. *)
Lemma execute_command_runs (th : thread) (cmd : json) (h : host_state scene) :
  runs (snd (execute_command cmds round2 th cmd h)) =
  match dict_get_or cmd (lit "command") JNull with
  | None => runs h
  | Some cmd_type =>
      runs h ++
        [{| ran_on := if mutating cmd_type then main_thread else th;
            via_executeInMainThreadWithResult := mutating cmd_type;
            ran_command := cmd |}]
  end.
Proof.
  unfold execute_command, try_except, bind, pure, get.
  destruct (dict_get_or cmd (lit "command") JNull) as [cmd_type|] eqn:Hc;
    [|reflexivity].
  assert (Hp : exists p, dict_get_or cmd (lit "params") (JDict []) = Some p).
  { destruct cmd; try discriminate. eexists; reflexivity. }
  destruct Hp as [p Hp]. rewrite Hp.
  unfold executeInMainThreadWithResult, run_internal.
  destruct (mutating cmd_type); cbv beta;
    destruct (_execute_command_internal cmds round2 cmd (doc h)) as [[r|e] sc];
    reflexivity.
Qed.

(** [execute_command] never raises: it returns what the internal
    dispatch returned, or an error reply. *)
Lemma execute_command_returns (th : thread) (cmd : json) (h : host_state scene) :
  exists r, fst (execute_command cmds round2 th cmd h) = Ok r
            /\ (r = JNull \/ is_Response r = true).
Proof.
  unfold execute_command, try_except, bind, pure, get.
  destruct (dict_get_or cmd (lit "command") JNull) as [cmd_type|] eqn:Hc.
  2:{ eexists; split; [reflexivity|right; vm_compute; reflexivity]. }
  assert (Hp : exists p, dict_get_or cmd (lit "params") (JDict []) = Some p).
  { destruct cmd; try discriminate. eexists; reflexivity. }
  destruct Hp as [p Hp]. rewrite Hp.
  assert (Hi : forall sc,
    match _execute_command_internal cmds round2 cmd sc with
    | (Ok r, _) => r = JNull \/ is_Response r = true
    | (Raise _, _) => True
    end).
  { intro sc. unfold _execute_command_internal, bind, pure, get.
    rewrite Hc, Hp.
    destruct (handlers_get cmd_type) as [[hd|]|e]; cbv beta iota;
      [|left; reflexivity|exact I].
    destruct (call cmds round2 hd p sc) as [[r|e] sc']; [|exact I].
    right; reflexivity. }
  unfold executeInMainThreadWithResult, run_internal.
  destruct (mutating cmd_type); cbv beta; specialize (Hi (doc h));
    destruct (_execute_command_internal cmds round2 cmd (doc h)) as [[r|e] sc];
    eexists; (split; [reflexivity|]); auto; right; reflexivity.
Qed.

(** C9: a command whose name is neither [get_scene_info] nor
    [create_object] -- [about], [modify_object] and [delete_object]
    among them -- finds no handler: [_execute_command_internal] returns
    [None] and leaves the document as it is, [execute_command] hands
    that [None] on, and the wrapper writes the JSON text [null] to the
    client, which is not a reply with a status.  No command name makes
    the dispatch table give the [modify_object] method. *)
Theorem unregistered_command_is_answered_null
        (d : dict json) (name : str) (th : thread) (c : connection scene) :
  dict_get d (lit "command") = Some (JStr name) ->
  str_eqb name (lit "get_scene_info") = false ->
  str_eqb name (lit "create_object") = false ->
  command c = Some (JDict d) ->
  client_open c = true ->
  (forall sc, _execute_command_internal cmds round2 (JDict d) sc
              = (Ok JNull, sc))
  /\ fst (execute_command cmds round2 th (JDict d) (host c)) = Ok JNull
  /\ doc (snd (execute_command cmds round2 th (JDict d) (host c)))
      = doc (host c)
  /\ sent (execute_wrapper cmds round2 th true c) = sent c ++ [null_bytes]
  /\ is_Response JNull = false
  /\ (forall cmd_type, handlers_get cmd_type <> Ok (Some self_modify_object)).
Proof.
  intros Hc H1 H2 Hcmd Hopen.
  apply str_eqb_neq in H1. apply str_eqb_neq in H2.
  pose proof (execute_command_unregistered th d (host c) Hc H1 H2) as He.
  repeat split.
  - intro sc. now apply internal_unregistered with (name := name).
  - now rewrite He.
  - now rewrite He.
  - unfold execute_wrapper. rewrite Hcmd, He.
    unfold sendall_or_pass. cbn [sent]. rewrite Hopen. reflexivity.
  - apply handlers_get_never_modify_object.
Qed.

(** C2, at the command the adapter sends as its probe: the server
    receives [{"command": "about", "params": {}}] whole, the main
    thread runs the deferred wrapper, and the one message written back
    is the text [null], which parses to [None] and is not a reply
    with a status. *)
Theorem about_command_is_answered_null (sc : scene) :
  exists data,
    dumps_bytes (Command (lit "about") (JDict [])) = Some data
    /\ sent (run cmds round2 [Recv (recv_data data); Idle true]
                (accepted sc)) = [null_bytes]
    /\ loads_bytes null_bytes = Ok JNull
    /\ is_Response JNull = false.
Proof.
  eexists. split; [vm_compute; reflexivity|].
  split; [|split]; vm_compute; reflexivity.
Qed.
End Dispatch.

(* ================================================================== *)
(** * Where and when the server executes a command *)

Section Scheduling.
Import MayaMCPServer.
Variable scene : Type.
Variable cmds : cmds_api scene.
Variable round2 : str -> str.





End Scheduling.


(* ================================================================== *)
(** * The adapter: what a tool sends *)

Lemma modify_object_params_keys (name : str) (location rotation scale visible : json) :
  dict_keys (Adapter.modify_object_params name location rotation scale visible)
  = lit "name"
    :: (if is_not_None location then [lit "location"] else [])
    ++ (if is_not_None rotation then [lit "rotation"] else [])
    ++ (if is_not_None scale then [lit "scale"] else [])
    ++ (if is_not_None visible then [lit "visible"] else []).
Proof.
  unfold Adapter.modify_object_params.
  destruct (is_not_None location), (is_not_None rotation),
    (is_not_None scale), (is_not_None visible); reflexivity.
Qed.

(** C5, at a call that sets the visibility: the adapter puts the flag
    under the key [visible]; the dict it sends has no key [visibility],
    the key the handler of the server reads, which therefore takes its
    default. *)
Theorem modify_object_sends_visible_not_visibility :
  Adapter.modify_object_params (lit "pCube1") JNull JNull JNull (JBool false)
  = [(lit "name", JStr (lit "pCube1")); (lit "visible", JBool false)]
  /\ dict_has (Adapter.modify_object_params (lit "pCube1") JNull JNull JNull
                 (JBool false)) (lit "visibility") = false
  /\ dict_get_or (JDict (Adapter.modify_object_params (lit "pCube1") JNull
                           JNull JNull (JBool false)))
        (lit "visibility") (JBool true) = Some (JBool true)
  /\ Adapter.wire (Adapter.net (snd
        (Adapter.modify_object (lit "pCube1") JNull JNull JNull (JBool false)
           {| Adapter._maya_connection := None;
              Adapter.net :=
                {| Adapter.connects := [true]; Adapter.sendalls := [];
                   Adapter.recvs := []; Adapter.wire := [];
                   Adapter.opened := 0 |} |})))
      = [wire_bytes (Command (lit "modify_object")
                       (JDict [(lit "name", JStr (lit "pCube1"));
                               (lit "visible", JBool false)]))].
Proof.
  repeat split; vm_compute; reflexivity.
Qed.

(* ================================================================== *)
(** * The adapter: the connection accessor *)

(** With a live connection whose probe is answered by a dict, the
    accessor returns what the dict holds under [enabled], or [False]. *)
Lemma get_maya_connection_probe_answered
      (w : Adapter.world) (c c' : Adapter.MayaConnection)
      (d : dict json) (n' : Adapter.network) :
  Adapter._maya_connection w = Some c ->
  Adapter.send_command c (lit "about") JNull (Adapter.net w)
    = (Ok (JDict d), c', n') ->
  Adapter.get_maya_connection w
  = (Ok (Adapter.value (get_or d (lit "enabled") (JBool false))),
     {| Adapter._maya_connection := Some c'; Adapter.net := n' |}).
Proof.
  intros Hc Hs. unfold Adapter.get_maya_connection. rewrite Hc, Hs.
  reflexivity.
Qed.

(** Without a connection the accessor makes one, and returns it when
    the server accepts. *)
Lemma get_maya_connection_creates (n : Adapter.network) (rest : list bool) :
  Adapter.connects n = true :: rest ->
  exists c n',
    Adapter.get_maya_connection
      {| Adapter._maya_connection := None; Adapter.net := n |}
    = (Ok Adapter.the_connection,
       {| Adapter._maya_connection := Some c; Adapter.net := n' |})
    /\ Adapter.sock c = Some (Adapter.opened n).
Proof.
  intro H. unfold Adapter.get_maya_connection, Adapter.new_connection,
    Adapter.connect. cbn. rewrite H. eexists; eexists; split; reflexivity.
Qed.

(** Without a connection and with the server refusing, the accessor
    fails and leaves the global empty. *)
Lemma get_maya_connection_unreachable (n : Adapter.network) :
  hd false (Adapter.connects n) = false ->
  exists n',
    Adapter.get_maya_connection
      {| Adapter._maya_connection := None; Adapter.net := n |}
    = (Raise (Adapter.Exception (JStr (lit "Failed to connect to Maya"))),
       {| Adapter._maya_connection := None; Adapter.net := n' |}).
Proof.
  intro H. unfold Adapter.get_maya_connection, Adapter.new_connection,
    Adapter.connect. cbn.
  destruct (Adapter.connects n) as [|[|] rest]; try discriminate;
    eexists; reflexivity.
Qed.

(** C1, at a live connection whose probe succeeds: the reply
    [{"status": "success", "result": {"enabled": true}}] arrives, and the
    accessor returns [True], not the connection; the tool that then
    calls [send_command] on what it got fails. *)
Theorem get_maya_connection_returns_the_probe_flag :
  let w := {| Adapter._maya_connection := Some connected;
              Adapter.net := delivering [Ok (wire_bytes about_reply)] |} in
  fst (Adapter.get_maya_connection w) = Ok (Adapter.value (JBool true))
  /\ fst (Adapter.get_maya_connection w) <> Ok Adapter.the_connection
  /\ fst (Adapter.get_scene_info w) = Raise Adapter.AttributeError.
Proof.
  vm_compute. repeat split; discriminate.
Qed.

(* ================================================================== *)
(** * The adapter: send_command *)

Lemma send_command_failure_invalidates
      (self self' : Adapter.MayaConnection) (command_type : str)
      (params : json) (n n' : Adapter.network) (e : Adapter.exn) :
  Adapter.send_command self command_type params n = (Raise e, self', n') ->
  Adapter.sock self' = None.
Proof.
  unfold Adapter.send_command.
  destruct (Adapter.sock self) eqn:Hs.
  - destruct (Adapter.exchange _ n) as [[v|e'] n1]; intro H; inversion H.
    reflexivity.
  - intro H; inversion H; subst. exact Hs.
Qed.

(** C6, as the code has it: when the command was written and a full
    response came back, a response that is a dict with [status] equal
    to ["error"] makes the call fail with the [message] of the response
    (a fixed text when there is none), any other dict makes it return
    the [result] of the response (the empty dict when there is none),
    and a response that is not a dict makes it fail as well; and a call
    that fails, at whatever step, leaves the connection with no
    socket. *)
Theorem send_command_reads_the_response
        (self : Adapter.MayaConnection) (k : nat) (command_type : str)
        (params : json) (n n1 n2 : Adapter.network)
        (data response_data : bytes) (response : json) :
  Adapter.sock self = Some k ->
  dumps_bytes (Command command_type
                 (if truthy params then params else JDict [])) = Some data ->
  Adapter.sendall data n = (Ok tt, n1) ->
  Adapter.receive_full_response n1 = (Ok response_data, n2) ->
  loads_bytes response_data = Ok response ->
  Adapter.send_command self command_type params n
  = match response with
    | JDict d =>
        if eq_str (get_or d (lit "status") JNull) (lit "error")
        then (Raise (Adapter.Exception
                       (get_or d (lit "message")
                          (JStr (lit "Unknown error from Maya")))),
              Adapter.set_sock None self, n2)
        else (Ok (get_or d (lit "result") (JDict [])), self, n2)
    | _ => (Raise Adapter.AttributeError, Adapter.set_sock None self, n2)
    end
  /\ (forall self0 self' ct p n0 n' e,
        Adapter.send_command self0 ct p n0 = (Raise e, self', n') ->
        Adapter.sock self' = None).
Proof.
  intros Hsock Hdumps Hsend Hrecv Hloads. split.
  - unfold Adapter.send_command. rewrite Hsock.
    unfold Adapter.exchange. rewrite Hdumps.
    unfold bind at 1. rewrite Hsend.
    unfold bind at 1. rewrite Hrecv, Hloads.
    destruct response; try reflexivity.
    unfold Adapter.get, dict_get_or, bind, ret, raise, get_or.
    destruct (eq_str _ (lit "error")); reflexivity.
  - intros. eapply send_command_failure_invalidates; eassumption.
Qed.

(** C6 as it is stated fails on the reply [null]: its status is not
    ["error"], and the call does not return the empty dict, it fails;
    the connection is invalidated. *)
Lemma send_command_fails_on_a_null_reply :
  let r := Adapter.send_command connected (lit "about") JNull
             (delivering [Ok null_bytes]) in
  loads_bytes null_bytes = Ok JNull
  /\ fst (fst r) = Raise Adapter.AttributeError
  /\ fst (fst r) <> Ok (JDict [])
  /\ Adapter.sock (snd (fst r)) = None.
Proof.
  vm_compute. repeat split; discriminate.
Qed.

(* ================================================================== *)
(** * The adapter: receive_full_response *)

Lemma join_bytes_app (a b : list bytes) :
  join_bytes (a ++ b) = join_bytes a ++ join_bytes b.
Proof. apply concat_app. Qed.

Lemma join_bytes_snoc (a : list bytes) (c : bytes) :
  join_bytes (a ++ [c]) = join_bytes a ++ c.
Proof.
  rewrite join_bytes_app. unfold join_bytes at 2. cbn [concat].
  now rewrite app_nil_r.
Qed.

(** Chunks that leave the receiver waiting are read and appended, and
    the loop goes on with what comes next. *)
Lemma receive_loop_waiting (cs chunks : list bytes)
      (script : list (result Adapter.exn bytes)) :
  waiting (join_bytes chunks) cs = true ->
  Adapter.receive_loop chunks (map Ok cs ++ script)
  = Adapter.receive_loop (chunks ++ cs) script.
Proof.
  revert chunks. induction cs as [|c cs IH]; intros chunks H.
  - now rewrite app_nil_r.
  - cbn [waiting] in H.
    apply andb_true_iff in H as [H Hw]. apply andb_true_iff in H as [Hc Hl].
    destruct c as [|b c]; [discriminate|].
    cbn [map app Adapter.receive_loop].
    rewrite join_bytes_snoc.
    destruct (loads_bytes (join_bytes chunks ++ b :: c)) as [v|[|]];
      try discriminate.
    rewrite IH by (now rewrite join_bytes_snoc).
    now rewrite <- app_assoc.
Qed.

Lemma waiting_last_fails (cs : list bytes) (acc : bytes) :
  waiting acc cs = true -> cs <> [] ->
  loads_bytes (acc ++ join_bytes cs) = Raise JSONDecodeError.
Proof.
  revert acc. induction cs as [|c cs IH]; intros acc H Hne; [congruence|].
  cbn [waiting] in H.
  apply andb_true_iff in H as [H Hw]. apply andb_true_iff in H as [Hc Hl].
  unfold join_bytes. cbn [concat]. rewrite app_assoc.
  destruct cs as [|c' cs].
  - cbn [concat]. rewrite app_nil_r.
    destruct (loads_bytes (acc ++ c)) as [v|[|]]; try discriminate.
    reflexivity.
  - apply IH; [exact Hw|discriminate].
Qed.

(** C7, as the code has it, for the runs in which every attempt to
    decode and parse the accumulated bytes either succeeds or raises
    [JSONDecodeError].  Let the chunks [cs] have been read with no
    parse succeeding yet.  Then: a further chunk with which the
    accumulated bytes parse is answered by returning these bytes at
    once; an empty read when nothing was accumulated fails with
    "connection closed before data"; an empty read or a timeout when
    something was accumulated ends the loop, and since the accumulated
    bytes do not parse the call fails with "incomplete response"; a
    timeout when nothing was accumulated fails with "no data
    received". *)
Theorem receive_full_response_cases
        (cs : list bytes) (rest : list (result Adapter.exn bytes))
        (n : Adapter.network) :
  waiting [] cs = true ->
  (forall c v, nonempty c = true ->
     loads_bytes (join_bytes cs ++ c) = Ok v ->
     Adapter.recvs n = map Ok cs ++ Ok c :: rest ->
     Adapter.receive_full_response n
     = (Ok (join_bytes cs ++ c), recvs_left rest n))
  /\ (cs = [] -> Adapter.recvs n = Ok [] :: rest ->
      Adapter.receive_full_response n
      = (Raise closed_before_data, recvs_left rest n))
  /\ (forall ev, cs <> [] -> ev = Ok [] \/ ev = Raise Adapter.socket_timeout ->
      Adapter.recvs n = map Ok cs ++ ev :: rest ->
      loads_bytes (join_bytes cs) = Raise JSONDecodeError
      /\ Adapter.receive_full_response n
         = (Raise incomplete_response, recvs_left rest n))
  /\ (cs = [] -> Adapter.recvs n = Raise Adapter.socket_timeout :: rest ->
      Adapter.receive_full_response n
      = (Raise no_data_received, recvs_left rest n)).
Proof.
  intro Hw.
  assert (Hloop : forall script,
            Adapter.receive_loop [] (map Ok cs ++ script)
            = Adapter.receive_loop cs script).
  { intro script. now rewrite receive_loop_waiting. }
  assert (Hthird : forall ev, cs <> [] ->
            ev = Ok [] \/ ev = Raise Adapter.socket_timeout ->
            Adapter.recvs n = map Ok cs ++ ev :: rest ->
            loads_bytes (join_bytes cs) = Raise JSONDecodeError
            /\ Adapter.receive_full_response n
               = (Raise incomplete_response, recvs_left rest n)).
  { intros ev Hne Hev Hr.
    pose proof (@waiting_last_fails cs [] Hw Hne) as Hf. cbn [app] in Hf.
    split; [exact Hf|].
    unfold Adapter.receive_full_response. rewrite Hr, Hloop.
    destruct Hev as [-> | ->]; cbn [Adapter.receive_loop];
      destruct cs as [|c0 cs0]; try congruence; rewrite Hf; reflexivity. }
  split; [|split; [|split]].
  - intros c v Hc Hv Hr. unfold Adapter.receive_full_response.
    rewrite Hr, Hloop. destruct c as [|b c]; [discriminate|].
    cbn [Adapter.receive_loop]. rewrite join_bytes_snoc, Hv. reflexivity.
  - intros -> Hr. unfold Adapter.receive_full_response. rewrite Hr.
    reflexivity.
  - exact Hthird.
  - intros -> Hr. unfold Adapter.receive_full_response. rewrite Hr.
    reflexivity.
Qed.

(** C7 as it is stated fails on a timeout before any byte has
    arrived: the loop ends with nothing accumulated, and the call does
    not fail with "incomplete response" but with "no data received",
    the [else] branch of the code. *)
Lemma receive_full_response_other_failures :
  fst (Adapter.receive_full_response
         (delivering [Raise Adapter.socket_timeout]))
  = Raise no_data_received
  /\ fst (Adapter.receive_full_response
            (delivering [Raise Adapter.socket_timeout]))
     <> Raise incomplete_response
  /\ no_data_received <> incomplete_response.
Proof.
  vm_compute. repeat split; discriminate.
Qed.

(** A full response is one that parses. *)
Lemma receive_full_response_parses (n n' : Adapter.network) (data : bytes) :
  Adapter.receive_full_response n = (Ok data, n') ->
  exists v, loads_bytes data = Ok v.
Proof.
  unfold Adapter.receive_full_response.
  assert (H : forall script chunks,
    match Adapter.receive_loop chunks script with
    | (Adapter.Returned d, _) => exists v, loads_bytes d = Ok v
    | _ => True
    end).
  { induction script as [|ev script IH]; intro chunks;
      cbn [Adapter.receive_loop]; [exact I|].
    destruct ev as [[|b c]|e].
    - destruct chunks; exact I.
    - cbv zeta.
      match goal with
      | |- context [loads_bytes ?x] =>
          destruct (loads_bytes x) as [v|[|]] eqn:E
      end; cbv beta iota.
      + eexists; exact E.
      + apply IH.
      + exact I.
    - destruct e; exact I. }
  specialize (H (Adapter.recvs n) []).
  destruct (Adapter.receive_loop [] (Adapter.recvs n)) as [[d|chunks|e] rest].
  - intro E; inversion E; subst. exact H.
  - destruct chunks as [|c chunks]; [discriminate|].
    destruct (loads_bytes (join_bytes (c :: chunks))) as [v|[|]] eqn:E;
      intro E'; inversion E'; subst. eexists; exact E.
  - discriminate.
Qed.

(* ================================================================== *)
(** * The handlers of the server *)

Section Handlers.
Import MayaMCPServer.
Variable scene : Type.
Variable cmds : cmds_api scene.
Variable round2 : str -> str.

Lemma obj_info_answered (sc : scene) (obj : str) :
  answers cmds sc obj = true ->
  exists info, obj_info cmds round2 obj sc = (Ok info, sc)
               /\ is_obj_info info = true.
Proof.
  unfold answers, obj_info, bind, query, pure, item, ret.
  destruct (xform_q cmds xf_t (JStr obj) sc) as [[|x [|y [|z more]]]|e];
    try discriminate.
  destruct (nodeType cmds obj sc) as [ty|e]; [|discriminate].
  intros _. cbn [nth_error]. eexists; split; reflexivity.
Qed.

Lemma collect_objects_answered (sc : scene) (objs : list str) :
  forall (i : nat) (acc : list json),
    forallb (answers cmds sc) (firstn (10 - i) objs) = true ->
    exists infos,
      collect_objects cmds round2 i objs acc sc = (Ok (acc ++ infos), sc)
      /\ List.length infos = Nat.min (List.length objs) (10 - i)
      /\ forallb is_obj_info infos = true.
Proof.
  induction objs as [|obj rest IH]; intros i acc H.
  - exists []. cbn [collect_objects List.length]. rewrite app_nil_r.
    repeat split; reflexivity.
  - cbn [collect_objects]. destruct (10 <=? i) eqn:Hi.
    + apply Nat.leb_le in Hi. exists []. rewrite app_nil_r.
      replace (10 - i) with 0 by lia. rewrite Nat.min_0_r.
      repeat split; reflexivity.
    + apply Nat.leb_gt in Hi.
      replace (10 - i) with (S (10 - S i)) in * by lia.
      cbn [firstn forallb] in H. apply andb_true_iff in H as [Ha Hrest].
      destruct (obj_info_answered sc obj Ha) as [info [Hinfo Hform]].
      destruct (IH (S i) (acc ++ [info]) Hrest) as [infos [Hrun [Hlen Hall]]].
      exists (info :: infos). unfold bind at 1. rewrite Hinfo, Hrun.
      rewrite <- app_assoc. cbn [app List.length forallb].
      rewrite Hform, Hall, Hlen. repeat split; reflexivity.
Qed.

(** C8: on a scene whose queries the host answers, [get_scene_info]
    returns a dict with [name], [object_count], [objects] and
    [materials_count]; [object_count] is the number of transforms,
    [objects] has [min(object_count, 10)] entries, each with exactly
    the keys [name], [type] and [location]; with no transform,
    [object_count] is 0 and [objects] is empty. *)
Theorem get_scene_info_reports_the_scene
        (params : json) (sc : scene) (sn : str) (objs mats : list str) :
  file_sn cmds sc = Ok sn ->
  ls_transforms cmds sc = Ok objs ->
  ls_materials cmds sc = Ok mats ->
  forallb (answers cmds sc) (firstn 10 objs) = true ->
  exists objects,
    get_scene_info cmds round2 params sc
    = (Ok (JDict
             [(lit "name",
               JStr (match sn with [] => lit "untitled" | _ => sn end));
              (lit "object_count", JInt (Z.of_nat (List.length objs)));
              (lit "objects", JList objects);
              (lit "materials_count", JInt (Z.of_nat (List.length mats)))]),
       sc)
    /\ List.length objects = Nat.min (List.length objs) 10
    /\ forallb is_obj_info objects = true
    /\ (objs = [] -> objects = []).
Proof.
  intros Hf Ht Hm Ha.
  destruct (collect_objects_answered sc objs 0 [] Ha)
    as [objects [Hrun [Hlen Hall]]].
  cbn [app] in Hrun. exists objects. repeat split; trivial.
  - unfold get_scene_info, try_except, bind, query.
    rewrite Hf, Ht, Hm, Hrun. reflexivity.
  - intros ->. destruct objects; [reflexivity|discriminate].
Qed.

(** C10: [create_object] makes the cube under the name it finds in
    [params] under [type] (["pCube1"] when absent) and, when the host
    has made and placed it, returns that name and the [location] of
    [params] (the origin when absent), whatever name the host gave
    the cube; nothing it does depends on what [params] holds under
    [name]. *)
Theorem create_object_echoes_the_request
        (d : dict json) (sc sc1 sc2 sc3 sc4 : scene)
        (cube : str) (others : list str) :
  polyCube cmds (get_or d (lit "type") (JStr (lit "pCube1"))) sc
    = (Ok (cube :: others), sc1) ->
  xform cmds xf_t (JStr cube)
    (get_or d (lit "location") (JList [JInt 0; JInt 0; JInt 0])) sc1
    = (Ok tt, sc2) ->
  xform cmds xf_ro (JStr cube)
    (get_or d (lit "rotation") (JList [JInt 0; JInt 0; JInt 0])) sc2
    = (Ok tt, sc3) ->
  xform cmds xf_s (JStr cube)
    (get_or d (lit "scale") (JList [JInt 1; JInt 1; JInt 1])) sc3
    = (Ok tt, sc4) ->
  create_object cmds (JDict d) sc
  = (Ok (JDict
           [(lit "name", get_or d (lit "type") (JStr (lit "pCube1")));
            (lit "location",
             get_or d (lit "location") (JList [JInt 0; JInt 0; JInt 0]))]),
     sc4)
  /\ (forall (d' : dict json) (sc0 : scene),
        (forall k, k <> lit "name" -> dict_get d' k = dict_get d k) ->
        create_object cmds (JDict d') sc0 = create_object cmds (JDict d) sc0).
Proof.
  intros Hp Ht Hro Hs. split.
  - unfold create_object, get, dict_get_or, pure, item.
    unfold bind at 1 2 3 4 5. fold (get_or d (lit "type") (JStr (lit "pCube1"))).
    fold (get_or d (lit "location") (JList [JInt 0; JInt 0; JInt 0])).
    fold (get_or d (lit "rotation") (JList [JInt 0; JInt 0; JInt 0])).
    fold (get_or d (lit "scale") (JList [JInt 1; JInt 1; JInt 1])).
    rewrite Hp. cbn [nth_error]. unfold bind. rewrite Ht, Hro, Hs.
    reflexivity.
  - intros d' sc0 Hsame.
    unfold create_object, get, dict_get_or.
    rewrite !Hsame by (vm_compute; discriminate). reflexivity.
Qed.
End Handlers.

(* ================================================================== *)
(** * The statements above, at concrete inputs *)

Lemma unregistered_command_is_answered_null_witness :
  MayaMCPServer.sent
    (MayaMCPServer.execute_wrapper Demo.cmds Demo.round2
       MayaMCPServer.main_thread true about_to_run)
  = MayaMCPServer.sent about_to_run ++ [null_bytes].
Proof.
  apply (@unregistered_command_is_answered_null Demo.scene Demo.cmds
           Demo.round2 modify_command (lit "modify_object")
           MayaMCPServer.main_thread about_to_run);
    reflexivity.
Defined.

Lemma send_command_reads_the_response_witness :
  Adapter.send_command connected (lit "about") JNull
    (delivering [Ok (wire_bytes about_reply)])
  = (Ok (JDict [(lit "enabled", JBool true)]), connected,
     {| Adapter.connects := []; Adapter.sendalls := []; Adapter.recvs := [];
        Adapter.wire := [wire_bytes (Command (lit "about") (JDict []))];
        Adapter.opened := 1 |}).
Proof.
  apply (proj1 (@send_command_reads_the_response connected 0 (lit "about")
                  JNull (delivering [Ok (wire_bytes about_reply)])
                  {| Adapter.connects := []; Adapter.sendalls := [];
                     Adapter.recvs := [Ok (wire_bytes about_reply)];
                     Adapter.wire :=
                       [wire_bytes (Command (lit "about") (JDict []))];
                     Adapter.opened := 1 |}
                  {| Adapter.connects := []; Adapter.sendalls := [];
                     Adapter.recvs := [];
                     Adapter.wire :=
                       [wire_bytes (Command (lit "about") (JDict []))];
                     Adapter.opened := 1 |}
                  (wire_bytes (Command (lit "about") (JDict [])))
                  (wire_bytes about_reply) about_reply
                  eq_refl eq_refl eq_refl eq_refl eq_refl)).
Defined.

Lemma receive_full_response_cases_witness :
  Adapter.receive_full_response (delivering [Ok [x7b]; Ok [x7d]])
  = (Ok [x7b; x7d], recvs_left [] (delivering [Ok [x7b]; Ok [x7d]])).
Proof.
  apply (proj1 (@receive_full_response_cases [[x7b]] []
                  (delivering [Ok [x7b]; Ok [x7d]]) eq_refl)
           [x7d] (JDict []) eq_refl eq_refl eq_refl).
Defined.

Lemma get_scene_info_reports_the_scene_witness :
  exists objects,
    MayaMCPServer.get_scene_info Demo.cmds Demo.round2 JNull Demo.one_cube
    = (Ok (JDict
             [(lit "name", JStr (lit "shot.ma"));
              (lit "object_count", JInt 1);
              (lit "objects", JList objects);
              (lit "materials_count", JInt 1)]),
       Demo.one_cube)
    /\ List.length objects = 1
    /\ forallb is_obj_info objects = true
    /\ (([lit "pCube1"] : list str) = [] -> objects = []).
Proof.
  apply (@get_scene_info_reports_the_scene Demo.scene Demo.cmds Demo.round2
           JNull Demo.one_cube (lit "shot.ma") [lit "pCube1"] [lit "lambert1"]
           eq_refl eq_refl eq_refl eq_refl).
Defined.

Lemma create_object_echoes_the_request_witness :
  MayaMCPServer.create_object Demo.cmds (JDict named_cube) Demo.empty
  = (Ok (JDict [(lit "name", JStr (lit "pCube1"));
                (lit "location", JList [JInt 1; JInt 2; JInt 3])]),
     with_pCube1).
Proof.
  apply (proj1 (@create_object_echoes_the_request Demo.scene Demo.cmds
                  named_cube Demo.empty with_pCube1 with_pCube1 with_pCube1
                  with_pCube1 (lit "pCube1") [lit "polyCube1"]
                  eq_refl eq_refl eq_refl eq_refl)).
Defined.


(* ================================================================== *)
(** * json.loads reads back what json.dumps wrote, and nothing less *)

Section CodecFacts.
Import Encoder Decoder.
Local Open Scope N_scope.

Lemma lor_shiftl_add (x y k : N) :
  y < 2 ^ k -> N.lor (N.shiftl x k) y = x * 2 ^ k + y.
Proof.
  intro Hy. rewrite N.shiftl_mul_pow2.
  assert (Hl : N.land (x * 2 ^ k) y = 0).
  { apply N.bits_inj. intro i. rewrite N.land_spec, N.bits_0.
    destruct (N.lt_ge_cases i k) as [Hi|Hi].
    - now rewrite N.mul_pow2_bits_low.
    - destruct (N.eq_dec y 0) as [->|Hy0].
      + now rewrite N.bits_0, andb_false_r.
      + rewrite (N.bits_above_log2 y i), andb_false_r; [reflexivity|].
        apply N.log2_lt_pow2 in Hy; lia. }
  rewrite (N.add_nocarry_lxor _ _ Hl). symmetry. now apply N.lxor_lor.
Qed.

Lemma hex_val_digit (d : N) : d < 16 -> hex_val (hex_digit d) = Some d.
Proof.
  intro H.
  assert (E : d = 0 \/ d = 1 \/ d = 2 \/ d = 3 \/ d = 4 \/ d = 5 \/ d = 6
              \/ d = 7 \/ d = 8 \/ d = 9 \/ d = 10 \/ d = 11 \/ d = 12
              \/ d = 13 \/ d = 14 \/ d = 15) by lia.
  repeat (destruct E as [->|E]; [reflexivity|]). now subst.
Qed.

Lemma decode_hex4_digits (a b c d : N) :
  a < 16 -> b < 16 -> c < 16 -> d < 16 ->
  decode_hex4 (hex_digit a) (hex_digit b) (hex_digit c) (hex_digit d)
  = Some (4096 * a + 256 * b + 16 * c + d).
Proof.
  intros Ha Hb Hc Hd. unfold decode_hex4.
  rewrite !hex_val_digit by assumption.
  rewrite (@lor_shiftl_add a b 4) by exact Hb.
  rewrite (@lor_shiftl_add _ c 4) by exact Hc.
  rewrite (@lor_shiftl_add _ d 4) by exact Hd.
  f_equal. change (2 ^ 4) with 16. lia.
Qed.

(** The four digits [hex4] writes are read back as the number. *)
Lemma decode_hex4_hex4 (n : N) :
  n < 65536 ->
  decode_hex4 (hex_digit ((n / 4096) mod 16)) (hex_digit ((n / 256) mod 16))
              (hex_digit ((n / 16) mod 16)) (hex_digit (n mod 16))
  = Some n.
Proof.
  intro H. rewrite decode_hex4_digits by (apply N.mod_lt; discriminate).
  f_equal.
  replace (n / 256) with (n / 16 / 16)
    by (rewrite N.Div0.div_div; reflexivity).
  replace (n / 4096) with (n / 16 / 16 / 16)
    by (rewrite !N.Div0.div_div; reflexivity).
  pose proof (N.div_mod n 16) as E1.
  pose proof (N.div_mod (n / 16) 16) as E2.
  pose proof (N.div_mod (n / 16 / 16) 16) as E3.
  pose proof (N.mod_lt n 16) as L1.
  pose proof (N.mod_lt (n / 16) 16) as L2.
  pose proof (N.mod_lt (n / 16 / 16) 16) as L3.
  assert (L4 : n / 16 / 16 / 16 < 16).
  { rewrite !N.Div0.div_div. apply N.Div0.div_lt_upper_bound. exact H. }
  rewrite (N.mod_small _ _ L4).
  generalize dependent (n mod 16). generalize dependent ((n / 16) mod 16).
  generalize dependent ((n / 16 / 16) mod 16).
  generalize dependent (n / 16 / 16 / 16).
  generalize dependent (n / 16 / 16). generalize dependent (n / 16).
  intros. lia.
Qed.

Ltac scan_step :=
  cbn -[decode_hex4 is_high_surrogate is_low_surrogate join_surrogates
        hex_digit N.div N.modulo N.ltb N.leb].

Lemma scanstring_plain (c : N) (X : str) :
  c <> 34 -> c <> 92 -> 32 <= c ->
  scanstring (c :: X) = consc c (scanstring X).
Proof.
  intros H1 H2 H3. cbn [scanstring].
  apply N.eqb_neq in H1, H2. rewrite H1, H2.
  apply N.ltb_ge in H3. now rewrite H3.
Qed.

Lemma scanstring_u_plain (h1 h2 h3 h4 uni : N) (X : str) :
  decode_hex4 h1 h2 h3 h4 = Some uni ->
  is_high_surrogate uni = false ->
  scanstring (92 :: 117 :: h1 :: h2 :: h3 :: h4 :: X) = consc uni (scanstring X).
Proof.
  intros H1 H2. scan_step. rewrite H1, H2. reflexivity.
Qed.

Lemma scanstring_u_pair (h1 h2 h3 h4 g1 g2 g3 g4 hi lo : N) (X : str) :
  decode_hex4 h1 h2 h3 h4 = Some hi ->
  is_high_surrogate hi = true ->
  decode_hex4 g1 g2 g3 g4 = Some lo ->
  is_low_surrogate lo = true ->
  scanstring (92 :: 117 :: h1 :: h2 :: h3 :: h4
              :: 92 :: 117 :: g1 :: g2 :: g3 :: g4 :: X)
  = consc (join_surrogates hi lo) (scanstring X).
Proof.
  intros H1 H2 H3 H4. scan_step. rewrite H1, H2. scan_step.
  rewrite H3, H4. reflexivity.
Qed.

(** The two surrogates [escape_char] writes for a character outside the
    basic plane, in arithmetic. *)
Lemma surrogates_of (c : N) :
  0x10000 <= c -> c < 0x110000 ->
  let n := c - 0x10000 in
  N.lor 0xD800 (N.land (N.shiftr n 10) 0x3FF) = 0xD800 + n / 1024
  /\ N.lor 0xDC00 (N.land n 0x3FF) = 0xDC00 + n mod 1024
  /\ n / 1024 < 1024.
Proof.
  intros Hlo Hhi n.
  assert (Hn : n < 1048576) by (unfold n; lia).
  assert (Hq : n / 1024 < 1024) by (apply N.Div0.div_lt_upper_bound; lia).
  change 0x3FF with (N.ones 10). rewrite !N.land_ones, N.shiftr_div_pow2.
  change (2 ^ 10) with 1024.
  rewrite (N.mod_small (n / 1024)) by exact Hq.
  change 0xD800 with (N.shiftl 54 10) at 1.
  change 0xDC00 with (N.shiftl 55 10) at 1.
  rewrite !lor_shiftl_add
    by (change (2 ^ 10) with 1024; try exact Hq; apply N.mod_lt; discriminate).
  change (2 ^ 10) with 1024. repeat split; try lia.
Qed.

Lemma scanstring_escape_char (c : N) (X : str) :
  scalar c = true ->
  scanstring (escape_char c ++ X) = consc c (scanstring X).
Proof.
  intro Hs. unfold scalar, Utf8.is_surrogate in Hs.
  apply andb_true_iff in Hs as [Hmax Hsur].
  apply N.ltb_lt in Hmax. apply negb_true_iff in Hsur.
  unfold escape_char.
  destruct (N.eqb_spec c 34) as [->|H34]; [reflexivity|].
  destruct (N.eqb_spec c 92) as [->|H92]; [reflexivity|].
  destruct (N.eqb_spec c 10) as [->|H10]; [reflexivity|].
  destruct (N.eqb_spec c 13) as [->|H13]; [reflexivity|].
  destruct (N.eqb_spec c 9) as [->|H9]; [reflexivity|].
  destruct (N.eqb_spec c 8) as [->|H8]; [reflexivity|].
  destruct (N.eqb_spec c 12) as [->|H12]; [reflexivity|].
  destruct ((32 <=? c) && (c <=? 126)) eqn:Hp.
  - apply andb_true_iff in Hp as [Hp _]. apply N.leb_le in Hp.
    now apply scanstring_plain.
  - destruct (c <? 0x10000) eqn:Hb.
    + apply N.ltb_lt in Hb. unfold u_escape, hex4. cbn [app].
      apply scanstring_u_plain.
      * now apply decode_hex4_hex4.
      * unfold is_high_surrogate.
        apply andb_false_iff in Hsur as [H|H];
          [apply N.leb_gt in H|apply N.leb_gt in H];
          apply andb_false_iff; [left|right]; apply N.leb_gt; lia.
    + apply N.ltb_ge in Hb.
      destruct (@surrogates_of c Hb Hmax) as [E1 [E2 Hq]].
      cbv zeta. cbv zeta in E1, E2. rewrite E1, E2.
      set (n := c - 0x10000) in *.
      assert (Hr : n mod 1024 < 1024) by (apply N.mod_lt; discriminate).
      unfold u_escape, hex4. cbn [app].
      rewrite scanstring_u_pair
        with (hi := 0xD800 + n / 1024) (lo := 0xDC00 + n mod 1024).
      * f_equal. unfold join_surrogates.
        assert (Hsub : forall a b, a + b - a = b) by (intros; lia).
        rewrite !Hsub.
        rewrite lor_shiftl_add by exact Hr. change (2 ^ 10) with 1024.
        pose proof (N.div_mod n 1024) as Hdm.
        assert (Hc : c = 0x10000 + n) by (unfold n; lia).
        generalize dependent (n / 1024). generalize dependent (n mod 1024).
        intros. lia.
      * apply decode_hex4_hex4. generalize dependent (n / 1024). intros; lia.
      * unfold is_high_surrogate. generalize dependent (n / 1024). intros.
        apply andb_true_iff; split; apply N.leb_le; lia.
      * apply decode_hex4_hex4. generalize dependent (n mod 1024). intros; lia.
      * unfold is_low_surrogate. generalize dependent (n mod 1024). intros.
        apply andb_true_iff; split; apply N.leb_le; lia.
Qed.

Lemma scanstring_escaped (s : str) (X : str) :
  forallb scalar s = true ->
  scanstring (flat_map escape_char s ++ 34 :: X) = Some (s, X).
Proof.
  induction s as [|c s IH]; intro H; [reflexivity|].
  cbn [forallb] in H. apply andb_true_iff in H as [Hc Hs].
  cbn [flat_map]. rewrite <- app_assoc, scanstring_escape_char by exact Hc.
  now rewrite IH.
Qed.

Lemma prefix_cons (p q l : str) (x : N) :
  p ++ q = x :: l -> p = [] \/ exists p', p = x :: p' /\ p' ++ q = l.
Proof.
  destruct p as [|y p]; [now left|]. cbn [app]. intro E. injection E as -> E.
  right. now exists p.
Qed.

Ltac solve_short :=
  scan_step;
  repeat match goal with
         | |- context [decode_hex4 ?a ?b ?c ?d] =>
             destruct (decode_hex4 a b c d); scan_step
         | |- context [is_high_surrogate ?u] =>
             destruct (is_high_surrogate u); scan_step
         end;
  reflexivity.

Ltac peel E :=
  lazymatch type of E with
  | _ ++ _ = _ :: _ =>
      let E' := fresh "E" in
      let p' := fresh "p" in
      destruct (@prefix_cons _ _ _ _ E) as [-> | [p' [-> E']]];
      [ solve_short | peel E' ]
  | _ ++ ?q = [] =>
      apply app_eq_nil in E; destruct E as [_ E]; congruence
  end.

(** A text that stops inside the escape of one character is not a
    string. *)
Lemma scanstring_inside_escape (c : N) (p q : str) :
  escape_char c = p ++ q -> q <> [] -> scanstring p = None.
Proof.
  intros E Hq. symmetry in E. unfold escape_char in E.
  repeat match type of E with
         | _ = (if ?b then _ else _) => destruct b
         end;
    cbv zeta in E; unfold u_escape, hex4 in E; cbn [app] in E; peel E.
Qed.

(** A text that stops before the closing quote is not a string. *)
Lemma scanstring_cut (s : str) (p q : str) :
  forallb scalar s = true ->
  flat_map escape_char s ++ [34] = p ++ q -> q <> [] ->
  scanstring p = None.
Proof.
  revert p. induction s as [|c s IH]; intros p H E Hq.
  - cbn [flat_map app] in E. symmetry in E. peel E.
  - cbn [forallb] in H. apply andb_true_iff in H as [Hc Hs].
    cbn [flat_map] in E. rewrite <- app_assoc in E.
    apply app_eq_app in E as [l [[E1 E2]|[E1 E2]]].
    + destruct l as [|x l].
      * rewrite app_nil_r in E1. subst p.
        rewrite <- (app_nil_r (escape_char c)).
        now rewrite scanstring_escape_char.
      * now apply scanstring_inside_escape with (c := c) (q := x :: l).
    + subst p. rewrite scanstring_escape_char by exact Hc.
      now rewrite (IH l Hs E2).
Qed.


Lemma delim_not_digit (c : N) (r : str) :
  delim (c :: r) = true -> is_digit c = false /\ c <> 45 /\ c <> 46
                            /\ c <> 101 /\ c <> 69 /\ c <> 43.
Proof.
  cbn [delim]. intro H.
  assert (E : c = 44 \/ c = 93 \/ c = 125).
  { apply orb_true_iff in H as [H|H]; [apply orb_true_iff in H as [H|H]|];
      apply N.eqb_eq in H; auto. }
  destruct E as [->|[->| ->]]; repeat split; discriminate.
Qed.

Lemma span_digits_split (s : str) :
  fst (span_digits s) ++ snd (span_digits s) = s.
Proof.
  induction s as [|c s IH]; [reflexivity|]. cbn [span_digits].
  destruct (is_digit c); [|reflexivity].
  destruct (span_digits s) as [ds r]. cbn [fst snd app] in *. now rewrite IH.
Qed.

Lemma span_digits_app (s rest : str) :
  delim rest = true ->
  span_digits (s ++ rest)
  = (fst (span_digits s), snd (span_digits s) ++ rest).
Proof.
  intro H. induction s as [|c s IH].
  - cbn [app span_digits fst snd]. destruct rest as [|c r]; [reflexivity|].
    cbn [span_digits]. now rewrite (proj1 (delim_not_digit _ _ H)).
  - cbn [app span_digits]. destruct (is_digit c); [|reflexivity].
    rewrite IH. destruct (span_digits s) as [ds r]. reflexivity.
Qed.

Lemma span_digits_all (ds : str) :
  forallb is_digit ds = true -> span_digits ds = (ds, []).
Proof.
  induction ds as [|c ds IH]; intro H; [reflexivity|].
  cbn [forallb] in H. apply andb_true_iff in H as [Hc Hds].
  cbn [span_digits]. now rewrite Hc, (IH Hds).
Qed.

Lemma match_integer_app (s rest : str) :
  delim rest = true ->
  match_integer (s ++ rest)
  = match match_integer s with
    | Some (neg, ds, r) => Some (neg, ds, r ++ rest)
    | None => None
    end.
Proof.
  intro H.
  assert (Hrest : forall neg,
            match rest with
            | [] => @None (bool * str * str)
            | c :: r =>
                if c =? 48 then Some (neg, [c], r)
                else if is_digit c
                     then let (ds, r') := span_digits r in Some (neg, c :: ds, r')
                     else None
            end = None).
  { intro neg. destruct rest as [|c r]; [reflexivity|].
    destruct (delim_not_digit _ _ H) as [Hd _].
    destruct (N.eqb_spec c 48) as [->|_]; [discriminate|]. now rewrite Hd. }
  assert (Hbody : forall neg s1,
            match s1 ++ rest with
            | [] => @None (bool * str * str)
            | c :: r =>
                if c =? 48 then Some (neg, [c], r)
                else if is_digit c
                     then let (ds, r') := span_digits r in Some (neg, c :: ds, r')
                     else None
            end
            = match match s1 with
                    | [] => None
                    | c :: r =>
                        if c =? 48 then Some (neg, [c], r)
                        else if is_digit c
                             then let (ds, r') := span_digits r in
                                  Some (neg, c :: ds, r')
                             else None
                    end with
              | Some (neg', ds, r) => Some (neg', ds, r ++ rest)
              | None => None
              end).
  { intros neg s1. destruct s1 as [|c r]; [apply Hrest|]. cbn [app].
    destruct (c =? 48); [reflexivity|]. destruct (is_digit c); [|reflexivity].
    rewrite span_digits_app by exact H.
    destruct (span_digits r) as [ds r']. reflexivity. }
  unfold match_integer. destruct s as [|c s].
  - cbn [app]. clear Hbody. destruct rest as [|c r]; [reflexivity|].
    destruct (delim_not_digit _ _ H) as [_ [Hm _]].
    apply N.eqb_neq in Hm. rewrite Hm. exact (Hrest false).
  - cbn [app]. destruct (c =? 45).
    + apply Hbody.
    + apply (Hbody false (c :: s)).
Qed.

Lemma match_frac_app (s rest : str) :
  delim rest = true ->
  match_frac (s ++ rest) = (fst (match_frac s), snd (match_frac s) ++ rest).
Proof.
  intro H. unfold match_frac.
  destruct s as [|d [|f r]]; cbn [app].
  - destruct rest as [|d [|f r]]; try reflexivity.
    destruct (delim_not_digit _ _ H) as [_ [_ [Hd _]]].
    apply N.eqb_neq in Hd. now rewrite Hd.
  - destruct rest as [|f r]; [reflexivity|].
    destruct (delim_not_digit _ _ H) as [Hf _]. rewrite Hf, andb_false_r.
    reflexivity.
  - destruct ((d =? 46) && is_digit f); [|reflexivity].
    rewrite span_digits_app by exact H.
    destruct (span_digits r) as [fs r']. reflexivity.
Qed.

Lemma match_exp_app (s rest : str) :
  delim rest = true ->
  match_exp (s ++ rest) = (fst (match_exp s), snd (match_exp s) ++ rest).
Proof.
  intro H. unfold match_exp.
  assert (Hno : forall r, span_digits rest = (@nil N, r) -> r = rest).
  { intros r E. pose proof (span_digits_split rest) as S.
    rewrite E in S. exact S. }
  assert (Hspan : fst (span_digits rest) = []).
  { destruct rest as [|c r]; [reflexivity|]. cbn [span_digits].
    now rewrite (proj1 (delim_not_digit _ _ H)). }
  destruct s as [|e r]; cbn [app].
  - destruct rest as [|c r]; [reflexivity|].
    destruct (delim_not_digit _ _ H) as [_ [_ [_ [H1 [H2 _]]]]].
    apply N.eqb_neq in H1, H2. now rewrite H1, H2.
  - destruct ((e =? 101) || (e =? 69)); [|reflexivity].
    destruct r as [|g r1]; cbn [app].
    + destruct rest as [|c r]; [reflexivity|].
      destruct (delim_not_digit _ _ H) as [Hd [Hm [_ [_ [_ Hp]]]]].
      apply N.eqb_neq in Hm, Hp. rewrite Hm, Hp. cbn [orb].
      cbn [span_digits]. rewrite Hd. reflexivity.
    + destruct ((g =? 45) || (g =? 43)).
      * rewrite span_digits_app by exact H.
        destruct (span_digits r1) as [[|d ds] r2]; reflexivity.
      * change (g :: r1 ++ rest) with ((g :: r1) ++ rest).
        rewrite (@span_digits_app (g :: r1) rest H).
        destruct (span_digits (g :: r1)) as [[|d ds] r2]; reflexivity.
Qed.

(** A number is read the same way whatever delimiter follows it. *)
Lemma match_number_app (s rest : str) :
  delim rest = true ->
  match_number (s ++ rest)
  = match match_number s with
    | Some (v, r) => Some (v, r ++ rest)
    | None => None
    end.
Proof.
  intro H. unfold match_number. rewrite match_integer_app by exact H.
  destruct (match_integer s) as [[[neg ds] r]|]; [|reflexivity].
  rewrite match_frac_app by exact H.
  destruct (match_frac r) as [frac r1]. cbn [fst snd].
  rewrite match_exp_app by exact H.
  destruct (match_exp r1) as [exp r2]. cbn [fst snd].
  destruct frac, exp; reflexivity.
Qed.

(** What is left after a number is the end of what was read. *)
Lemma match_number_suffix (s : str) (v : json) (r : str) :
  match_number s = Some (v, r) -> exists l, s = l ++ r.
Proof.
  unfold match_number.
  destruct (match_integer s) as [[[neg ds] r0]|] eqn:Ei; [|discriminate].
  assert (Hi : exists l, s = l ++ r0).
  { unfold match_integer in Ei.
    assert (Hb : forall neg0 s1,
              match s1 with
              | [] => None
              | c :: r =>
                  if c =? 48 then Some (neg0, [c], r)
                  else if is_digit c
                       then let (ds, r') := span_digits r in
                            Some (neg0, c :: ds, r')
                       else None
              end = Some (neg, ds, r0) -> exists l, s1 = l ++ r0).
    { intros neg0 [|c r1]; [discriminate|].
      destruct (c =? 48).
      - intro E; injection E as _ _ <-. now exists [c].
      - destruct (is_digit c); [|discriminate].
        pose proof (span_digits_split r1) as S.
        destruct (span_digits r1) as [ds' r']. cbn [fst snd] in S.
        intro E; injection E as _ _ <-. exists (c :: ds'). cbn [app].
        now rewrite S. }
    destruct s as [|c s']; [discriminate|].
    destruct (c =? 45).
    - destruct (Hb true s' Ei) as [l Hl]. exists (c :: l). cbn [app].
      now rewrite Hl.
    - exact (Hb false (c :: s') Ei). }
  destruct Hi as [l0 ->].
  assert (Hf : exists l, r0 = l ++ snd (match_frac r0)).
  { unfold match_frac. destruct r0 as [|d [|f r1]];
      try (exists []; reflexivity).
    destruct ((d =? 46) && is_digit f); [|exists []; reflexivity].
    pose proof (span_digits_split r1) as S.
    destruct (span_digits r1) as [fs r']. cbn [fst snd] in *.
    exists (d :: f :: fs). cbn [app]. now rewrite S. }
  destruct (match_frac r0) as [frac r1]. cbn [snd] in Hf.
  destruct Hf as [l1 Hl1].
  assert (He : exists l, r1 = l ++ snd (match_exp r1)).
  { unfold match_exp. destruct r1 as [|e r2]; [exists []; reflexivity|].
    destruct ((e =? 101) || (e =? 69)); [|exists []; reflexivity].
    destruct r2 as [|g r3]; [exists []; reflexivity|].
    destruct ((g =? 45) || (g =? 43)).
    - pose proof (span_digits_split r3) as S.
      destruct (span_digits r3) as [[|d ds'] r']; cbn [fst snd] in *;
        [exists []; reflexivity|].
      exists (e :: g :: d :: ds'). cbn [app] in *. now rewrite S.
    - pose proof (span_digits_split (g :: r3)) as S.
      destruct (span_digits (g :: r3)) as [[|d ds'] r']; cbn [fst snd] in *;
        [exists []; reflexivity|].
      exists (e :: d :: ds'). cbn [app] in *. now rewrite S. }
  destruct (match_exp r1) as [exp r2]. cbn [snd] in He.
  destruct He as [l2 Hl2].
  intro E.
  assert (Er : r = r2) by (destruct frac, exp; now injection E).
  subst r. exists (l0 ++ l1 ++ l2).
  rewrite <- !app_assoc. now rewrite <- Hl2, <- Hl1.
Qed.

Lemma uint_chars_digits (u : Decimal.uint) :
  forallb is_digit (uint_chars u) = true.
Proof. induction u; cbn [uint_chars forallb]; try rewrite IHu; reflexivity. Qed.

Lemma uint_of_chars_chars (u : Decimal.uint) :
  uint_of_chars (uint_chars u) = u.
Proof.
  induction u; cbn [uint_chars uint_of_chars]; try rewrite IHu; reflexivity.
Qed.

(** The decimal digits of a positive number do not start with a zero. *)
Lemma to_uint_head (p : positive) :
  exists c t, uint_chars (Pos.to_uint p) = c :: t
              /\ is_digit c = true /\ c <> 48.
Proof.
  pose proof (Unsigned.to_uint_nonnil p) as Hnil.
  pose proof (Unsigned.to_uint_nonzero p) as Hz.
  assert (Hn : Decimal.unorm (Pos.to_uint p) = Pos.to_uint p).
  { rewrite <- Unsigned.to_of, Unsigned.of_to. reflexivity. }
  assert (Hh : Decimal.nzhead (Pos.to_uint p) = Pos.to_uint p).
  { rewrite <- Hn at 2. symmetry. apply unorm_nzhead.
    intro E. apply unorm_0 in E. congruence. }
  pose proof (nzhead_nonzero (Pos.to_uint p)) as Hd. rewrite Hh in Hd.
  destruct (Pos.to_uint p) as [|u|u|u|u|u|u|u|u|u|u];
    try congruence; try (exfalso; now apply (Hd u));
    cbn [uint_chars]; eexists; eexists; (split; [reflexivity|]);
    (split; [reflexivity|discriminate]).
Qed.

Lemma match_number_digits (neg : bool) (c : N) (t : str) :
  is_digit c = true -> c <> 48 -> c <> 45 ->
  forallb is_digit t = true ->
  match_number ((if neg then [45] else []) ++ c :: t)
  = Some (JInt (let n := Z.of_N (N.of_uint (uint_of_chars (c :: t))) in
                if neg then Z.opp n else n), []).
Proof.
  intros Hc H48 H45 Ht. unfold match_number, match_integer.
  apply N.eqb_neq in H48, H45.
  destruct neg; cbn [app]; [change (45 =? 45) with true; cbv iota|rewrite H45];
    rewrite H48, Hc, (span_digits_all _ Ht); reflexivity.
Qed.

(** The text of an integer is read back as the integer. *)
Lemma match_number_int_repr (z : Z) :
  match_number (int_repr z) = Some (JInt z, []).
Proof.
  unfold int_repr. destruct z as [|p|p]; [reflexivity|..]; cbn [Z.to_int];
    destruct (to_uint_head p) as [c [t [E [Hc H48]]]];
    pose proof (uint_chars_digits (Pos.to_uint p)) as Hd;
    rewrite E in Hd; cbn [forallb] in Hd;
    apply andb_true_iff in Hd as [_ Ht];
    assert (H45 : c <> 45)
      by (intros ->; discriminate).
  - rewrite E.
    pose proof (@match_number_digits false c t Hc H48 H45 Ht) as Hm.
    cbn [app] in Hm. rewrite Hm.
    rewrite <- E, uint_of_chars_chars. cbv zeta.
    change (N.of_uint (Pos.to_uint p)) with (Pos.of_uint (Pos.to_uint p)).
    now rewrite Unsigned.of_to.
  - rewrite E.
    pose proof (@match_number_digits true c t Hc H48 H45 Ht) as Hm.
    cbn [app] in Hm. rewrite Hm.
    rewrite <- E, uint_of_chars_chars. cbv zeta.
    change (N.of_uint (Pos.to_uint p)) with (Pos.of_uint (Pos.to_uint p)).
    now rewrite Unsigned.of_to.
Qed.

Lemma int_repr_number_chars (z : Z) :
  forallb number_char (int_repr z) = true.
Proof.
  assert (H : forall u, forallb number_char (uint_chars u) = true).
  { intro u. pose proof (uint_chars_digits u) as Hd.
    induction (uint_chars u) as [|c l IH]; [reflexivity|].
    cbn [forallb] in *. apply andb_true_iff in Hd as [Hc Hl].
    unfold number_char at 1. rewrite Hc. cbn [orb]. now apply IH. }
  unfold int_repr. destruct (Z.to_int z); [apply H|].
  cbn [forallb]. now rewrite H.
Qed.


Lemma json_induction (P : json -> Prop) :
  P JNull -> (forall b, P (JBool b)) -> (forall z, P (JInt z)) ->
  (forall t, P (JFloat t)) -> (forall s, P (JStr s)) ->
  (forall items, Forall P items -> P (JList items)) ->
  (forall d, Forall (fun kv => P (snd kv)) d -> P (JDict d)) ->
  forall v, P v.
Proof.
  intros HNull HBool HInt HFloat HStr HList HDict.
  fix IH 1. intros [ |b|z|t|s|items|d].
  - exact HNull.
  - apply HBool.
  - apply HInt.
  - apply HFloat.
  - apply HStr.
  - apply HList. induction items as [|x items IHl]; constructor.
    + apply IH.
    + exact IHl.
  - apply HDict. induction d as [|[k x] d IHd]; constructor.
    + apply IH.
    + exact IHd.
Qed.

Lemma opening_facts (c : N) :
  opening c = true ->
  is_ws c = false /\ c <> 93 /\ c <> 44 /\ c <> 125 /\ c <> 0xFEFF
  /\ c <> 58.
Proof.
  unfold opening, is_digit. intro H.
  assert (E : (48 <= c <= 57) \/ c = 45 \/ c = 34 \/ c = 91 \/ c = 123
              \/ c = 110 \/ c = 116 \/ c = 102).
  { repeat (apply orb_true_iff in H as [H|H]);
      try (apply N.eqb_eq in H; lia).
    apply andb_true_iff in H as [H1 H2].
    apply N.leb_le in H1, H2. lia. }
  unfold is_ws.
  repeat split; try lia.
  repeat (apply orb_false_iff; split); apply N.eqb_neq; lia.
Qed.

Lemma number_char_opening (c : N) (t : str) (v : json) (r : str) :
  match_number (c :: t) = Some (v, r) -> opening c = true.
Proof.
  unfold match_number, match_integer, opening.
  destruct (N.eqb_spec c 45) as [->|H45]; [reflexivity|].
  destruct (N.eqb_spec c 48) as [->|H48]; [reflexivity|].
  destruct (is_digit c); [reflexivity|discriminate].
Qed.

Lemma skip_ws_opening (c : N) (t : str) :
  is_ws c = false -> skip_ws (c :: t) = c :: t.
Proof. intro H. cbn [skip_ws]. now rewrite H. Qed.

Lemma dumps_opening (v : json) :
  valid v = true -> exists c t, dumps v = c :: t /\ opening c = true.
Proof.
  destruct v as [ |[|]|z|t|s|items|d]; intro H;
    try (eexists; eexists; split; reflexivity).
  - cbn [dumps]. unfold int_repr.
    destruct z as [|p|p]; cbn [Z.to_int];
      try (eexists; eexists; split; reflexivity).
    destruct (to_uint_head p) as [c [t [E [Hc _]]]]. rewrite E.
    exists c, t. split; [reflexivity|]. unfold opening. now rewrite Hc.
  - cbn [valid] in H. unfold float_text in H.
    apply andb_true_iff in H as [_ H]. cbn [dumps].
    destruct t as [|c t]; [discriminate|].
    destruct (match_number (c :: t)) as [[v r]|] eqn:E; [|discriminate].
    exists c, t. split; [reflexivity|].
    now apply number_char_opening with (t := t) (v := v) (r := r).
Qed.


Lemma join_cons (sep p : str) (ps : list str) :
  join sep (p :: ps)
  = p ++ match ps with [] => [] | _ :: _ => sep ++ join sep ps end.
Proof. destruct ps; cbn [join]; [now rewrite app_nil_r|reflexivity]. Qed.

Lemma stuck_stops (r : str) :
  stuck r ->
  match skip_ws r with
  | [] => True
  | c :: _ => (c =? 93) = false /\ (c =? 44) = false /\ (c =? 125) = false
  end.
Proof.
  unfold stuck. destruct (skip_ws r) as [|c t]; [trivial|].
  intros [H1 [H2 H3]]. repeat split; now apply N.eqb_neq.
Qed.

Lemma delim_cons (c : N) (t : str) :
  c = 44 \/ c = 93 \/ c = 125 -> delim (c :: t) = true.
Proof. intros [->|[->| ->]]; reflexivity. Qed.

Section Items.
Variable scan : str -> scanned json.
Hypothesis scan_nil : fails (scan []).

Lemma items_text_cons (x : json) (l : list json) :
  items_text (x :: l)
  = dumps x ++ match l with
               | [] => []
               | _ :: _ => 44 :: 32 :: items_text l
               end.
Proof.
  unfold items_text. cbn [map]. rewrite join_cons.
  destruct l; reflexivity.
Qed.

Lemma items_text_opening (l : list json) :
  l <> [] -> Forall (read_by scan) l ->
  exists c t, items_text l = c :: t /\ opening c = true.
Proof.
  destruct l as [|x l]; [congruence|]. intros _ H.
  apply Forall_inv in H. destruct H as [[c [t [E Ho]]] _].
  rewrite items_text_cons, E. cbn [app]. eauto.
Qed.

Lemma array_items_reads (l : list json) :
  l <> [] -> Forall (read_by scan) l ->
  forall n rest, yields (array_items scan n (items_text l ++ 93 :: rest)) l rest.
Proof.
  induction l as [|x l IH]; [congruence|]. intros _ H n rest.
  pose proof (Forall_inv H) as [_ [Hread _]].
  pose proof (Forall_inv_tail H) as Hl.
  destruct n as [|n]; [now right|]. cbn [array_items].
  rewrite items_text_cons, <- app_assoc.
  destruct l as [|y l].
  - cbn [app]. destruct (Hread (93 :: rest) eq_refl) as [E|E]; rewrite E;
      [|now right].
    cbn [skip_ws is_ws N.eqb Pos.eqb orb]. now left.
  - destruct (Hread ((44 :: 32 :: items_text (y :: l)) ++ 93 :: rest) eq_refl)
      as [E|E]; rewrite E; [|now right].
    cbn [app skip_ws is_ws N.eqb Pos.eqb orb].
    destruct (items_text_opening (l := y :: l)) as [c [t [Ec Ho]]];
      [discriminate|exact Hl|].
    pose proof (IH ltac:(discriminate) Hl n rest) as Hrec.
    rewrite Ec in *. cbn [app] in *.
    rewrite (@skip_ws_opening _ _ (proj1 (@opening_facts _ Ho))).
    destruct Hrec as [E'|E']; rewrite E'; [now left|now right].
Qed.

Lemma array_items_stuck (n : nat) (s : str) :
  cut_short (scan s) -> fails (array_items scan (S n) s).
Proof.
  cbn [array_items]. destruct (scan s) as [v r| |]; [|now left|now right].
  cbn [cut_short]. intro Hs. apply stuck_stops in Hs.
  destruct (skip_ws r) as [|c r1]; [now left|].
  destruct Hs as [H1 [H2 _]]. rewrite H1, H2. now left.
Qed.

Lemma array_items_nil (n : nat) : fails (array_items scan n []).
Proof.
  destruct n as [|n]; [now right|]. cbn [array_items].
  destruct scan_nil as [E|E]; rewrite E; [now left|now right].
Qed.

Lemma array_items_cut (l : list json) :
  l <> [] -> Forall (read_by scan) l ->
  forall n p q, items_text l ++ [93] = p ++ q -> q <> [] ->
                fails (array_items scan n p).
Proof.
  induction l as [|x l IH]; [congruence|]. intros _ H n p q E Hq.
  pose proof (Forall_inv H) as [_ [Hread Hcut]].
  pose proof (Forall_inv_tail H) as Hl.
  destruct n as [|n]; [now right|].
  rewrite items_text_cons, <- app_assoc in E.
  apply app_eq_app in E as [l0 [[E1 E2]|[E1 E2]]].
  - (* the cut is inside the first item, or just after it *)
    destruct l0 as [|c0 l0].
    + rewrite app_nil_r in E1. subst p. apply array_items_stuck.
      destruct (Hread [] eq_refl) as [E|E]; rewrite app_nil_r in E;
        rewrite E; exact I.
    + apply array_items_stuck. apply Hcut with (q := c0 :: l0);
        [exact E1|discriminate].
  - (* the cut is after the first item *)
    subst p.
    assert (Hshort : forall l1, delim l1 = true -> stuck l1 ->
              fails (array_items scan (S n) (dumps x ++ l1))).
    { intros l1 Hd Hs. apply array_items_stuck.
      destruct (Hread l1 Hd) as [E|E]; rewrite E; [exact Hs|exact I]. }
    destruct l as [|y l].
    + cbn [app] in E2. symmetry in E2.
      destruct (@prefix_cons _ _ _ _ E2) as [-> | [p' [-> E3]]].
      * now apply Hshort.
      * apply app_eq_nil in E3. destruct E3 as [_ ->]. congruence.
    + cbn [app] in E2. symmetry in E2.
      destruct (@prefix_cons _ _ _ _ E2) as [-> | [p1 [-> E3]]];
        [now apply Hshort|].
      cbn [array_items].
      destruct (Hread (44 :: p1) eq_refl) as [E|E]; rewrite E;
        [|now right].
      cbn [skip_ws is_ws N.eqb Pos.eqb orb].
      assert (Hrec : fails (array_items scan n (skip_ws p1))).
      { destruct (@prefix_cons _ _ _ _ E3) as [-> | [p2 [-> E4]]];
          [apply array_items_nil|].
        cbn [skip_ws is_ws N.eqb Pos.eqb orb].
        destruct p2 as [|c2 p2]; [apply array_items_nil|].
        destruct (items_text_opening (l := y :: l)) as [c [t [Ec Ho]]];
          [discriminate|exact Hl|].
        rewrite Ec in E4. cbn [app] in E4. injection E4 as <- E4.
        rewrite (@skip_ws_opening _ _ (proj1 (@opening_facts _ Ho))).
        apply IH with (q := q); [discriminate|exact Hl| |exact Hq].
        rewrite Ec. cbn [app]. now rewrite E4. }
      destruct Hrec as [E'|E']; rewrite E'; [now left|now right].
Qed.
End Items.


Lemma dict_text (d : list (str * json)) :
  d <> [] ->
  join [44; 32]
    (map (fun kv => match kv with
                    | (k, x) => encode_basestring_ascii k ++ [58; 32] ++ dumps x
                    end) d)
  = 34 :: entries_text d.
Proof.
  induction d as [|[k x] d IH]; [congruence|]. intros _.
  cbn [map]. rewrite join_cons. cbn [entries_text].
  destruct d as [|kv d].
  - unfold encode_basestring_ascii, entry_text. cbn [map app].
    rewrite <- !app_assoc. reflexivity.
  - specialize (IH ltac:(discriminate)). cbn [map] in IH |- *.
    rewrite IH.
    unfold encode_basestring_ascii, entry_text. cbn [app].
    rewrite <- !app_assoc. reflexivity.
Qed.

Section Pairs.
Variable scan : str -> scanned json.
Hypothesis scan_nil : fails (scan []).

Lemma object_pairs_reads (d : list (str * json)) :
  d <> [] -> Forall (entry_read_by scan) d ->
  forall n rest,
    yields (object_pairs scan n (entries_text d ++ 125 :: rest)) d rest.
Proof.
  induction d as [|[k x] d IH]; [congruence|]. intros _ H n rest.
  pose proof (Forall_inv H) as [Hk [[c [t [Ec Ho]]] [Hread _]]].
  pose proof (Forall_inv_tail H) as Hd. cbn [fst snd] in *.
  destruct n as [|n]; [now right|].
  cbn [object_pairs entries_text]. unfold entry_text.
  rewrite <- !app_assoc. cbn [app].
  rewrite scanstring_escaped by exact Hk.
  cbn [skip_ws is_ws N.eqb Pos.eqb orb].
  assert (Hskip : forall R, skip_ws (dumps x ++ R) = dumps x ++ R).
  { intro R. rewrite Ec. cbn [app].
    apply skip_ws_opening. exact (proj1 (@opening_facts _ Ho)). }
  rewrite Hskip.
  destruct d as [|kv d].
  - cbn [app]. destruct (Hread (125 :: rest) eq_refl) as [E|E]; rewrite E;
      [|now right].
    cbn [skip_ws is_ws N.eqb Pos.eqb orb]. now left.
  - cbn [app].
    destruct (Hread (44 :: 32 :: 34 :: entries_text (kv :: d) ++ 125 :: rest)
                eq_refl) as [E|E]; rewrite E; [|now right].
    cbn [skip_ws is_ws N.eqb Pos.eqb orb].
    destruct (IH ltac:(discriminate) Hd n rest) as [E'|E']; rewrite E';
      [now left|now right].
Qed.

Lemma object_pairs_nil (n : nat) : fails (object_pairs scan n []).
Proof. destruct n as [|n]; [now right|now left]. Qed.

(** After a key and its colon, a value cut short or followed by
    nothing ends the scan. *)
Lemma object_value_stuck (n : nat) (key : str) (s : str) :
  cut_short (scan s) ->
  fails match scan s with
        | Scanned v r2 =>
            match skip_ws r2 with
            | c2 :: r3 =>
                if c2 =? 125 then Scanned [(key, v)] r3
                else if c2 =? 44 then
                  match skip_ws r3 with
                  | q :: r4 =>
                      if q =? 34 then
                        match object_pairs scan n r4 with
                        | Scanned ps r5 => Scanned ((key, v) :: ps) r5
                        | Stop => Stop
                        | NoFuel => NoFuel
                        end
                      else Stop
                  | [] => Stop
                  end
                else Stop
            | [] => Stop
            end
        | Stop => Stop
        | NoFuel => NoFuel
        end.
Proof.
  destruct (scan s) as [v r| |]; [|now left|now right].
  cbn [cut_short]. intro Hs. apply stuck_stops in Hs.
  destruct (skip_ws r) as [|c r1]; [now left|].
  destruct Hs as [_ [H2 H3]]. rewrite H2, H3. now left.
Qed.

Lemma object_pairs_cut (d : list (str * json)) :
  d <> [] -> Forall (entry_read_by scan) d ->
  forall n p q, entries_text d ++ [125] = p ++ q -> q <> [] ->
                fails (object_pairs scan n p).
Proof.
  induction d as [|[k x] d IH]; [congruence|]. intros _ H n p q E Hq.
  pose proof (Forall_inv H) as [Hk [[c [t [Ec Ho]]] [Hread Hcut]]].
  pose proof (Forall_inv_tail H) as Hd. cbn [fst snd] in *.
  destruct n as [|n]; [now right|].
  cbn [entries_text] in E. unfold entry_text in E.
  rewrite <- !app_assoc in E.
  cbn [app] in E.
  assert (E' : (flat_map escape_char k ++ [34])
               ++ 58 :: 32 :: dumps x
               ++ match d with
                  | [] => []
                  | _ :: _ => 44 :: 32 :: 34 :: entries_text d
                  end ++ [125] = p ++ q).
  { rewrite <- E, <- app_assoc. reflexivity. }
  clear E. rename E' into E.
  apply app_eq_app in E as [l0 [[E1 E2]|[E1 E2]]].
  - (* the cut is inside the key, or just after it *)
    cbn [object_pairs].
    destruct l0 as [|c0 l0].
    + rewrite app_nil_r in E1. subst p.
      rewrite scanstring_escaped by exact Hk. now left.
    + rewrite (@scanstring_cut k p (c0 :: l0) Hk E1) by discriminate.
      now left.
  - (* the cut is after the key *)
    subst p. cbn [object_pairs]. rewrite <- app_assoc. cbn [app].
    rewrite scanstring_escaped by exact Hk.
    symmetry in E2.
    destruct (@prefix_cons _ _ _ _ E2) as [-> | [p1 [-> E3]]]; [now left|].
    cbn [skip_ws is_ws N.eqb Pos.eqb orb].
    destruct (@prefix_cons _ _ _ _ E3) as [-> | [p2 [-> E4]]].
    { cbn [skip_ws]. apply object_value_stuck.
      destruct scan_nil as [E|E]; rewrite E; exact I. }
    cbn [skip_ws is_ws N.eqb Pos.eqb orb].
    assert (Hskip : skip_ws p2 = p2).
    { destruct p2 as [|c2 p2]; [reflexivity|].
      rewrite Ec in E4. cbn [app] in E4. injection E4 as -> _.
      apply skip_ws_opening. exact (proj1 (@opening_facts _ Ho)). }
    rewrite Hskip. symmetry in E4.
    apply app_eq_app in E4 as [l1 [[E5 E6]|[E5 E6]]].
    + (* inside the value, or just after it *)
      apply object_value_stuck. destruct l1 as [|c1 l1].
      * rewrite app_nil_r in E5. subst p2.
        destruct (Hread [] eq_refl) as [E|E]; rewrite app_nil_r in E;
          rewrite E; exact I.
      * apply Hcut with (q := c1 :: l1); [exact E5|discriminate].
    + (* after the value *)
      subst p2.
      destruct d as [|kv d].
      * cbn [app] in E6. symmetry in E6.
        destruct (@prefix_cons _ _ _ _ E6) as [-> | [p3 [-> E7]]].
        -- apply object_value_stuck.
           destruct (Hread [] eq_refl) as [E|E]; rewrite E; exact I.
        -- apply app_eq_nil in E7. destruct E7 as [_ ->]. congruence.
      * cbn [app] in E6. symmetry in E6.
        destruct (@prefix_cons _ _ _ _ E6) as [-> | [p3 [-> E7]]].
        { apply object_value_stuck.
          destruct (Hread [] eq_refl) as [E|E]; rewrite E; exact I. }
        destruct (Hread (44 :: p3) eq_refl) as [E|E]; rewrite E;
          [|now right].
        cbn [skip_ws is_ws N.eqb Pos.eqb orb].
        destruct (@prefix_cons _ _ _ _ E7) as [-> | [p4 [-> E8]]];
          [now left|].
        cbn [skip_ws is_ws N.eqb Pos.eqb orb].
        destruct (@prefix_cons _ _ _ _ E8) as [-> | [p5 [-> E9]]];
          [now left|].
        cbn [skip_ws is_ws N.eqb Pos.eqb orb].
        destruct (IH ltac:(discriminate) Hd n p5 q (eq_sym E9) Hq)
          as [E'|E']; rewrite E'; [now left|now right].
Qed.
End Pairs.


(** ** Dicts with distinct keys *)

Lemma dict_set_new (V : Type) (d : dict V) (k : str) (v : V) :
  existsb (str_eqb k) (map fst d) = false -> dict_set d k v = d ++ [(k, v)].
Proof.
  induction d as [|[k' v'] d IH]; intro H; [reflexivity|].
  cbn [map fst existsb] in H. apply orb_false_iff in H as [Hk Hd].
  cbn [dict_set app]. rewrite str_eqb_sym, Hk. now rewrite IH.
Qed.

Lemma dict_of_pairs_distinct (V : Type) (ps : list (str * V)) :
  distinct (map fst ps) = true -> dict_of_pairs ps = ps.
Proof.
  unfold dict_of_pairs.
  assert (H : forall acc,
    distinct (map fst (acc ++ ps)) = true ->
    fold_left (fun d kv => dict_set d (fst kv) (snd kv)) ps acc = acc ++ ps).
  { induction ps as [|[k v] ps IH]; intros acc Hd.
    - cbn [fold_left]. now rewrite app_nil_r.
    - cbn [fold_left fst snd].
      assert (Hnew : existsb (str_eqb k) (map fst acc) = false).
      { clear IH. induction acc as [|[k' v'] acc IHa]; [reflexivity|].
        cbn [app map fst distinct] in Hd.
        apply andb_true_iff in Hd as [Hk' Hd].
        cbn [map fst existsb]. rewrite (IHa Hd), orb_false_r.
        apply negb_true_iff in Hk'. rewrite map_app, existsb_app in Hk'.
        apply orb_false_iff in Hk' as [_ Hk'].
        cbn [map fst existsb] in Hk'. apply orb_false_iff in Hk' as [Hk' _].
        now rewrite str_eqb_sym. }
      rewrite dict_set_new by exact Hnew.
      rewrite IH by (now rewrite <- app_assoc).
      now rewrite <- app_assoc. }
  intro Hd. now apply (H []).
Qed.

(** ** Numbers *)

Lemma number_char_facts (c : N) :
  number_char c = true ->
  is_ws c = false /\ c <> 34 /\ c <> 123 /\ c <> 91 /\ c <> 110 /\ c <> 116
  /\ c <> 102 /\ c <> 78 /\ c <> 73 /\ c <> 44 /\ c <> 93 /\ c <> 125.
Proof.
  unfold number_char, is_digit. intro H.
  assert (E : (48 <= c <= 57) \/ c = 45 \/ c = 43 \/ c = 46 \/ c = 101
              \/ c = 69).
  { repeat (apply orb_true_iff in H as [H|H]);
      try (apply N.eqb_eq in H; lia).
    apply andb_true_iff in H as [H1 H2].
    apply N.leb_le in H1, H2. lia. }
  unfold is_ws. repeat split; try lia.
  repeat (apply orb_false_iff; split); apply N.eqb_neq; lia.
Qed.

Lemma scan_once_number (f : nat) (c : N) (t : str) (v : json) (r : str) :
  number_char c = true ->
  match_number (c :: t) = Some (v, r) ->
  scan_once (S f) (c :: t) = Scanned v r.
Proof.
  intros Hc Hm.
  destruct (@number_char_facts _ Hc)
    as [_ [H34 [H123 [H91 [H110 [H116 [H102 _]]]]]]].
  cbn [scan_once].
  apply N.eqb_neq in H34, H123, H91. rewrite H34, H123, H91.
  change (lit "null") with [110; 117; 108; 108].
  change (lit "true") with [116; 114; 117; 101].
  change (lit "false") with [102; 97; 108; 115; 101].
  cbn [strip_prefix].
  assert (E1 : (110 =? c) = false) by (apply N.eqb_neq; congruence).
  assert (E2 : (116 =? c) = false) by (apply N.eqb_neq; congruence).
  assert (E3 : (102 =? c) = false) by (apply N.eqb_neq; congruence).
  rewrite E1, E2, E3, Hm. reflexivity.
Qed.

Lemma scan_once_not_number (f : nat) (c : N) (t : str) :
  forallb number_char (c :: t) = true ->
  match_number (c :: t) = None ->
  scan_once (S f) (c :: t) = Stop.
Proof.
  intros Hall Hm. cbn [forallb] in Hall.
  apply andb_true_iff in Hall as [Hc Ht].
  destruct (@number_char_facts _ Hc)
    as [_ [H34 [H123 [H91 [H110 [H116 [H102 [H78 [H73 _]]]]]]]]].
  cbn [scan_once].
  apply N.eqb_neq in H34, H123, H91. rewrite H34, H123, H91.
  change (lit "null") with [110; 117; 108; 108].
  change (lit "true") with [116; 114; 117; 101].
  change (lit "false") with [102; 97; 108; 115; 101].
  change (lit "NaN") with [78; 97; 78].
  change (lit "Infinity") with [73; 110; 102; 105; 110; 105; 116; 121].
  change (lit "-Infinity") with [45; 73; 110; 102; 105; 110; 105; 116; 121].
  cbn [strip_prefix].
  assert (E1 : (110 =? c) = false) by (apply N.eqb_neq; congruence).
  assert (E2 : (116 =? c) = false) by (apply N.eqb_neq; congruence).
  assert (E3 : (102 =? c) = false) by (apply N.eqb_neq; congruence).
  assert (E4 : (78 =? c) = false) by (apply N.eqb_neq; congruence).
  assert (E5 : (73 =? c) = false) by (apply N.eqb_neq; congruence).
  rewrite E1, E2, E3, Hm, E4, E5.
  destruct (45 =? c); [|reflexivity].
  destruct t as [|c' t]; [reflexivity|].
  cbn [forallb] in Ht. apply andb_true_iff in Ht as [Hc' _].
  destruct (@number_char_facts _ Hc') as [_ [_ [_ [_ [_ [_ [_ [_ [H73' _]]]]]]]]].
  assert (E6 : (73 =? c') = false) by (apply N.eqb_neq; congruence).
  now rewrite E6.
Qed.

Lemma number_chars_stuck (r : str) :
  forallb number_char r = true -> stuck r.
Proof.
  unfold stuck. destruct r as [|c r]; [intros _; exact I|].
  cbn [forallb]. intro H. apply andb_true_iff in H as [Hc _].
  destruct (@number_char_facts _ Hc)
    as [Hws [_ [_ [_ [_ [_ [_ [_ [_ [H44 [H93 H125]]]]]]]]]]].
  cbn [skip_ws]. rewrite Hws. auto.
Qed.

(** A text made of the characters of numbers and cut anywhere gives no
    value, or a number with what is left stuck. *)
Lemma scan_once_number_cut (fuel : nat) (p : str) :
  forallb number_char p = true -> cut_short (scan_once fuel p).
Proof.
  intro H. destruct fuel as [|f]; [exact I|].
  destruct p as [|c t]; [exact I|].
  destruct (match_number (c :: t)) as [[v r]|] eqn:Em.
  - pose proof H as Hall. cbn [forallb] in H.
    apply andb_true_iff in H as [Hc _].
    rewrite (@scan_once_number f _ _ _ _ Hc Em). cbn [cut_short].
    apply number_chars_stuck.
    destruct (@match_number_suffix _ _ _ Em) as [l El].
    rewrite El, forallb_app in Hall.
    now apply andb_true_iff in Hall as [_ Hall].
  - now rewrite (@scan_once_not_number f _ _ H Em).
Qed.

(** A number text is read back before any delimiter. *)
Lemma scan_once_number_reads (fuel : nat) (text rest : str) (v : json) :
  forallb number_char text = true ->
  match_number text = Some (v, []) ->
  delim rest = true ->
  yields (scan_once fuel (text ++ rest)) v rest.
Proof.
  intros Hall Hm Hd. destruct fuel as [|f]; [now right|]. left.
  destruct text as [|c t]; [discriminate|].
  cbn [forallb] in Hall. apply andb_true_iff in Hall as [Hc _].
  cbn [app]. apply scan_once_number; [exact Hc|].
  change (c :: t ++ rest) with ((c :: t) ++ rest).
  rewrite match_number_app by exact Hd. now rewrite Hm.
Qed.


Lemma fails_cut_short (r : scanned json) : fails r -> cut_short r.
Proof. intros [->| ->]; exact I. Qed.

Lemma scan_once_nil (fuel : nat) : fails (scan_once fuel []).
Proof. destruct fuel; [now right|now left]. Qed.

(** What is to show for a value that is not a number. *)
Lemma read_by_intro (fuel : nat) (x : json) :
  valid x = true ->
  (forall rest, delim rest = true ->
                yields (scan_once fuel (dumps x ++ rest)) x rest) ->
  cut_fails (scan_once fuel) x ->
  read_by (scan_once fuel) x /\ (is_number x = false -> cut_fails (scan_once fuel) x).
Proof.
  intros Hv Hr Hc. split; [|intros _; exact Hc].
  split; [now apply dumps_opening|]. split; [exact Hr|].
  intros p q E Hq. apply fails_cut_short. now apply Hc with (q := q).
Qed.

Ltac literal_cut E :=
  lazymatch type of E with
  | _ ++ _ = _ :: _ =>
      let E' := fresh "E" in
      let p' := fresh "p" in
      destruct (@prefix_cons _ _ _ _ E) as [-> | [p' [-> E']]];
      [ now left | literal_cut E' ]
  | _ ++ ?q = [] =>
      apply app_eq_nil in E; destruct E as [_ E]; congruence
  end.

Lemma literal_reads (fuel : nat) (x : json) :
  x = JNull \/ x = JBool true \/ x = JBool false ->
  read_by (scan_once fuel) x /\ (is_number x = false -> cut_fails (scan_once fuel) x).
Proof.
  intro Hx.
  apply read_by_intro.
  - destruct Hx as [->|[->| ->]]; reflexivity.
  - intros rest _. destruct fuel as [|f]; [now right|]. left.
    destruct Hx as [->|[->| ->]]; reflexivity.
  - intros p q E Hq. destruct fuel as [|f]; [now right|]. symmetry in E.
    destruct Hx as [->|[->| ->]];
      [change (dumps JNull) with [110; 117; 108; 108] in E
      |change (dumps (JBool true)) with [116; 114; 117; 101] in E
      |change (dumps (JBool false)) with [102; 97; 108; 115; 101] in E];
      literal_cut E.
Qed.

Lemma match_number_is_number (s : str) (v : json) (r : str) :
  match_number s = Some (v, r) -> is_number v = true.
Proof.
  unfold match_number.
  destruct (match_integer s) as [[[neg ds] r0]|]; [|discriminate].
  destruct (match_frac r0) as [frac r1].
  destruct (match_exp r1) as [exp r2].
  destruct frac, exp; intro E; injection E as <- _; reflexivity.
Qed.

Lemma number_reads (fuel : nat) (x : json) :
  valid x = true ->
  forallb number_char (dumps x) = true ->
  match_number (dumps x) = Some (x, []) ->
  read_by (scan_once fuel) x /\ (is_number x = false -> cut_fails (scan_once fuel) x).
Proof.
  intros Hv Hall Hm. split.
  - split; [now apply dumps_opening|]. split.
    + intros rest Hd. now apply scan_once_number_reads.
    + intros p q E _. apply scan_once_number_cut.
      rewrite E, forallb_app in Hall.
      now apply andb_true_iff in Hall as [Hall _].
  - intro Hn. rewrite (match_number_is_number _ Hm) in Hn. discriminate.
Qed.

(** Every valid value is read back by the scanner, and no text cut
    inside it is read as a value (a number apart, whose digits so far
    are a number). *)
Theorem scan_once_dumps (v : json) :
  valid v = true ->
  forall fuel,
    read_by (scan_once fuel) v
    /\ (is_number v = false -> cut_fails (scan_once fuel) v).
Proof.
  induction v as [ |b|z|t|s|items IH|d IH] using json_induction;
    intros Hv fuel.
  - apply literal_reads. auto.
  - apply literal_reads. destruct b; auto.
  - apply number_reads; [exact Hv|apply int_repr_number_chars|].
    apply match_number_int_repr.
  - pose proof Hv as Hv'. cbn [valid] in Hv. unfold float_text in Hv.
    apply andb_true_iff in Hv as [Hall Hm].
    apply number_reads; [exact Hv'|exact Hall|]. cbn [dumps].
    destruct (match_number t) as [[[ | | |t'| | | ] [|c r]]|];
      try discriminate.
    apply str_eqb_eq in Hm. now subst t'.
  - (* a string *)
    cbn [valid] in Hv. apply read_by_intro; [exact Hv|..].
    + intros rest _. destruct fuel as [|f]; [now right|]. left.
      cbn [dumps]. unfold encode_basestring_ascii. cbn [app scan_once].
      change (34 =? 34) with true. cbv iota.
      rewrite <- app_assoc. cbn [app].
      now rewrite scanstring_escaped.
    + intros p q E Hq. destruct fuel as [|f]; [now right|]. left.
      cbn [dumps] in E. unfold encode_basestring_ascii in E. symmetry in E.
      destruct (@prefix_cons _ _ _ _ E) as [-> | [p' [-> E']]];
        [reflexivity|].
      cbn [scan_once]. change (34 =? 34) with true. cbv iota.
      now rewrite (@scanstring_cut s p' q Hv (eq_sym E') Hq).
  - (* a list *)
    cbn [valid] in Hv.
    assert (Hitems : forall f, Forall (read_by (scan_once f)) items).
    { intro f. rewrite forallb_forall in Hv. rewrite Forall_forall in *.
      intros x Hx. exact (proj1 (IH x Hx (Hv x Hx) f)). }
    assert (Htext : dumps (JList items) = 91 :: items_text items ++ [93])
      by reflexivity.
    apply read_by_intro; [exact Hv|..].
    + intros rest _. rewrite Htext.
      destruct fuel as [|f]; [now right|].
      cbn [app scan_once]. change (91 =? 34) with false.
      change (91 =? 123) with false. change (91 =? 91) with true. cbv iota.
      rewrite <- app_assoc. cbn [app]. unfold JSONArray.
      destruct items as [|x items].
      * cbn [items_text Encoder.join map app skip_ws is_ws N.eqb Pos.eqb orb].
        now left.
      * destruct (@items_text_opening (scan_once f) (x :: items))
          as [c [t [Ec Ho]]]; [discriminate|apply Hitems|].
        pose proof (@array_items_reads (scan_once f) (x :: items)
                      ltac:(discriminate) (Hitems f) f rest) as Hr.
        rewrite Ec in *. cbn [app] in *.
        destruct (@opening_facts _ Ho) as [Hws [H93 _]].
        rewrite (@skip_ws_opening _ _ Hws).
        apply N.eqb_neq in H93. rewrite H93.
        destruct Hr as [Er|Er]; rewrite Er; [now left|now right].
    + intros p q E Hq. rewrite Htext in E. symmetry in E.
      destruct fuel as [|f]; [now right|].
      destruct (@prefix_cons _ _ _ _ E) as [-> | [p' [-> E']]]; [now left|].
      cbn [scan_once]. change (91 =? 34) with false.
      change (91 =? 123) with false. change (91 =? 91) with true. cbv iota.
      unfold JSONArray.
      destruct items as [|x items].
      * cbn [items_text Encoder.join map app] in E'.
        destruct (@prefix_cons _ _ _ _ E') as [-> | [p'' [-> E'']]];
          [now left|].
        apply app_eq_nil in E''. destruct E'' as [_ ->]. congruence.
      * destruct p' as [|c p']; [now left|].
        destruct (@items_text_opening (scan_once f) (x :: items))
          as [c0 [t [Ec Ho]]]; [discriminate|apply Hitems|].
        pose proof (@array_items_cut (scan_once f) (scan_once_nil f)
                      (x :: items) ltac:(discriminate) (Hitems f) f
                      (c :: p') q (eq_sym E') Hq) as Hc.
        rewrite Ec in E'. cbn [app] in E'. injection E' as -> _.
        destruct (@opening_facts _ Ho) as [Hws [H93 _]].
        rewrite (@skip_ws_opening _ _ Hws).
        apply N.eqb_neq in H93. rewrite H93.
        destruct Hc as [Er|Er]; rewrite Er; [now left|now right].
  - (* a dict *)
    pose proof Hv as Hv'. cbn [valid] in Hv.
    apply andb_true_iff in Hv as [Hkeys Hv].
    assert (Hd : forall f, Forall (entry_read_by (scan_once f)) d).
    { intro f. rewrite forallb_forall in Hv. rewrite Forall_forall in *.
      intros [k x] Hx. specialize (Hv _ Hx). cbn beta iota in Hv.
      apply andb_true_iff in Hv as [Hk Hx'].
      split; [exact Hk|]. exact (proj1 (IH _ Hx Hx' f)). }
    assert (Htext : dumps (JDict d)
                    = 123 :: match d with
                             | [] => []
                             | _ :: _ => 34 :: entries_text d
                             end ++ [125]).
    { cbn [dumps]. change (lit ", ") with [44; 32].
      change (lit ": ") with [58; 32].
      destruct d as [|kv d]; [reflexivity|].
      now rewrite dict_text by discriminate. }
    apply read_by_intro; [exact Hv'|..].
    + intros rest _. rewrite Htext.
      destruct fuel as [|f]; [now right|].
      cbn [app scan_once]. change (123 =? 34) with false.
      change (123 =? 123) with true. cbv iota.
      rewrite <- app_assoc. unfold JSONObject.
      destruct d as [|kv d].
      * cbn [app skip_ws is_ws N.eqb Pos.eqb orb]. now left.
      * cbn [app skip_ws is_ws N.eqb Pos.eqb orb].
        destruct (@object_pairs_reads (scan_once f) (kv :: d)
                    ltac:(discriminate) (Hd f) f rest) as [Er|Er]; rewrite Er;
          [|now right].
        rewrite dict_of_pairs_distinct by exact Hkeys. now left.
    + intros p q E Hq. rewrite Htext in E. symmetry in E.
      destruct fuel as [|f]; [now right|].
      destruct (@prefix_cons _ _ _ _ E) as [-> | [p' [-> E']]]; [now left|].
      cbn [scan_once]. change (123 =? 34) with false.
      change (123 =? 123) with true. cbv iota.
      unfold JSONObject.
      destruct d as [|kv d].
      * cbn [app] in E'.
        destruct (@prefix_cons _ _ _ _ E') as [-> | [p'' [-> E'']]];
          [now left|].
        apply app_eq_nil in E''. destruct E'' as [_ ->]. congruence.
      * cbn [app] in E'.
        destruct (@prefix_cons _ _ _ _ E') as [-> | [p'' [-> E'']]];
          [now left|].
        cbn [skip_ws is_ws N.eqb Pos.eqb orb].
        destruct (@object_pairs_cut (scan_once f) (scan_once_nil f)
                    (kv :: d) ltac:(discriminate) (Hd f) f p'' q
                    (eq_sym E'') Hq) as [Er|Er]; rewrite Er;
          [now left|now right].
Qed.


(** ** The scanner does not run out of rounds *)

Lemma skip_ws_length (s : str) : (List.length (skip_ws s) <= List.length s)%nat.
Proof.
  induction s as [|c s IH]; [reflexivity|]. cbn [skip_ws].
  destruct (is_ws c); cbn [List.length]; lia.
Qed.

Lemma consc_some (c : N) (r : option (str * str)) (k rest : str) :
  consc c r = Some (k, rest) -> exists k', r = Some (k', rest).
Proof.
  destruct r as [[k' rest']|]; [|discriminate]. cbn [consc].
  intro E; injection E as _ <-. now exists k'.
Qed.

Lemma scanstring_length (s k r : str) :
  scanstring s = Some (k, r) -> (List.length r <= List.length s)%nat.
Proof.
  assert (H : forall n s k r, (List.length s <= n)%nat ->
            scanstring s = Some (k, r) ->
            (List.length r <= List.length s)%nat);
    [|now apply (H (List.length s))].
  clear s k r.
  induction n as [|n IH]; intros s k r Hle;
    (destruct s as [|c s1]; [discriminate|]); cbn [List.length] in Hle;
    [lia|].
  assert (Hrec : forall c' X k' r',
    (List.length X <= n)%nat -> consc c' (scanstring X) = Some (k', r') ->
    (List.length r' <= List.length X)%nat).
  { intros c' X k' r' HX E. apply consc_some in E as [k'' E].
    now apply IH with (k := k''). }
  cbn [scanstring].
  destruct (c =? 34).
  { intro E; injection E as _ <-. cbn [List.length]. lia. }
  destruct (c =? 92).
  2:{ destruct (c <? 32); [discriminate|]. intro E.
      apply Hrec in E; cbn [List.length]; lia. }
  destruct s1 as [|e s2]; [discriminate|].
  destruct (e =? 117).
  2:{ destruct (unescape e); [|discriminate]. intro E.
      apply Hrec in E; cbn [List.length] in *; lia. }
  destruct s2 as [|h1 [|h2 [|h3 [|h4 s6]]]]; try discriminate.
  destruct (decode_hex4 h1 h2 h3 h4) as [uni|]; [|discriminate].
  assert (Hplain : consc uni (scanstring s6) = Some (k, r) ->
                   (List.length r <= List.length (c :: e :: h1 :: h2 :: h3 :: h4 :: s6))%nat).
  { intro E. apply Hrec in E; cbn [List.length] in *; lia. }
  destruct (is_high_surrogate uni); [|exact Hplain].
  destruct s6 as [|b [|u s8]]; try exact Hplain.
  destruct ((b =? 92) && (u =? 117)); [|exact Hplain].
  destruct s8 as [|g1 [|g2 [|g3 [|g4 s12]]]]; try discriminate.
  destruct (decode_hex4 g1 g2 g3 g4) as [uni2|]; [|discriminate].
  destruct (is_low_surrogate uni2); [|exact Hplain].
  intro E. apply Hrec in E; cbn [List.length] in *; lia.
Qed.

Lemma strip_prefix_length (p s r : str) :
  strip_prefix p s = Some r -> (List.length r <= List.length s)%nat.
Proof.
  revert s. induction p as [|a p IH]; intros s.
  - cbn [strip_prefix]. intro E; injection E as <-. lia.
  - destruct s as [|b s]; [discriminate|]. cbn [strip_prefix].
    destruct (a =? b); [|discriminate]. intro E. apply IH in E.
    cbn [List.length]. lia.
Qed.

Lemma match_number_length (s : str) (v : json) (r : str) :
  match_number s = Some (v, r) -> (List.length r <= List.length s)%nat.
Proof.
  intro E. apply match_number_suffix in E as [l ->].
  rewrite length_app. lia.
Qed.

Section Rounds.
Variable scan : str -> scanned json.
Variable bound : nat.
Hypothesis scan_ends : ends_below bound scan.

Lemma array_items_ends (n : nat) (s : str) :
  (List.length s < n)%nat -> (List.length s < bound)%nat ->
  array_items scan n s <> NoFuel
  /\ forall vs r, array_items scan n s = Scanned vs r ->
                  (List.length r <= List.length s)%nat.
Proof.
  revert s. induction n as [|n IH]; intros s Hn Hb; [lia|].
  cbn [array_items].
  destruct (scan_ends s Hb) as [Hnf Hlen].
  destruct (scan s) as [v r| |]; [|split; discriminate|congruence].
  specialize (Hlen v r eq_refl).
  pose proof (skip_ws_length r) as Hw.
  destruct (skip_ws r) as [|c r1]; [split; discriminate|].
  cbn [List.length] in Hw.
  destruct (c =? 93).
  { split; [discriminate|]. intros vs r' E; injection E as _ <-. lia. }
  destruct (c =? 44); [|split; discriminate].
  pose proof (skip_ws_length r1) as Hw1.
  destruct (IH (skip_ws r1)) as [Hnf' Hlen']; [lia|lia|].
  destruct (array_items scan n (skip_ws r1)) as [vs r2| |];
    [|split; discriminate|congruence].
  split; [discriminate|]. intros vs' r' E; injection E as _ <-.
  specialize (Hlen' vs r2 eq_refl). lia.
Qed.

Lemma object_pairs_ends (n : nat) (s : str) :
  (List.length s < n)%nat -> (List.length s < bound)%nat ->
  object_pairs scan n s <> NoFuel
  /\ forall ps r, object_pairs scan n s = Scanned ps r ->
                  (List.length r <= List.length s)%nat.
Proof.
  revert s. induction n as [|n IH]; intros s Hn Hb; [lia|].
  cbn [object_pairs].
  destruct (scanstring s) as [[key r]|] eqn:Es; [|split; discriminate].
  apply scanstring_length in Es.
  pose proof (skip_ws_length r) as Hw.
  destruct (skip_ws r) as [|c r1]; [split; discriminate|].
  cbn [List.length] in Hw.
  destruct (c =? 58); [|split; discriminate].
  pose proof (skip_ws_length r1) as Hw1.
  destruct (scan_ends (skip_ws r1)) as [Hnf Hlen]; [lia|].
  destruct (scan (skip_ws r1)) as [v r2| |]; [|split; discriminate|congruence].
  specialize (Hlen v r2 eq_refl).
  pose proof (skip_ws_length r2) as Hw2.
  destruct (skip_ws r2) as [|c2 r3]; [split; discriminate|].
  cbn [List.length] in Hw2.
  destruct (c2 =? 125).
  { split; [discriminate|]. intros ps r' E; injection E as _ <-. lia. }
  destruct (c2 =? 44); [|split; discriminate].
  pose proof (skip_ws_length r3) as Hw3.
  destruct (skip_ws r3) as [|q r4]; [split; discriminate|].
  cbn [List.length] in Hw3.
  destruct (q =? 34); [|split; discriminate].
  destruct (IH r4) as [Hnf' Hlen']; [lia|lia|].
  destruct (object_pairs scan n r4) as [ps r5| |];
    [|split; discriminate|congruence].
  split; [discriminate|]. intros ps' r' E; injection E as _ <-.
  specialize (Hlen' ps r5 eq_refl). lia.
Qed.
End Rounds.

(** With more rounds than the text has characters, [scan_once] ends. *)
Theorem scan_once_total (fuel : nat) : ends_below fuel (scan_once fuel).
Proof.
  induction fuel as [|f IH]; intros s Hs; [lia|].
  destruct s as [|c s']; [split; discriminate|].
  cbn [List.length] in Hs. cbn [scan_once].
  destruct (c =? 34).
  { destruct (scanstring s') as [[k r]|] eqn:Es; [|split; discriminate].
    apply scanstring_length in Es. split; [discriminate|].
    intros v r' E; injection E as _ <-. cbn [List.length]. lia. }
  destruct (c =? 123).
  { unfold JSONObject. pose proof (skip_ws_length s') as Hw.
    destruct (skip_ws s') as [|c1 r]; [split; discriminate|].
    cbn [List.length] in Hw.
    destruct (c1 =? 34).
    - destruct (@object_pairs_ends (scan_once f) f IH f r) as [Hnf Hlen];
        [lia|lia|].
      destruct (object_pairs (scan_once f) f r) as [ps r'| |];
        [|split; discriminate|congruence].
      split; [discriminate|]. intros v r0 E; injection E as _ <-.
      specialize (Hlen ps r' eq_refl). cbn [List.length]. lia.
    - destruct (c1 =? 125); [|split; discriminate].
      split; [discriminate|]. intros v r0 E; injection E as _ <-.
      cbn [List.length]. lia. }
  destruct (c =? 91).
  { unfold JSONArray. pose proof (skip_ws_length s') as Hw.
    destruct (skip_ws s') as [|c1 r] eqn:Ew; [split; discriminate|].
    cbn [List.length] in Hw.
    destruct (c1 =? 93).
    - split; [discriminate|]. intros v r0 E; injection E as _ <-.
      cbn [List.length]. lia.
    - destruct (@array_items_ends (scan_once f) f IH f (c1 :: r))
        as [Hnf Hlen]; [cbn [List.length]; lia|cbn [List.length]; lia|].
      destruct (array_items (scan_once f) f (c1 :: r)) as [vs r'| |];
        [|split; discriminate|congruence].
      split; [discriminate|]. intros v r0 E; injection E as _ <-.
      specialize (Hlen vs r' eq_refl). cbn [List.length] in *. lia. }
  repeat match goal with
         | |- context [strip_prefix ?p ?s] =>
             let E := fresh "E" in
             destruct (strip_prefix p s) as [?r|] eqn:E;
             [apply strip_prefix_length in E; split; [discriminate|];
              intros ?v ?r0 ?E'; injection E' as _ <-; exact E|]
         | |- context [match_number ?s] =>
             let E := fresh "E" in
             destruct (match_number s) as [[?v ?r]|] eqn:E;
             [apply match_number_length in E; split; [discriminate|];
              intros ?v' ?r0 ?E'; injection E' as _ <-; exact E|]
         end.
  split; discriminate.
Qed.


(** ** json.loads on the text of json.dumps *)

Theorem loads_dumps (v : json) :
  valid v = true -> loads (dumps v) = Scanned v [].
Proof.
  intro Hv. destruct (dumps_opening v Hv) as [c [t [Ec Ho]]].
  destruct (@opening_facts _ Ho) as [Hws [_ [_ [_ [Hbom _]]]]].
  unfold loads. rewrite Ec. apply N.eqb_neq in Hbom. rewrite Hbom.
  rewrite (@skip_ws_opening _ _ Hws). rewrite <- Ec.
  destruct (scan_once_dumps v Hv (S (List.length (dumps v))))
    as [[_ [Hread _]] _].
  destruct (@scan_once_total (S (List.length (dumps v))) (dumps v))
    as [Hnf _]; [lia|].
  destruct (Hread [] eq_refl) as [E|E]; rewrite app_nil_r in E;
    [now rewrite E|congruence].
Qed.

Theorem loads_cut (v : json) (p q : str) :
  valid v = true -> is_number v = false ->
  dumps v = p ++ q -> q <> [] -> loads p = Stop.
Proof.
  intros Hv Hn E Hq. destruct (dumps_opening v Hv) as [c [t [Ec Ho]]].
  destruct (@opening_facts _ Ho) as [Hws [_ [_ [_ [Hbom _]]]]].
  destruct p as [|c' p']; [reflexivity|].
  rewrite Ec in E. injection E as <- E'.
  unfold loads. apply N.eqb_neq in Hbom. rewrite Hbom.
  rewrite (@skip_ws_opening _ _ Hws).
  destruct (scan_once_dumps v Hv (S (List.length (c :: p')))) as [_ Hcut].
  destruct (@scan_once_total (S (List.length (c :: p'))) (c :: p'))
    as [Hnf _]; [lia|].
  destruct (Hcut Hn (c :: p') q) as [E|E];
    [rewrite Ec; cbn [app]; now rewrite E'|exact Hq|now rewrite E|congruence].
Qed.

(** ** The text of json.dumps is ASCII *)

Lemma hex_digit_ascii (d : N) : d < 16 -> (hex_digit d <? 128) = true.
Proof.
  intro H. unfold hex_digit. apply N.ltb_lt.
  destruct (d <? 10) eqn:E; [apply N.ltb_lt in E|apply N.ltb_ge in E]; lia.
Qed.

Lemma u_escape_ascii (n : N) : ascii_text (u_escape n) = true.
Proof.
  unfold u_escape, hex4, ascii_text. cbn [forallb].
  rewrite !hex_digit_ascii by (apply N.mod_lt; discriminate). reflexivity.
Qed.

Lemma escape_char_ascii (c : N) : ascii_text (escape_char c) = true.
Proof.
  unfold escape_char.
  repeat match goal with
         | |- context [if ?b then _ else _] =>
             let E := fresh "E" in destruct b eqn:E; try reflexivity
         end.
  - unfold ascii_text. cbn [forallb]. rewrite andb_true_r.
    apply andb_true_iff in E6 as [_ E6]. apply N.leb_le in E6.
    apply N.ltb_lt. lia.
  - apply u_escape_ascii.
  - cbv zeta. unfold ascii_text. rewrite forallb_app.
    fold (ascii_text (u_escape (N.lor 55296 (N.land (N.shiftr (c - 65536) 10) 1023)))).
    fold (ascii_text (u_escape (N.lor 56320 (N.land (c - 65536) 1023)))).
    now rewrite !u_escape_ascii.
Qed.

Lemma encode_basestring_ascii_ascii (s : str) :
  ascii_text (encode_basestring_ascii s) = true.
Proof.
  assert (H : ascii_text (flat_map escape_char s) = true).
  { induction s as [|c s IH]; [reflexivity|].
    cbn [flat_map]. unfold ascii_text in *. rewrite forallb_app, IH.
    fold (ascii_text (escape_char c)). now rewrite escape_char_ascii. }
  unfold encode_basestring_ascii, ascii_text in *. cbn [forallb].
  rewrite forallb_app, H. reflexivity.
Qed.

Lemma join_ascii (sep : str) (parts : list str) :
  ascii_text sep = true -> forallb ascii_text parts = true ->
  ascii_text (join sep parts) = true.
Proof.
  intro Hs. induction parts as [|p ps IH]; intro H; [reflexivity|].
  cbn [forallb] in H. apply andb_true_iff in H as [Hp Hps].
  rewrite join_cons. unfold ascii_text in *. rewrite forallb_app, Hp.
  destruct ps as [|p' ps]; [reflexivity|].
  rewrite forallb_app, Hs. now apply IH.
Qed.

Lemma number_chars_ascii (s : str) :
  forallb number_char s = true -> ascii_text s = true.
Proof.
  unfold ascii_text. induction s as [|c s IH]; intro H; [reflexivity|].
  cbn [forallb] in *. apply andb_true_iff in H as [Hc Hs].
  rewrite (IH Hs), andb_true_r. apply N.ltb_lt.
  unfold number_char, is_digit in Hc.
  repeat (apply orb_true_iff in Hc as [Hc|Hc]);
    try (apply N.eqb_eq in Hc; lia).
  apply andb_true_iff in Hc as [_ Hc]. apply N.leb_le in Hc. lia.
Qed.

Theorem dumps_ascii (v : json) :
  valid v = true -> ascii_text (dumps v) = true.
Proof.
  induction v as [ |b|z|t|s|items IH|d IH] using json_induction; intro Hv.
  - reflexivity.
  - destruct b; reflexivity.
  - apply number_chars_ascii, int_repr_number_chars.
  - cbn [valid] in Hv. unfold float_text in Hv.
    apply andb_true_iff in Hv as [Hall _]. now apply number_chars_ascii.
  - apply encode_basestring_ascii_ascii.
  - cbn [valid] in Hv. cbn [dumps]. unfold ascii_text. cbn [forallb].
    rewrite forallb_app. cbn [forallb]. rewrite andb_true_r.
    apply (@join_ascii (lit ", ")); [reflexivity|].
    rewrite forallb_forall in *. rewrite Forall_forall in IH.
    intros text Hin. apply in_map_iff in Hin as [x [<- Hx]].
    apply (IH x Hx), (Hv x Hx).
  - cbn [valid] in Hv. apply andb_true_iff in Hv as [_ Hv].
    cbn [dumps]. unfold ascii_text. cbn [forallb].
    rewrite forallb_app. cbn [forallb]. rewrite andb_true_r.
    apply (@join_ascii (lit ", ")); [reflexivity|].
    rewrite forallb_forall in *. rewrite Forall_forall in IH.
    intros text Hin. apply in_map_iff in Hin as [[k x] [<- Hx]].
    specialize (Hv _ Hx). cbn beta iota in Hv.
    apply andb_true_iff in Hv as [_ Hv].
    unfold ascii_text. rewrite !forallb_app.
    fold (ascii_text (encode_basestring_ascii k)).
    rewrite encode_basestring_ascii_ascii.
    pose proof (IH _ Hx Hv) as Hd. cbn [snd] in Hd.
    fold (ascii_text (dumps x)). now rewrite Hd.
Qed.

(** ** UTF-8 on ASCII text *)

Lemma to_N_byte_of (c : N) : c < 256 -> Byte.to_N (Utf8.byte_of c) = c.
Proof.
  intro H. unfold Utf8.byte_of.
  destruct (Byte.of_N c) as [b|] eqn:E.
  - now apply Byte.to_of_N.
  - apply Byte.of_N_None_iff in E. lia.
Qed.

Lemma encode_ascii (s : str) :
  ascii_text s = true -> Utf8.encode s = Some (map Utf8.byte_of s).
Proof.
  unfold ascii_text. induction s as [|c s IH]; intro H; [reflexivity|].
  cbn [forallb] in H. apply andb_true_iff in H as [Hc Hs].
  cbn [Utf8.encode map]. unfold Utf8.encode_char.
  change 0x80 with 128. rewrite Hc, (IH Hs). reflexivity.
Qed.

Lemma decode_ascii (s : str) :
  ascii_text s = true -> Utf8.decode (map Utf8.byte_of s) = Some s.
Proof.
  unfold ascii_text. induction s as [|c s IH]; intro H; [reflexivity|].
  cbn [forallb] in H. apply andb_true_iff in H as [Hc Hs].
  cbn [map Utf8.decode]. pose proof Hc as Hlt. apply N.ltb_lt in Hlt.
  rewrite to_N_byte_of by lia. change 0x80 with 128.
  rewrite Hc, (IH Hs). reflexivity.
Qed.

(** ** The bytes of a command on the wire *)

(** The bytes of a valid value parse back to it, and no proper prefix
    of the bytes of a valid value that is not a number parses. *)
Theorem loads_bytes_dumps_bytes (v : json) :
  valid v = true ->
  dumps_bytes v = Some (map Utf8.byte_of (dumps v))
  /\ loads_bytes (map Utf8.byte_of (dumps v)) = Ok v
  /\ (is_number v = false ->
      forall bp bq, map Utf8.byte_of (dumps v) = bp ++ bq -> bq <> [] ->
                    loads_bytes bp = Raise JSONDecodeError).
Proof.
  intro Hv. pose proof (dumps_ascii v Hv) as Ha. repeat split.
  - unfold dumps_bytes. now apply encode_ascii.
  - unfold loads_bytes. rewrite decode_ascii by exact Ha.
    now rewrite loads_dumps.
  - intros Hn bp bq E Hq.
    apply map_eq_app in E as [p [q [E [<- <-]]]].
    assert (Hp : ascii_text p = true).
    { unfold ascii_text in *. rewrite E, forallb_app in Ha.
      now apply andb_true_iff in Ha as [Ha _]. }
    unfold loads_bytes. rewrite decode_ascii by exact Hp.
    rewrite (@loads_cut v p q Hv Hn E); [reflexivity|].
    intros ->. now apply Hq.
Qed.

End CodecFacts.

(* ================================================================== *)
(** * Framing: a command in chunks *)


Section Framing.
Import Encoder Decoder MayaMCPServer.
Variable scene : Type.
Variable cmds : cmds_api scene.
Variable round2 : str -> str.

Lemma run_app (es1 es2 : list event) (c : connection scene) :
  run cmds round2 (es1 ++ es2) c = run cmds round2 es2 (run cmds round2 es1 c).
Proof. unfold run. apply fold_left_app. Qed.

(** Chunks that leave the receiver waiting only grow the buffer. *)
Lemma run_waiting (chunks : list bytes) (c : connection scene) :
  client_open c = true -> running c = true ->
  waiting (buffer c) chunks = true ->
  run cmds round2 (receive chunks) c
  = buffering (buffer c ++ join_bytes chunks) c.
Proof.
  revert c. induction chunks as [|d chunks IH]; intros c Ho Hr Hw.
  - unfold join_bytes. cbn [concat]. rewrite app_nil_r.
    destruct c; reflexivity.
  - cbn [waiting] in Hw.
    apply andb_true_iff in Hw as [Hw Hrest].
    apply andb_true_iff in Hw as [Hd Hl].
    cbn [receive map run fold_left step].
    assert (E : handle_client_round (recv_data d) c
                = buffering (buffer c ++ d) c).
    { unfold handle_client_round. rewrite Ho, Hr. cbn [negb].
      destruct d as [|b d]; [discriminate|].
      unfold bytes in *.
      destruct (loads_bytes (buffer c ++ b :: d)) as [v|[|]];
        try discriminate.
      unfold buffering. now rewrite Ho, Hr. }
    rewrite E.
    change (fold_left (fun c0 e => step cmds round2 e c0)
              (map (fun data => Recv (recv_data data)) chunks)
              (buffering (buffer c ++ d) c))
      with (run cmds round2 (receive chunks) (buffering (buffer c ++ d) c)).
    rewrite IH; [|exact Ho|exact Hr|exact Hrest].
    unfold buffering, join_bytes. cbn [buffer concat running command
      client_open deferred sent host]. now rewrite app_assoc.
Qed.

(** The chunks of a text no proper prefix of which parses, but for
    the last, leave the receiver waiting. *)
Lemma chunks_waiting (data : bytes) :
  (forall bp bq, data = bp ++ bq -> bq <> [] ->
                 loads_bytes bp = Raise JSONDecodeError) ->
  forall (pre post : list bytes) (acc : bytes),
    forallb nonempty (pre ++ post) = true ->
    acc ++ join_bytes (pre ++ post) = data ->
    post <> [] ->
    waiting acc pre = true.
Proof.
  intros Hcut pre. induction pre as [|d pre IH];
    intros post acc Hne E Hpost; [reflexivity|].
  cbn [app forallb] in Hne. apply andb_true_iff in Hne as [Hd Hne].
  cbn [waiting]. rewrite Hd. cbn [andb].
  assert (Hrest : join_bytes (pre ++ post) <> []).
  { destruct post as [|x post]; [congruence|].
    rewrite forallb_app in Hne. apply andb_true_iff in Hne as [_ Hx].
    cbn [forallb] in Hx. apply andb_true_iff in Hx as [Hx _].
    rewrite join_bytes_app. unfold join_bytes at 2. cbn [concat].
    destruct x as [|b x]; [discriminate|].
    intro F. apply app_eq_nil in F as [_ F]. discriminate. }
  rewrite (Hcut (acc ++ d) (join_bytes (pre ++ post))); [|
    rewrite <- E; unfold join_bytes; cbn [app concat];
    now rewrite <- app_assoc | exact Hrest].
  apply IH with (post := post); [exact Hne| |exact Hpost].
  rewrite <- E. unfold join_bytes. cbn [app concat].
  now rewrite <- app_assoc.
Qed.

(** C3: the bytes of a valid command, cut into non-empty chunks in
    any way and read one chunk at a time by a connection whose buffer
    is empty.  A valid command is one [json.dumps] serializes and
    [json.loads] reads back: its strings are Unicode text, the keys
    of each dict are distinct, and it is within the limits of the
    library on the digits of an integer and on nesting.  As long as
    chunks are to come, the handling thread only accumulates: the
    buffer holds the bytes read so far, no wrapper is queued and
    nothing is written.  With the last chunk the buffer parses for
    the first time, to the very command that was serialized; the
    buffer is cleared and one wrapper is queued; and the command that
    wrapper executes is that command. *)
Theorem command_survives_chunking
        (command_type : str) (params : json) (chunks : list bytes)
        (c : connection scene) :
  text_ok command_type = true ->
  valid params = true ->
  within_limits (Command command_type params) = true ->
  forallb nonempty chunks = true ->
  dumps_bytes (Command command_type params) = Some (join_bytes chunks) ->
  client_open c = true -> running c = true -> buffer c = [] ->
  (forall pre post, chunks = pre ++ post -> post <> [] ->
     run cmds round2 (receive pre) c = buffering (join_bytes pre) c
     /\ loads_bytes (join_bytes pre) = Raise JSONDecodeError)
  /\ loads_bytes (join_bytes chunks) = Ok (Command command_type params)
  /\ run cmds round2 (receive chunks) c
     = dispatching (Command command_type params) c
  /\ (forall peer_ok,
        runs (host (step cmds round2 (Idle peer_ok)
                      (run cmds round2 (receive chunks) c)))
        = runs (host c)
          ++ [{| ran_on := main_thread;
                 via_executeInMainThreadWithResult :=
                   mutating (JStr command_type);
                 ran_command := Command command_type params |}]).
Proof.
  intros Hct Hp _ Hne Hdata Ho Hr Hb.
  assert (Hv : valid (Command command_type params) = true).
  { unfold Command. cbn [valid map fst forallb]. rewrite Hct, Hp.
    reflexivity. }
  assert (Hn : is_number (Command command_type params) = false)
    by reflexivity.
  set (cmd := Command command_type params) in *.
  destruct (loads_bytes_dumps_bytes _ Hv) as [Hd [Hl Hcut]].
  assert (Hd' : map Utf8.byte_of (dumps cmd) = join_bytes chunks)
    by congruence.
  rewrite Hd' in Hl, Hcut. clear Hd Hd'.
  specialize (Hcut Hn).
  assert (Hwait : forall pre post, chunks = pre ++ post -> post <> [] ->
            waiting [] pre = true).
  { intros pre post E Hpost.
    apply chunks_waiting with (data := join_bytes chunks) (post := post);
      [exact Hcut|now rewrite <- E|now rewrite <- E|exact Hpost]. }
  assert (Hlast : chunks <> []).
  { intros ->. unfold join_bytes in Hl. cbn [concat] in Hl. discriminate. }
  destruct (exists_last Hlast) as [pre [d E]].
  assert (Hfinal : run cmds round2 (receive chunks) c = dispatching cmd c).
  { rewrite E. unfold receive. rewrite map_app. rewrite run_app.
    fold (receive pre).
    rewrite (@run_waiting pre c);
      [|exact Ho|exact Hr|
       rewrite Hb; apply Hwait with (post := [d]); [exact E|discriminate]].
    rewrite Hb. cbn [app map run fold_left step].
    unfold handle_client_round, buffering.
    cbn [client_open running buffer]. rewrite Ho, Hr. cbn [negb].
    rewrite E, forallb_app in Hne. apply andb_true_iff in Hne as [_ Hd'].
    cbn [forallb] in Hd'. apply andb_true_iff in Hd' as [Hd' _].
    destruct d as [|b d]; [discriminate|].
    rewrite E, join_bytes_snoc in Hl. rewrite Hl.
    unfold dispatching. cbn [command deferred sent host].
    now rewrite Ho, Hr. }
  split; [|split; [exact Hl|split; [exact Hfinal|]]].
  - intros pre' post E' Hpost. split.
    + rewrite run_waiting by
        (try assumption; rewrite Hb; now apply Hwait with (post := post)).
      now rewrite Hb.
    + destruct pre' as [|x pre'].
      * apply (Hcut [] (join_bytes chunks)); [reflexivity|].
        intro F. rewrite F in Hl. discriminate.
      * apply (@waiting_last_fails (x :: pre') []);
          [now apply Hwait with (post := post)|discriminate].
  - intro peer_ok. rewrite Hfinal. unfold dispatching.
    cbn [step deferred]. unfold execute_wrapper.
    cbn [command host running buffer client_open sent deferred].
    pose proof (execute_command_runs cmds round2 main_thread cmd (host c))
      as Hruns.
    destruct (execute_command cmds round2 main_thread cmd (host c))
      as [[r|e] h];
      cbn [snd] in Hruns; unfold sendall_or_pass; cbn [host];
      rewrite Hruns; unfold cmd, Command, dict_get_or;
      cbn [dict_get]; rewrite str_eqb_refl;
      destruct (mutating (JStr command_type)); reflexivity.
Qed.
End Framing.

Lemma command_survives_chunking_witness :
  MayaMCPServer.run Demo.cmds Demo.round2
    (receive (byte_by_byte
                (wire_bytes (Command (lit "create_object") cafe_cube))))
    (MayaMCPServer.accepted Demo.empty)
  = dispatching (Command (lit "create_object") cafe_cube)
                (MayaMCPServer.accepted Demo.empty).
Proof.
  apply (proj1 (proj2 (proj2
           (@command_survives_chunking Demo.scene Demo.cmds Demo.round2
              (lit "create_object") cafe_cube
              (byte_by_byte
                 (wire_bytes (Command (lit "create_object") cafe_cube)))
              (MayaMCPServer.accepted Demo.empty)
              eq_refl eq_refl eq_refl eq_refl eq_refl eq_refl eq_refl
              eq_refl)))).
Defined.

(* ================================================================== *)
(** * The handlers of the server, beyond the requests that succeed *)

Lemma dict_get_set (V : Type) (d : dict V) (k k' : str) (v : V) :
  dict_get (dict_set d k v) k'
  = if str_eqb k k' then Some v else dict_get d k'.
Proof.
  induction d as [|[k0 v0] d IH]; cbn [dict_set dict_get].
  - reflexivity.
  - destruct (str_eqb k0 k) eqn:E0.
    + apply str_eqb_eq in E0. subst k0. cbn [dict_get].
      now destruct (str_eqb k k').
    + cbn [dict_get]. destruct (str_eqb k0 k') eqn:E1; [|exact IH].
      apply str_eqb_eq in E1. subst k0. now rewrite str_eqb_sym, E0.
Qed.

Section HandlerEdges.
Import MayaMCPServer.
Variable scene : Type.
Variable cmds : cmds_api scene.
Variable round2 : str -> str.

Lemma obj_info_reads_only (obj : str) (sc : scene) :
  snd (obj_info cmds round2 obj sc) = sc.
Proof.
  unfold obj_info, bind, query, pure, ret.
  destruct (xform_q cmds xf_t (JStr obj) sc) as [position|e]; [|reflexivity].
  destruct (nodeType cmds obj sc) as [type|e]; [|reflexivity].
  destruct (item position 0); [|reflexivity].
  destruct (item position 1); [|reflexivity].
  destruct (item position 2); reflexivity.
Qed.

Lemma collect_objects_reads_only (objs : list str) :
  forall (i : nat) (acc : list json) (sc : scene),
    snd (collect_objects cmds round2 i objs acc sc) = sc.
Proof.
  induction objs as [|obj rest IH]; intros i acc sc; cbn [collect_objects].
  - reflexivity.
  - destruct (10 <=? i); [reflexivity|].
    unfold bind. pose proof (obj_info_reads_only obj sc) as Ho.
    destruct (obj_info cmds round2 obj sc) as [[info|e] sc']; cbn [snd] in Ho;
      subst sc'; [apply IH|reflexivity].
Qed.

(** [get_scene_info] returns whatever the host does, and leaves the
    document as it found it. *)
Lemma get_scene_info_returns (params : json) (sc : scene) :
  exists r, get_scene_info cmds round2 params sc = (Ok r, sc).
Proof.
  unfold get_scene_info, try_except, bind, query, ret.
  destruct (file_sn cmds sc) as [sn|e]; [|eexists; reflexivity].
  destruct (ls_transforms cmds sc) as [objs|e]; [|eexists; reflexivity].
  destruct (ls_materials cmds sc) as [mats|e]; [|eexists; reflexivity].
  pose proof (collect_objects_reads_only objs 0 [] sc) as Hc.
  destruct (collect_objects cmds round2 0 objs [] sc) as [[objects|e] sc'];
    cbn [snd] in Hc; subst sc'; eexists; reflexivity.
Qed.

(** What [execute_command] makes of a command whose name is in the
    dispatch table. *)
Lemma execute_command_registered (th : thread) (d : dict json) (name : str)
      (handler : bound_method) (h : host_state scene) :
  dict_get d (lit "command") = Some (JStr name) ->
  dict_get handlers name = Some handler ->
  execute_command cmds round2 th (JDict d) h
  = (Ok match fst (call cmds round2 handler
                     (get_or d (lit "params") (JDict [])) (doc h)) with
        | Ok result => JDict [(lit "status", JStr (lit "success"));
                              (lit "result", result)]
        | Raise e => JDict [(lit "status", JStr (lit "error"));
                            (lit "message", JStr e)]
        end,
     {| doc := snd (call cmds round2 handler
                      (get_or d (lit "params") (JDict [])) (doc h));
        runs := runs h ++
          [{| ran_on := if mutating (JStr name) then main_thread else th;
              via_executeInMainThreadWithResult := mutating (JStr name);
              ran_command := JDict d |}] |}).
Proof.
  intros Hc Hh.
  assert (Hi : forall sc,
    _execute_command_internal cmds round2 (JDict d) sc
    = match call cmds round2 handler
              (get_or d (lit "params") (JDict [])) sc with
      | (Ok result, sc') =>
          (Ok (JDict [(lit "status", JStr (lit "success"));
                      (lit "result", result)]), sc')
      | (Raise e, sc') => (Raise e, sc')
      end).
  { intro sc.
    unfold _execute_command_internal, bind, pure, get, dict_get_or, get_or, ret.
    rewrite Hc. cbn [handlers_get]. rewrite Hh.
    destruct (dict_get d (lit "params")); reflexivity. }
  unfold execute_command, try_except, bind, pure, get, dict_get_or, ret.
  rewrite Hc.
  unfold executeInMainThreadWithResult, run_internal.
  destruct (mutating (JStr name)); cbv beta; rewrite Hi;
    destruct (call cmds round2 handler _ (doc h)) as [[r|e] sc'];
    reflexivity.
Qed.

(** X1: a [get_scene_info] command is always answered with the
    status [success], and the document is not touched: when a call to
    [maya.cmds] raises inside the handler -- the query of the file
    name, of the transforms or of the materials -- the [result] of
    that successful reply is the dict [{"error": str(e)}]. *)
Theorem get_scene_info_failure_is_answered_as_success
        (th : thread) (d : dict json) (h : host_state scene) :
  dict_get d (lit "command") = Some (JStr (lit "get_scene_info")) ->
  exists result,
    execute_command cmds round2 th (JDict d) h
    = (Ok (JDict [(lit "status", JStr (lit "success"));
                  (lit "result", result)]),
       {| doc := doc h;
          runs := runs h ++
            [{| ran_on := th; via_executeInMainThreadWithResult := false;
                ran_command := JDict d |}] |})
    /\ (forall e,
          file_sn cmds (doc h) = Raise e
          \/ (exists sn, file_sn cmds (doc h) = Ok sn)
             /\ ls_transforms cmds (doc h) = Raise e
          \/ (exists sn, file_sn cmds (doc h) = Ok sn)
             /\ (exists objs, ls_transforms cmds (doc h) = Ok objs)
             /\ ls_materials cmds (doc h) = Raise e ->
          result = JDict [(lit "error", JStr e)]).
Proof.
  intro Hc.
  rewrite (@execute_command_registered th d (lit "get_scene_info")
             self_get_scene_info h Hc eq_refl).
  cbn [call].
  destruct (get_scene_info_returns (get_or d (lit "params") (JDict [])) (doc h))
    as [r Hr].
  exists r. rewrite Hr. cbn [fst snd]. split; [reflexivity|].
  intros e He. revert Hr.
  unfold get_scene_info, try_except, bind, query, ret.
  destruct He as [He|[[[sn Hs] He]|[[sn Hs] [[objs Ho] He]]]].
  - rewrite He. now intros [= <-].
  - rewrite Hs, He. now intros [= <-].
  - rewrite Hs, Ho, He. now intros [= <-].
Qed.

(** X2: [create_object] on params that are not a dict -- [null], a list,
    a number, a string -- raises at its first line, before any call to
    [maya.cmds]; the command gets the error reply with the message of
    that [AttributeError], and the document is as it was. *)
Theorem create_object_needs_a_dict
        (th : thread) (params : json) (h : host_state scene) :
  (forall d, params <> JDict d) ->
  create_object cmds params (doc h)
  = (Raise (lit "'" ++ type_name params
              ++ lit "' object has no attribute 'get'"), doc h)
  /\ execute_command cmds round2 th
       (Command (lit "create_object") params) h
     = (Ok (JDict [(lit "status", JStr (lit "error"));
                   (lit "message",
                    JStr (lit "'" ++ type_name params
                            ++ lit "' object has no attribute 'get'"))]),
        {| doc := doc h;
           runs := runs h ++
             [{| ran_on := main_thread;
                 via_executeInMainThreadWithResult := true;
                 ran_command := Command (lit "create_object") params |}] |}).
Proof.
  intro Hd.
  assert (Hc : create_object cmds params (doc h)
               = (Raise (lit "'" ++ type_name params
                           ++ lit "' object has no attribute 'get'"), doc h)).
  { unfold create_object, bind, pure, get, dict_get_or.
    destruct params; try reflexivity. now destruct (Hd d). }
  split; [exact Hc|].
  unfold Command.
  rewrite (@execute_command_registered th
             [(lit "command", JStr (lit "create_object"));
              (lit "params", params)]
             (lit "create_object") self_create_object h eq_refl eq_refl).
  cbn [call]. unfold get_or. cbn [dict_get].
  change (str_eqb (lit "command") (lit "params")) with false.
  rewrite str_eqb_refl. cbv iota.
  rewrite Hc. reflexivity.
Qed.

(** X3: a registered command whose handler raises midway is answered with
    the error reply that carries [str(e)], and what the handler had
    done to the document by then stays done: when [polyCube] has made
    the cube and the first [xform] raises, the reply is an error and
    the document is the one [xform] left. *)
Theorem create_object_failure_keeps_the_cube
        (th : thread) (d p : dict json) (h : host_state scene)
        (cube : str) (others : list str) (sc1 sc2 : scene) (e : str) :
  dict_get d (lit "command") = Some (JStr (lit "create_object")) ->
  dict_get d (lit "params") = Some (JDict p) ->
  polyCube cmds (get_or p (lit "type") (JStr (lit "pCube1"))) (doc h)
    = (Ok (cube :: others), sc1) ->
  xform cmds xf_t (JStr cube)
    (get_or p (lit "location") (JList [JInt 0; JInt 0; JInt 0])) sc1
    = (Raise e, sc2) ->
  execute_command cmds round2 th (JDict d) h
  = (Ok (JDict [(lit "status", JStr (lit "error"));
                (lit "message", JStr e)]),
     {| doc := sc2;
        runs := runs h ++
          [{| ran_on := main_thread;
              via_executeInMainThreadWithResult := true;
              ran_command := JDict d |}] |}).
Proof.
  intros Hc Hp Hcube Hx.
  rewrite (@execute_command_registered th d (lit "create_object")
             self_create_object h Hc eq_refl).
  cbn [call]. unfold get_or at 1 2. rewrite Hp.
  assert (Hr : create_object cmds (JDict p) (doc h) = (Raise e, sc2)).
  { unfold create_object, bind, pure, get, dict_get_or.
    unfold get_or in Hcube, Hx.
    destruct (dict_get p (lit "type")) as [ty|];
      destruct (dict_get p (lit "location")) as [lo|];
      destruct (dict_get p (lit "rotation")) as [ro|];
      destruct (dict_get p (lit "scale")) as [sca|];
      cbv beta iota; rewrite Hcube; cbn [item nth_error]; cbv beta iota;
      rewrite Hx; reflexivity. }
  rewrite Hr. reflexivity.
Qed.
End HandlerEdges.

Section ModifyObject.
Import MayaMCPServer.
Variable scene : Type.
Variable cmds : cmds_api scene.

(** X4: [modify_object] reads [visibility] with the default [True],
    so a request that does not mention visibility shows the object.
    For a request that asks for no transformation and names an object
    [cmds.ls] finds: [setAttr] is called on [<object>.visibility]
    with [True], the document is the one that call leaves, and the
    reply is built from the queries made on that document.  The
    request is carried out exactly as the same request with
    ["visibility": true]. *)
Theorem modify_object_shows_the_object_by_default
        (d : dict json) (sc sc1 : scene) (first : str) (others : list str)
        (loc rot sca : list str) (vis : json) :
  dict_get d (lit "visibility") = None ->
  dict_get d (lit "location") = None ->
  dict_get d (lit "rotation") = None ->
  dict_get d (lit "scale") = None ->
  ls cmds (get_or d (lit "name") JNull) sc = Ok (first :: others) ->
  setAttr cmds (first ++ lit ".visibility") (JBool true) sc = (Ok tt, sc1) ->
  xform_q cmds xf_t (JList (map JStr (first :: others))) sc1 = Ok loc ->
  xform_q cmds xf_ro (JList (map JStr (first :: others))) sc1 = Ok rot ->
  xform_q cmds xf_s (JList (map JStr (first :: others))) sc1 = Ok sca ->
  getAttr cmds (first ++ lit ".visibility") sc1 = Ok vis ->
  modify_object cmds (JDict d) sc
  = (Ok (JDict [(lit "name", get_or d (lit "name") JNull);
                (lit "location", floats loc);
                (lit "rotation", floats rot);
                (lit "scale", floats sca);
                (lit "visibility", vis)]), sc1)
  /\ modify_object cmds (JDict d) sc
     = modify_object cmds
         (JDict (dict_set d (lit "visibility") (JBool true))) sc.
Proof.
  intros Hv Hl Hr Hs Hls Hset Hqt Hqr Hqs Hget. split.
  - unfold modify_object, get, dict_get_or, bind, pure, query.
    fold (get_or d (lit "name") JNull). rewrite Hls, Hl, Hr, Hs, Hv.
    cbn [is_not_None when ret item nth_error].
    unfold bind, pure. rewrite Hset. rewrite Hqt, Hqr, Hqs, Hget.
    reflexivity.
  - unfold modify_object, get, dict_get_or.
    rewrite !dict_get_set. rewrite Hv.
    change (str_eqb (lit "visibility") (lit "name")) with false.
    change (str_eqb (lit "visibility") (lit "location")) with false.
    change (str_eqb (lit "visibility") (lit "rotation")) with false.
    change (str_eqb (lit "visibility") (lit "scale")) with false.
    rewrite str_eqb_refl. reflexivity.
Qed.

Lemma bind_raises (S E A B : Type) (m : M S E A) (k : A -> M S E B) (s : S) :
  (forall a s', exists e s'', k a s' = (Raise e, s'')) ->
  exists e s'', bind m k s = (Raise e, s'').
Proof.
  intro H. unfold bind. destruct (m s) as [[a|e] s']; [apply H|eauto].
Qed.

(** X5: [modify_object] never returns when [cmds.ls] finds no object of
    the name: every path ends in an exception, of [maya.cmds] or the
    [IndexError] of [obj[0]].  When the request asks for nothing but
    the name, that [IndexError] is what is raised, and the document is
    untouched. *)
Theorem modify_object_raises_without_the_object
        (d : dict json) (sc : scene) :
  ls cmds (get_or d (lit "name") JNull) sc = Ok [] ->
  (exists e sc', modify_object cmds (JDict d) sc = (Raise e, sc'))
  /\ (dict_get d (lit "location") = None ->
      dict_get d (lit "rotation") = None ->
      dict_get d (lit "scale") = None ->
      dict_get d (lit "visibility") <> Some JNull ->
      modify_object cmds (JDict d) sc
      = (Raise (lit "list index out of range"), sc)).
Proof.
  intro Hls. split.
  - unfold modify_object, get, dict_get_or.
    fold (get_or d (lit "name") JNull).
    unfold pure at 1. unfold bind at 1. unfold query at 1. unfold bind at 1.
    rewrite Hls.
    unfold pure at 1 2 3 4. unfold bind at 1 2 3 4. cbn [map].
    apply bind_raises; intros _ s1.
    apply bind_raises; intros _ s2.
    apply bind_raises; intros _ s3.
    apply bind_raises; intros _ s4.
    apply bind_raises; intros loc s5.
    apply bind_raises; intros rot s6.
    apply bind_raises; intros sca s7.
    unfold bind, pure, item. cbn [nth_error]. eauto.
  - intros Hl Hr Hs Hv.
    unfold modify_object, get, dict_get_or, bind, pure, query.
    fold (get_or d (lit "name") JNull). rewrite Hls, Hl, Hr, Hs.
    cbn [is_not_None when ret map].
    destruct (dict_get d (lit "visibility")) as [[ ]|]; try congruence;
      reflexivity.
Qed.
End ModifyObject.

(* ================================================================== *)
(** * What follows a complete value in the buffer *)

Section ExtraData.
Import Encoder Decoder.
Local Open Scope N_scope.

(** The scanner reads a dict back whatever follows its closing
    brace. *)
Lemma scan_once_dict_then (d : list (str * json)) (fuel : nat) (rest : str) :
  valid (JDict d) = true ->
  yields (scan_once fuel (dumps (JDict d) ++ rest)) (JDict d) rest.
Proof.
  intro Hv'. pose proof Hv' as Hv. cbn [valid] in Hv.
  apply andb_true_iff in Hv as [Hkeys Hv].
  assert (Hd : forall f, Forall (entry_read_by (scan_once f)) d).
  { intro f. rewrite forallb_forall in Hv. rewrite Forall_forall.
    intros [k x] Hx. specialize (Hv _ Hx). cbn beta iota in Hv.
    apply andb_true_iff in Hv as [Hk Hx'].
    split; [exact Hk|]. exact (proj1 (scan_once_dumps x Hx' f)). }
  assert (Htext : dumps (JDict d)
                  = 123 :: match d with
                           | [] => []
                           | _ :: _ => 34 :: entries_text d
                           end ++ [125]).
  { cbn [dumps]. change (lit ", ") with [44; 32].
    change (lit ": ") with [58; 32].
    destruct d as [|kv d]; [reflexivity|].
    now rewrite dict_text by discriminate. }
  rewrite Htext.
  destruct fuel as [|f]; [now right|].
  cbn [app scan_once]. change (123 =? 34) with false.
  change (123 =? 123) with true. cbv iota.
  rewrite <- app_assoc. unfold JSONObject.
  destruct d as [|kv d].
  - cbn [app skip_ws is_ws N.eqb Pos.eqb orb]. now left.
  - cbn [app skip_ws is_ws N.eqb Pos.eqb orb].
    destruct (@object_pairs_reads (scan_once f) (kv :: d)
                ltac:(discriminate) (Hd f) f rest) as [Er|Er]; rewrite Er;
      [|now right].
    rewrite dict_of_pairs_distinct by exact Hkeys. now left.
Qed.

(** [json.loads] refuses a dict that is followed by anything but
    white space. *)
Lemma loads_extra_data (d : list (str * json)) (c : N) (t : str) :
  valid (JDict d) = true -> is_ws c = false ->
  loads (dumps (JDict d) ++ c :: t) = Stop.
Proof.
  intros Hv Hc.
  destruct (dumps_opening (JDict d) Hv) as [c0 [t0 [Ec Ho]]].
  destruct (@opening_facts _ Ho) as [Hws [_ [_ [_ [Hbom _]]]]].
  unfold loads. rewrite Ec. cbn [app].
  apply N.eqb_neq in Hbom. rewrite Hbom.
  rewrite (@skip_ws_opening _ _ Hws).
  change (c0 :: t0 ++ c :: t) with ((c0 :: t0) ++ c :: t). rewrite <- Ec.
  destruct (@scan_once_total (S (List.length (dumps (JDict d) ++ c :: t)))
              (dumps (JDict d) ++ c :: t)) as [Hnf _]; [lia|].
  destruct (@scan_once_dict_then d
              (S (List.length (dumps (JDict d) ++ c :: t))) (c :: t) Hv)
    as [E|E]; [|congruence].
  rewrite E. now rewrite (@skip_ws_opening _ _ Hc).
Qed.

Lemma decode_ascii_app (s : str) (more : bytes) :
  ascii_text s = true ->
  Utf8.decode (map Utf8.byte_of s ++ more)
  = option_map (app s) (Utf8.decode more).
Proof.
  unfold ascii_text. induction s as [|c s IH]; intro H.
  - cbn [map app]. now destruct (Utf8.decode more).
  - cbn [forallb] in H. apply andb_true_iff in H as [Hc Hs].
    cbn [map app Utf8.decode]. pose proof Hc as Hlt. apply N.ltb_lt in Hlt.
    rewrite to_N_byte_of by lia. change 0x80 with 128.
    rewrite Hc, (IH Hs). now destruct (Utf8.decode more).
Qed.

(** The bytes of a dict followed by the bytes of another value, and
    then by any bytes at all, never parse. *)
Lemma loads_bytes_two_values (d : list (str * json)) (b : json)
      (more : bytes) :
  valid (JDict d) = true -> valid b = true ->
  forall v, loads_bytes (wire_bytes (JDict d) ++ wire_bytes b ++ more)
            <> Ok v.
Proof.
  intros Hd Hb v.
  destruct (loads_bytes_dumps_bytes (JDict d) Hd) as [Ed _].
  destruct (loads_bytes_dumps_bytes b Hb) as [Eb _].
  unfold wire_bytes. rewrite Ed, Eb.
  unfold loads_bytes.
  rewrite decode_ascii_app by now apply dumps_ascii.
  rewrite decode_ascii_app by now apply dumps_ascii.
  destruct (Utf8.decode more) as [s|]; cbn [option_map]; [|discriminate].
  destruct (dumps_opening b Hb) as [c [t [Ec Ho]]].
  destruct (@opening_facts _ Ho) as [Hws _].
  rewrite Ec. cbn [app].
  now rewrite (@loads_extra_data d c (t ++ s) Hd Hws).
Qed.
End ExtraData.

(* ================================================================== *)
(** * A connection that is not used one command at a time *)

Section Pipelining.
Import MayaMCPServer.
Variable scene : Type.
Variable cmds : cmds_api scene.
Variable round2 : str -> str.

(** What a round of the handling thread does with data that parses. *)
Lemma handle_client_round_parses (data : bytes) (cmd : json)
      (c : connection scene) :
  client_open c = true -> running c = true -> data <> [] ->
  loads_bytes (buffer c ++ data) = Ok cmd ->
  handle_client_round (recv_data data) c = dispatching cmd c.
Proof.
  intros Ho Hr Hd Hl. unfold handle_client_round, dispatching.
  rewrite Ho, Hr. cbn [negb].
  destruct data as [|b data]; [congruence|].
  unfold bytes in *. now rewrite Hl.
Qed.

(** What a wrapper leaves alone, and what it does to the host. *)
Lemma execute_wrapper_frame (th : thread) (peer_ok : bool)
      (c : connection scene) :
  deferred (execute_wrapper cmds round2 th peer_ok c) = deferred c
  /\ command (execute_wrapper cmds round2 th peer_ok c) = command c
  /\ client_open (execute_wrapper cmds round2 th peer_ok c) = client_open c
  /\ running (execute_wrapper cmds round2 th peer_ok c) = running c
  /\ buffer (execute_wrapper cmds round2 th peer_ok c) = buffer c.
Proof.
  unfold execute_wrapper. destruct (command c) as [cmd|] eqn:E; [|now auto].
  destruct (execute_command cmds round2 th cmd (host c)) as [[r|e] h];
    cbn [sendall_or_pass deferred command client_open running buffer];
    auto.
Qed.

Lemma execute_wrapper_host (th : thread) (peer_ok : bool)
      (c : connection scene) :
  host (execute_wrapper cmds round2 th peer_ok c)
  = match command c with
    | Some cmd => snd (execute_command cmds round2 th cmd (host c))
    | None => host c
    end.
Proof.
  unfold execute_wrapper. destruct (command c) as [cmd|]; [|reflexivity].
  now destruct (execute_command cmds round2 th cmd (host c)) as [[r|e] h].
Qed.

(** X6: two commands parsed before the main thread of Maya is idle: both
    wrappers read the variable [command] when they run, and by then it
    holds the second command.  The second command is executed twice
    and the first never. *)
Theorem pipelined_commands_run_the_last_one_twice
        (first second : bytes) (a : json) (b : dict json)
        (p1 p2 : bool) (c : connection scene) :
  client_open c = true -> running c = true -> buffer c = [] ->
  first <> [] -> second <> [] ->
  loads_bytes first = Ok a ->
  loads_bytes second = Ok (JDict b) ->
  map ran_command
    (runs (host (run cmds round2
                   [Recv (recv_data first); Recv (recv_data second);
                    Idle p1; Idle p2] c)))
  = map ran_command (runs (host c)) ++ [JDict b; JDict b].
Proof.
  intros Ho Hr Hb H1 H2 La Lb.
  cbn [run fold_left step].
  rewrite (@handle_client_round_parses first a c Ho Hr H1)
    by (rewrite Hb; exact La).
  rewrite (@handle_client_round_parses second (JDict b) (dispatching a c))
    by (try exact H2; cbn [dispatching client_open running buffer];
        assumption).
  cbn [dispatching deferred client_open running buffer command sent host].
  match goal with
  | |- context [execute_wrapper cmds round2 main_thread p1 ?c1] =>
      set (w1 := execute_wrapper cmds round2 main_thread p1 c1);
      destruct (execute_wrapper_frame main_thread p1 c1)
        as (Fd & Fc & _);
      pose proof (execute_wrapper_host main_thread p1 c1) as Fh
  end.
  fold w1 in Fd, Fc, Fh. cbn [deferred command host] in Fd, Fc, Fh.
  rewrite Fd. rewrite execute_wrapper_host. cbn [command host].
  rewrite Fc, Fh. rewrite !execute_command_runs. cbn [dict_get_or].
  rewrite !map_app. cbn [map ran_command]. now rewrite <- app_assoc.
Qed.

Lemma wedged_step (prefix : bytes) (c c' : connection scene) (e : event) :
  (forall more v, loads_bytes (prefix ++ more) <> Ok v) ->
  wedged prefix c c' -> wedged prefix c (step cmds round2 e c').
Proof.
  intros Hnever (Hd & Hc & Hs & Hh & Hb). destruct e as [r|peer_ok| ].
  - cbn [step]. unfold handle_client_round.
    destruct (client_open c') eqn:Ho; cbn [negb];
      [|repeat split; auto].
    destruct Hb as [Hb|[more Hb]]; [discriminate|].
    destruct (running c'); cbn [negb];
      [|repeat split; cbn [close deferred command sent host client_open];
        auto].
    destruct r as [data|];
      [|repeat split; cbn [close deferred command sent host client_open];
        auto].
    destruct data as [|x data];
      [repeat split; cbn [close deferred command sent host client_open];
       auto|].
    rewrite Hb, <- app_assoc.
    pose proof (Hnever (more ++ x :: data)) as Hn.
    unfold bytes in *.
    destruct (loads_bytes (prefix ++ more ++ x :: data)) as [v|[|]].
    + now destruct (Hn v).
    + repeat split; cbn [deferred command sent host client_open buffer];
        auto. right. now exists (more ++ x :: data).
    + repeat split; cbn [close deferred command sent host client_open];
        auto.
  - cbn [step]. rewrite Hd. repeat split; auto.
  - cbn [step]. repeat split; cbn [deferred command sent host]; auto.
Qed.

(** X7: two commands that arrive in one read on an idle connection: the
    buffer holds the first followed by the second, [json.loads] raises
    [JSONDecodeError] for the extra data, and it does so for
    everything that is appended later.  Whatever happens next on this
    connection, neither command is executed and nothing is ever
    written back. *)
Theorem two_commands_in_one_read_are_never_run
        (a : dict json) (b : json) (events : list event)
        (c : connection scene) :
  valid (JDict a) = true -> valid b = true ->
  client_open c = true -> running c = true -> buffer c = [] ->
  deferred c = 0 ->
  let c' := run cmds round2
              (Recv (recv_data (wire_bytes (JDict a) ++ wire_bytes b))
               :: events) c in
  host c' = host c /\ sent c' = sent c /\ command c' = command c
  /\ deferred c' = 0.
Proof.
  intros Ha Hb Ho Hr Hbuf Hd c'.
  assert (Hnever : forall more v,
            loads_bytes ((wire_bytes (JDict a) ++ wire_bytes b) ++ more)
            <> Ok v).
  { intros more v. rewrite <- app_assoc.
    exact (@loads_bytes_two_values a b more Ha Hb v). }
  remember (wire_bytes (JDict a) ++ wire_bytes b) as both eqn:Eb.
  assert (Hw : forall es c1,
            wedged both c c1 -> wedged both c (run cmds round2 es c1)).
  { induction es as [|e es IH]; intros c1 H1; [exact H1|].
    cbn [run fold_left]. apply IH. now apply wedged_step. }
  assert (H0 : wedged both c (step cmds round2 (Recv (recv_data both)) c)).
  { cbn [step]. unfold handle_client_round. rewrite Ho, Hr, Hbuf.
    cbn [negb app]. pose proof (Hnever []) as Hn. rewrite app_nil_r in Hn.
    destruct both as [|x both'].
    - repeat split; cbn [close deferred command sent host client_open];
        auto.
    - unfold bytes in *.
      destruct (loads_bytes (x :: both')) as [v|[|]].
      + now destruct (Hn v).
      + repeat split; cbn [deferred command sent host client_open buffer];
          auto. right. exists []. now rewrite app_nil_r.
      + repeat split; cbn [close deferred command sent host client_open];
          auto. }
  destruct (Hw events _ H0) as (H1 & H2 & H3 & H4 & _).
  subst c'. cbn [run fold_left]. repeat split; assumption.
Qed.

Lemma execute_wrapper_unheard (th : thread) (peer_ok : bool)
      (c : connection scene) :
  client_open c = false \/ peer_ok = false ->
  sent (execute_wrapper cmds round2 th peer_ok c) = sent c.
Proof.
  intro H.
  assert (E : peer_ok && client_open c = false).
  { destruct H as [-> | ->]; [apply andb_false_r|reflexivity]. }
  unfold execute_wrapper. destruct (command c) as [cmd|]; [|reflexivity].
  destruct (execute_command cmds round2 th cmd (host c)) as [[r|e] h];
    unfold sendall_or_pass; cbn [sent]; rewrite E;
    match goal with
    | |- context [dumps_bytes ?x] => now destruct (dumps_bytes x)
    end.
Qed.

(** X8: a command that was parsed before the client went away is still
    executed when the main thread is idle, on the document as it then
    is, and its reply is written nowhere. *)
Theorem command_of_a_client_that_left_is_still_run
        (data : bytes) (cmd : json) (r : received) (peer_ok : bool)
        (c : connection scene) :
  client_open c = true -> running c = true -> buffer c = [] ->
  deferred c = 0 -> data <> [] ->
  loads_bytes data = Ok cmd ->
  r = recv_data [] \/ r = recv_raises ->
  let c' := run cmds round2
              [Recv (recv_data data); Recv r; Idle peer_ok] c in
  client_open c' = false
  /\ sent c' = sent c
  /\ host c' = snd (execute_command cmds round2 main_thread cmd (host c)).
Proof.
  intros Ho Hr Hb Hd Hdata Hl Hgone c'. subst c'.
  cbn [run fold_left step].
  rewrite (@handle_client_round_parses data cmd c Ho Hr Hdata)
    by (rewrite Hb; exact Hl).
  assert (E : handle_client_round r (dispatching cmd c)
              = close (dispatching cmd c)).
  { unfold handle_client_round.
    cbn [dispatching client_open running negb]. rewrite Ho, Hr. cbn [negb].
    now destruct Hgone as [-> | ->]. }
  rewrite E. unfold close, dispatching.
  cbn [deferred running buffer command client_open sent host].
  match goal with
  | |- context [execute_wrapper cmds round2 main_thread peer_ok ?c1] =>
      destruct (execute_wrapper_frame main_thread peer_ok c1)
        as (_ & _ & Fo & _);
      pose proof (execute_wrapper_host main_thread peer_ok c1) as Fh;
      pose proof (@execute_wrapper_unheard main_thread peer_ok c1
                    (or_introl eq_refl)) as Fs
  end.
  cbn [client_open command host sent] in Fo, Fh, Fs.
  now rewrite Fo, Fh, Fs.
Qed.
End Pipelining.

(* ================================================================== *)
(** * Starting and stopping the server *)

Section LifecycleFacts.
Import Lifecycle.

Lemma without_fresh (fd : nat) (l : list nat) :
  (forall x, In x l -> x < fd) -> without fd (l ++ [fd]) = l.
Proof.
  intro H. unfold without. rewrite filter_app. cbn [filter].
  rewrite Nat.eqb_refl. cbn [negb]. rewrite app_nil_r.
  induction l as [|x l IH]; [reflexivity|].
  cbn [filter]. assert (Hx : x < fd) by (apply H; now left).
  assert (E : (x =? fd) = false) by (apply Nat.eqb_neq; lia).
  rewrite E. cbn [negb]. f_equal. apply IH. intros y Hy. apply H. now right.
Qed.

Lemma without_absent (fd : nat) (l : list nat) :
  (forall x, In x l -> x < fd) -> without fd l = l.
Proof.
  intro H. unfold without. induction l as [|x l IH]; [reflexivity|].
  cbn [filter]. assert (Hx : x < fd) by (apply H; now left).
  assert (E : (x =? fd) = false) by (apply Nat.eqb_neq; lia).
  rewrite E. cbn [negb]. f_equal. apply IH. intros y Hy. apply H. now right.
Qed.

(** X9: [start] either brings the server up or leaves nothing behind.
    On a server that is running it does nothing.  On one that is not,
    and holds no socket: when no call of the set-up raises, the server
    is running on a new socket that is open and listens, with its
    thread started; when a call raises, the server is as [stop] leaves
    it -- not running, without socket and thread -- and the socket
    that had been opened is closed again: the sockets that are open
    and those that listen are the ones from before. *)
Theorem start_brings_up_or_rolls_back (self : MayaMCPServer) (o : os) :
  fresh o ->
  (running self = true -> start self o = (self, o))
  /\ (running self = false -> socket self = None ->
      hd None (faults o) = None ->
      running (fst (start self o)) = true
      /\ socket (fst (start self o)) = Some (next_socket o)
      /\ server_thread (fst (start self o)) = Some (threads_started o)
      /\ open_sockets (snd (start self o))
         = open_sockets o ++ [next_socket o]
      /\ listening (snd (start self o)) = listening o ++ [next_socket o]
      /\ threads_started (snd (start self o)) = S (threads_started o))
  /\ (running self = false -> socket self = None ->
      hd None (faults o) <> None ->
      running (fst (start self o)) = false
      /\ socket (fst (start self o)) = None
      /\ server_thread (fst (start self o)) = None
      /\ open_sockets (snd (start self o)) = open_sockets o
      /\ listening (snd (start self o)) = listening o
      /\ threads_started (snd (start self o)) = threads_started o).
Proof.
  intro Hf. split; [|split].
  - intro Hr. unfold start. now rewrite Hr.
  - intros Hr Hs Hnone. unfold start. rewrite Hr, Hnone.
    cbn [setup fst snd running socket server_thread open_sockets listening
         threads_started next_socket]. repeat split.
  - intros Hr Hs Hsome. unfold start. rewrite Hr.
    assert (Ho : forall x, In x (open_sockets o) -> x < next_socket o)
      by (intros x Hx; apply Hf; now left).
    assert (Hl : forall x, In x (listening o) -> x < next_socket o)
      by (intros x Hx; apply Hf; now right).
    destruct (hd None (faults o)) as [[ | | | | ]|]; [..|congruence];
      cbn [setup stop fst snd running socket server_thread close_socket
           open_sockets listening threads_started next_socket];
      rewrite ?Hs;
      cbn [open_sockets listening threads_started];
      repeat split;
      try (apply without_fresh; assumption);
      try (apply without_absent; assumption).
Qed.

(** X11: no failure of [accept] and no client ends [_server_loop]: it has
    ended exactly when a round found [self.running] false.  Until
    then every client accepted whose handling thread started is added
    to the clients being handled, once and in order. *)
Theorem server_loop_ends_only_when_stopped
        (rounds : list (bool * accept_outcome)) (clients : list nat) :
  (snd (_server_loop rounds clients) = true
   <-> existsb (fun r => negb (fst r)) rounds = true)
  /\ (forallb fst rounds = true ->
      fst (_server_loop rounds clients)
      = clients
        ++ flat_map (fun r => match snd r with
                              | accept_client client true => [client]
                              | _ => []
                              end) rounds).
Proof.
  revert clients. induction rounds as [|[running out] rounds IH];
    intro clients.
  - cbn. rewrite app_nil_r. split; [split; discriminate|reflexivity].
  - destruct running.
    + cbn [existsb forallb fst snd negb orb andb flat_map].
      destruct out as [client [|]| | ]; cbn [_server_loop app].
      * destruct (IH (clients ++ [client])) as [A B].
        split; [exact A|]. intro H. rewrite (B H).
        now rewrite <- app_assoc.
      * exact (IH clients).
      * exact (IH clients).
      * exact (IH clients).
    + cbn. split; [split; reflexivity|discriminate].
Qed.
End LifecycleFacts.

(* ================================================================== *)
(** * The adapter, call by call *)

Section AdapterFacts.
Import Adapter.

(** X12: [connect] never raises, and what it returns tells whether the
    object holds a socket afterwards.  On an object that holds one it
    returns [True] without touching the network; host and port are
    never changed. *)
Theorem connect_reports_whether_connected
        (self : MayaConnection) (n : network) :
  (fst (fst (connect self n)) = true
   <-> sock (snd (fst (connect self n))) <> None)
  /\ (sock self <> None -> connect self n = (true, self, n))
  /\ host (snd (fst (connect self n))) = host self
  /\ port (snd (fst (connect self n))) = port self
  /\ wire (snd (connect self n)) = wire n.
Proof.
  unfold connect. destruct (sock self) as [k|] eqn:Hs.
  - cbn [fst snd]. rewrite Hs.
    repeat split; auto; try discriminate.
  - destruct (connects n) as [|[|] rest]; cbn [fst snd set_sock sock host
      port wire]; repeat split; auto; try discriminate; try congruence.
Qed.

(** Receiving reads from the network and changes nothing else. *)
Lemma receive_full_response_frame (n : network) :
  wire (snd (receive_full_response n)) = wire n
  /\ connects (snd (receive_full_response n)) = connects n
  /\ sendalls (snd (receive_full_response n)) = sendalls n
  /\ opened (snd (receive_full_response n)) = opened n.
Proof.
  unfold receive_full_response.
  destruct (receive_loop [] (recvs n)) as [[d|chunks|e] rest].
  - repeat split.
  - destruct chunks as [|c chunks]; [repeat split|].
    destruct (loads_bytes (join_bytes (c :: chunks))) as [v|[|]];
      repeat split.
  - repeat split.
Qed.

(** What [send_command] adds to the record of the wire. *)
Lemma send_command_wire
      (self : MayaConnection) (command_type : str) (params : json)
      (n : network) :
  wire (snd (send_command self command_type params n))
  = match sock self,
          dumps_bytes (Command command_type
                         (if truthy params then params else JDict [])),
          hd None (sendalls n) with
    | Some _, Some data, None => wire n ++ [data]
    | _, _, _ => wire n
    end.
Proof.
  unfold send_command. destruct (sock self) as [k|]; [|reflexivity].
  assert (E : wire (snd (exchange
                 (Command command_type
                    (if truthy params then params else JDict [])) n))
              = match dumps_bytes
                        (Command command_type
                           (if truthy params then params else JDict [])),
                      hd None (sendalls n) with
                | Some data, None => wire n ++ [data]
                | _, _ => wire n
                end).
  { unfold exchange.
    destruct (dumps_bytes _) as [data|]; [|reflexivity].
    unfold bind at 1. unfold sendall.
    assert (Hrest : forall n1,
              wire (snd ((response_data <- receive_full_response ;;
                          match loads_bytes response_data with
                          | Ok response =>
                              status <- get response (lit "status") JNull ;;
                              (if eq_str status (lit "error")
                               then
                                 message <- get response (lit "message")
                                   (JStr (lit "Unknown error from Maya")) ;;
                                 raise (Exception message)
                               else get response (lit "result") (JDict []))
                          | Raise e => raise (DecodeError e)
                          end) n1)) = wire n1).
    { intro n1. unfold bind at 1.
      destruct (receive_full_response_frame n1) as [Hw _].
      destruct (receive_full_response n1) as [[rd|e] n2]; cbn [snd] in *;
        [|exact Hw].
      destruct (loads_bytes rd) as [resp|e]; [|exact Hw].
      unfold bind, get, raise, ret.
      destruct (dict_get_or resp (lit "status") JNull) as [st|];
        [|exact Hw].
      destruct (eq_str st (lit "error")).
      - destruct (dict_get_or resp (lit "message") _); exact Hw.
      - destruct (dict_get_or resp (lit "result") _); exact Hw. }
    destruct (sendalls n) as [|[e|] rest]; cbn [hd snd wire];
      try reflexivity; now rewrite Hrest. }
  destruct (exchange _ n) as [[v|e] n1]; cbn [snd] in *; rewrite E;
    destruct (dumps_bytes _); reflexivity.
Qed.

(** X13: [send_command] writes its command once, or does not come to
    writing.  With [params] a dict or [None], as the signature has
    it: when the object holds a socket, the text can be encoded and
    [sendall] returns, the one message written is the bytes of
    [{"command": command_type, "params": params or {}}], whatever is
    received afterwards; when the object holds no socket or the text
    cannot be encoded, [sendall] is not called and nothing is
    written.  Nothing is said of a [sendall] that raises. *)
Theorem send_command_writes_one_message
        (self : MayaConnection) (command_type : str) (params : json)
        (n : network) :
  params = JNull \/ (exists d, params = JDict d) ->
  (forall k data,
     sock self = Some k ->
     dumps_bytes (Command command_type
                    (match params with JDict (_ :: _) => params
                                     | _ => JDict [] end)) = Some data ->
     hd None (sendalls n) = None ->
     wire (snd (send_command self command_type params n))
     = wire n ++ [data])
  /\ (sock self = None
      \/ dumps_bytes (Command command_type
                        (match params with JDict (_ :: _) => params
                                         | _ => JDict [] end)) = None ->
      wire (snd (send_command self command_type params n)) = wire n).
Proof.
  intro Hp.
  assert (E : (if truthy params then params else JDict [])
              = match params with JDict (_ :: _) => params
                                | _ => JDict [] end).
  { destruct Hp as [-> |[d ->]]; [reflexivity|]. now destruct d. }
  rewrite send_command_wire, E. split.
  - intros k data Hk Hd Hs. now rewrite Hk, Hd, Hs.
  - intros [Hk|Hd]; [now rewrite Hk|].
    rewrite Hd. now destruct (sock self).
Qed.

(** X14: the three ways [get_maya_connection] ends.  When it hands back
    the connection, the global holds an object with a socket, for
    [localhost:9876] unless the object was there before.  When it hands
    back a value, there was a connection and that value is what the
    answer to the probe has under [enabled].  The only exception that
    leaves it is ["Failed to connect to Maya"], and then the global is
    [None]. *)
Theorem get_maya_connection_outcomes (w : world) :
  match get_maya_connection w with
  | (Ok the_connection, w') =>
      exists k, _maya_connection w'
                = Some {| host := lit "localhost"; port := 9876%N;
                          sock := Some k |}
  | (Ok (value v), w') =>
      exists c d, _maya_connection w = Some c
                  /\ fst (fst (send_command c (lit "about") JNull (net w)))
                     = Ok (JDict d)
                  /\ v = get_or d (lit "enabled") (JBool false)
                  /\ _maya_connection w' = Some c
  | (Raise e, w') =>
      e = Exception (JStr (lit "Failed to connect to Maya"))
      /\ _maya_connection w' = None
  end.
Proof.
  assert (Hnew : forall n,
    match new_connection n with
    | (Ok the_connection, w') =>
        exists k, _maya_connection w'
                  = Some {| host := lit "localhost"; port := 9876%N;
                            sock := Some k |}
    | (Ok (value v), w') => False
    | (Raise e, w') =>
        e = Exception (JStr (lit "Failed to connect to Maya"))
        /\ _maya_connection w' = None
    end).
  { intro n. unfold new_connection, connect. cbn [sock].
    destruct (connects n) as [|[|] rest]; cbn [set_sock host port];
      auto. now exists (opened n). }
  assert (Hnew' : forall n,
    match new_connection n with
    | (Ok the_connection, w') =>
        exists k, _maya_connection w'
                  = Some {| host := lit "localhost"; port := 9876%N;
                            sock := Some k |}
    | (Ok (value v), w') =>
        exists c d, _maya_connection w = Some c
                    /\ fst (fst (send_command c (lit "about") JNull (net w)))
                       = Ok (JDict d)
                    /\ v = get_or d (lit "enabled") (JBool false)
                    /\ _maya_connection w' = Some c
    | (Raise e, w') =>
        e = Exception (JStr (lit "Failed to connect to Maya"))
        /\ _maya_connection w' = None
    end).
  { intro n. specialize (Hnew n).
    destruct (new_connection n) as [[[|v]|e] w']; tauto. }
  unfold get_maya_connection.
  destruct (_maya_connection w) as [c|] eqn:Hc; [|apply Hnew'].
  pose proof (@send_command_failure_invalidates c) as Hinv.
  assert (Hsame : forall v c' n',
            send_command c (lit "about") JNull (net w) = (Ok v, c', n') ->
            c' = c).
  { unfold send_command. intros v c' n'.
    destruct (sock c); [|discriminate].
    destruct (exchange _ (net w)) as [[v'|e'] n1]; intro H; inversion H.
    reflexivity. }
  destruct (send_command c (lit "about") JNull (net w))
    as [[[result|e] c'] n'] eqn:Es; [|apply Hnew'].
  destruct result as [ | | | | | |d]; cbn [dict_get_or]; try apply Hnew'.
  exists c, d. cbn [fst _maya_connection].
  rewrite (Hsame _ _ _ eq_refl). repeat split. now rewrite Es.
Qed.

Lemma get_maya_connection_raises (w w' : world) (e : exn) :
  get_maya_connection w = (Raise e, w') ->
  e = Exception (JStr (lit "Failed to connect to Maya"))
  /\ _maya_connection w' = None.
Proof.
  assert (Hnew : forall n,
    new_connection n = (Raise e, w') ->
    e = Exception (JStr (lit "Failed to connect to Maya"))
    /\ _maya_connection w' = None).
  { intro n. unfold new_connection, connect. cbn [sock].
    destruct (connects n) as [|[|] rest]; intro H; inversion H; subst;
      now split. }
  unfold get_maya_connection.
  destruct (_maya_connection w) as [c|]; [|apply Hnew].
  destruct (send_command c (lit "about") JNull (net w))
    as [[[result|e0] c'] n']; [|apply Hnew].
  destruct (dict_get_or result (lit "enabled") (JBool false));
    [discriminate|apply Hnew].
Qed.

(** X15: what [server_lifespan] does to the global.  An exception of
    the start-up is the one of [get_maya_connection] and leaves the
    global [None].  The shutdown disconnects the object but does not
    reset the global, which keeps a [MayaConnection] without socket;
    the next [get_maya_connection] then sends nothing to the server
    -- its probe raises before writing -- and goes on to make a new
    connection. *)
Theorem server_lifespan_keeps_the_global (w : world) :
  (forall e, fst (server_lifespan_enter w) = Raise e ->
     e = Exception (JStr (lit "Failed to connect to Maya"))
     /\ _maya_connection (snd (server_lifespan_enter w)) = None)
  /\ (forall c, _maya_connection w = Some c ->
        _maya_connection (snd (server_lifespan_exit w))
        = Some {| host := host c; port := port c; sock := None |}
        /\ net (snd (server_lifespan_exit w)) = net w
        /\ get_maya_connection (snd (server_lifespan_exit w))
           = new_connection (net w)).
Proof.
  split.
  - intros e. unfold server_lifespan_enter.
    pose proof (@get_maya_connection_raises w) as H.
    destruct (get_maya_connection w) as [[o|e'] w']; [discriminate|].
    cbn [fst snd]. intros [= <-]. destruct (H w' e' eq_refl) as [He Hn].
    split; [exact He|]. unfold lifespan_finally. now rewrite Hn.
  - intros c Hc. unfold server_lifespan_exit, lifespan_finally.
    rewrite Hc. cbn [snd _maya_connection net].
    assert (Hd : disconnect c
                 = {| host := host c; port := port c; sock := None |}).
    { unfold disconnect, set_sock. destruct c as [h p [k|]]; reflexivity. }
    rewrite Hd. repeat split.
Qed.

Lemma create_object_params_eq
      (type : str) (name location rotation scale : json) :
  create_object_params type name location rotation scale
  = [(lit "type", JStr type);
     (lit "location",
      if truthy location then location else JList [JInt 0; JInt 0; JInt 0]);
     (lit "rotation",
      if truthy rotation then rotation else JList [JInt 0; JInt 0; JInt 0]);
     (lit "scale",
      if truthy scale then scale else JList [JInt 1; JInt 1; JInt 1])]
    ++ (if truthy name then [(lit "name", name)] else []).
Proof.
  unfold create_object_params. destruct (truthy name); reflexivity.
Qed.

(** X16: the params [create_object] sends.  The keys are [type],
    [location], [rotation] and [scale] always, and [name] last when a
    name that is not empty was given; none of the torus arguments is
    sent.  Under [location], [rotation] and [scale] goes the argument,
    or [[0, 0, 0]], [[0, 0, 0]] and [[1, 1, 1]] in the place of an
    argument that is missing or empty. *)
Theorem create_object_params_keys
        (type : str) (name location rotation scale : json) :
  let params := create_object_params type name location rotation scale in
  dict_keys params
  = [lit "type"; lit "location"; lit "rotation"; lit "scale"]
    ++ (if truthy name then [lit "name"] else [])
  /\ dict_get params (lit "type") = Some (JStr type)
  /\ dict_get params (lit "location")
     = Some (if truthy location then location
             else JList [JInt 0; JInt 0; JInt 0])
  /\ dict_get params (lit "rotation")
     = Some (if truthy rotation then rotation
             else JList [JInt 0; JInt 0; JInt 0])
  /\ dict_get params (lit "scale")
     = Some (if truthy scale then scale
             else JList [JInt 1; JInt 1; JInt 1])
  /\ dict_get params (lit "name") = (if truthy name then Some name else None).
Proof.
  intro params. subst params. rewrite create_object_params_eq.
  destruct (truthy name); repeat split; reflexivity.
Qed.

(** X17: the tool [add] returns the product of its arguments; that is
    their sum for the arguments 0, 0 and 2, 2 and for no others. *)
Theorem add_multiplies (a b : Z) :
  add a b = (a * b)%Z
  /\ (add a b = (a + b)%Z <-> (a = 0 /\ b = 0)%Z \/ (a = 2 /\ b = 2)%Z).
Proof.
  unfold add. split; [reflexivity|]. split.
  - intro H. assert (E : ((a - 1) * (b - 1) = 1)%Z) by lia.
    destruct (Z.mul_eq_1 _ _ E) as [Ha|Ha]; rewrite Ha in E; lia.
  - intros [[-> ->]|[-> ->]]; reflexivity.
Qed.
End AdapterFacts.

(* ================================================================== *)
(** * A reply in chunks *)

(** X18: the bytes of a valid reply that is not a bare number and is
    within the limits of [json] on digits and nesting, cut into
    non-empty chunks in any way: [receive_full_response] returns
    exactly those bytes, joined, with the last chunk -- not before,
    and reading nothing beyond -- and they parse to the reply that
    was serialized. *)
Theorem response_survives_chunking
        (v : json) (chunks : list bytes)
        (rest : list (result Adapter.exn bytes)) (n : Adapter.network) :
  valid v = true -> within_limits v = true -> is_number v = false ->
  chunks <> [] -> forallb nonempty chunks = true ->
  dumps_bytes v = Some (join_bytes chunks) ->
  Adapter.recvs n = map Ok chunks ++ rest ->
  Adapter.receive_full_response n
  = (Ok (join_bytes chunks), recvs_left rest n)
  /\ loads_bytes (join_bytes chunks) = Ok v.
Proof.
  intros Hv _ Hn Hne Hall Hd Hrecv.
  destruct (loads_bytes_dumps_bytes v Hv) as (Ed & El & Ecut).
  rewrite Ed in Hd. injection Hd as Hd.
  rewrite Hd in El, Ecut.
  split; [|exact El].
  destruct (exists_last Hne) as [pre [last ->]].
  assert (Hw : waiting [] pre = true).
  { apply (@chunks_waiting (join_bytes (pre ++ [last])) (Ecut Hn) pre [last]);
      [exact Hall|reflexivity|discriminate]. }
  assert (Hl : nonempty last = true).
  { rewrite forallb_app in Hall. apply andb_true_iff in Hall as [_ Hall].
    cbn [forallb] in Hall. now rewrite andb_true_r in Hall. }
  unfold Adapter.receive_full_response. rewrite Hrecv.
  rewrite map_app, <- app_assoc. cbn [map app].
  rewrite (@receive_loop_waiting pre [] (Ok last :: rest) Hw).
  cbn [app]. destruct last as [|b last]; [discriminate|].
  cbn [Adapter.receive_loop]. unfold bytes in *.
  rewrite El. reflexivity.
Qed.

(* ================================================================== *)
(** * The adapter and the server together *)

Section Together.
Import MayaMCPServer.
Variable scene : Type.
Variable cmds : cmds_api scene.
Variable round2 : str -> str.

Lemma wire_bytes_valid (v : json) :
  valid v = true ->
  dumps_bytes v = Some (wire_bytes v)
  /\ wire_bytes v <> []
  /\ loads_bytes (wire_bytes v) = Ok v.
Proof.
  intro Hv. destruct (loads_bytes_dumps_bytes v Hv) as (Ed & El & _).
  unfold wire_bytes. rewrite Ed. repeat split; [|exact El].
  destruct (dumps_opening v Hv) as [c [t [Ec _]]]. rewrite Ec. discriminate.
Qed.

(** The one message the server writes for a command it receives
    whole. *)
Lemma served_reply (cmd response : json) (sc : scene) :
  valid cmd = true ->
  fst (execute_command cmds round2 main_thread cmd
         {| doc := sc; runs := [] |}) = Ok response ->
  valid response = true ->
  served cmds round2 sc (wire_bytes cmd) = [wire_bytes response].
Proof.
  intros Hc He Hr.
  destruct (wire_bytes_valid cmd Hc) as (_ & Hne & Hl).
  destruct (wire_bytes_valid response Hr) as (Hd & _ & _).
  unfold served. cbn [run fold_left step].
  rewrite (@handle_client_round_parses scene (wire_bytes cmd) cmd
             (accepted sc) eq_refl eq_refl Hne Hl).
  unfold dispatching, accepted.
  cbn [deferred running buffer command client_open sent host].
  unfold execute_wrapper. cbn [command host].
  destruct (execute_command cmds round2 main_thread cmd
              {| doc := sc; runs := [] |}) as [[r|e] h];
    cbn [fst] in He; [|discriminate].
  injection He as ->.
  unfold sendall_or_pass. cbn [sent client_open andb]. now rewrite Hd.
Qed.

(** What the adapter makes of a reply that is a dict and arrives in
    one read. *)
Lemma exchange_reads (command : json) (data : bytes) (d : dict json)
      (n : Adapter.network) (rest : list (result Adapter.exn bytes)) :
  dumps_bytes command = Some data ->
  hd None (Adapter.sendalls n) = None ->
  valid (JDict d) = true ->
  Adapter.recvs n = Ok (wire_bytes (JDict d)) :: rest ->
  Adapter.exchange command n
  = (if eq_str (get_or d (lit "status") JNull) (lit "error")
     then Raise (Adapter.Exception
                   (get_or d (lit "message")
                      (JStr (lit "Unknown error from Maya"))))
     else Ok (get_or d (lit "result") (JDict [])),
     after_exchange data rest n).
Proof.
  intros Hd Hs Hv Hrecv.
  destruct (wire_bytes_valid (JDict d) Hv) as (_ & Hne & Hl).
  unfold Adapter.exchange. rewrite Hd.
  assert (Es : Adapter.sendall data n
               = (Ok tt, {| Adapter.connects := Adapter.connects n;
                            Adapter.sendalls := tl (Adapter.sendalls n);
                            Adapter.recvs := Adapter.recvs n;
                            Adapter.wire := Adapter.wire n ++ [data];
                            Adapter.opened := Adapter.opened n |})).
  { unfold Adapter.sendall.
    destruct (Adapter.sendalls n) as [|[e|] more]; cbn [hd] in Hs;
      try discriminate; reflexivity. }
  unfold bind at 1. rewrite Es.
  unfold bind at 1. unfold Adapter.receive_full_response.
  cbn [Adapter.recvs]. rewrite Hrecv.
  destruct (wire_bytes (JDict d)) as [|b bs] eqn:Ew; [congruence|].
  cbn [Adapter.receive_loop app]. unfold join_bytes. cbn [concat].
  rewrite app_nil_r. unfold bytes in *. rewrite Hl. cbv beta iota zeta.
  cbn [Adapter.connects Adapter.sendalls Adapter.wire Adapter.opened].
  rewrite Hl.
  unfold bind, Adapter.get, dict_get_or, ret, raise, after_exchange.
  fold (get_or d (lit "status") JNull).
  fold (get_or d (lit "message") (JStr (lit "Unknown error from Maya"))).
  fold (get_or d (lit "result") (JDict [])).
  now destruct (eq_str (get_or d (lit "status") JNull) (lit "error")).
Qed.

(** X19: the adapter validates a connection it holds by sending [about]
    and reading [enabled] from the answer.  This server has no handler
    for [about] and answers [null]; the adapter's [send_command] fails
    on it, so the probe never validates: whenever the global holds a
    connection, [get_maya_connection] writes the probe, reads the
    answer, gives the connection up and goes on to connect again. *)
Theorem the_probe_is_never_validated
        (sc : scene) (c : Adapter.MayaConnection) (k : nat)
        (n : Adapter.network) (rest : list (result Adapter.exn bytes)) :
  Adapter.sock c = Some k ->
  hd None (Adapter.sendalls n) = None ->
  Adapter.recvs n
  = map Ok (served cmds round2 sc
              (wire_bytes (Command (lit "about") (JDict [])))) ++ rest ->
  served cmds round2 sc (wire_bytes (Command (lit "about") (JDict [])))
  = [null_bytes]
  /\ Adapter.send_command c (lit "about") JNull n
     = (Raise Adapter.AttributeError, Adapter.set_sock None c,
        after_exchange (wire_bytes (Command (lit "about") (JDict [])))
          rest n)
  /\ Adapter.get_maya_connection
       {| Adapter._maya_connection := Some c; Adapter.net := n |}
     = Adapter.new_connection
         (after_exchange (wire_bytes (Command (lit "about") (JDict [])))
            rest n).
Proof.
  intros Hk Hs Hrecv.
  assert (Hserved : served cmds round2 sc
                      (wire_bytes (Command (lit "about") (JDict [])))
                    = [null_bytes]) by (vm_compute; reflexivity).
  rewrite Hserved in Hrecv. cbn [map app] in Hrecv.
  assert (Hsend : Adapter.send_command c (lit "about") JNull n
     = (Raise Adapter.AttributeError, Adapter.set_sock None c,
        after_exchange (wire_bytes (Command (lit "about") (JDict [])))
          rest n)).
  { unfold Adapter.send_command. rewrite Hk. cbn [truthy].
    unfold Adapter.exchange.
    assert (Hd : dumps_bytes (Command (lit "about") (JDict []))
                 = Some (wire_bytes (Command (lit "about") (JDict []))))
      by (vm_compute; reflexivity).
    rewrite Hd.
    assert (Es : Adapter.sendall
                   (wire_bytes (Command (lit "about") (JDict []))) n
                 = (Ok tt,
                    {| Adapter.connects := Adapter.connects n;
                       Adapter.sendalls := tl (Adapter.sendalls n);
                       Adapter.recvs := Adapter.recvs n;
                       Adapter.wire :=
                         Adapter.wire n
                         ++ [wire_bytes (Command (lit "about") (JDict []))];
                       Adapter.opened := Adapter.opened n |})).
    { unfold Adapter.sendall.
      destruct (Adapter.sendalls n) as [|[e|] more]; cbn [hd] in Hs;
        try discriminate; reflexivity. }
    unfold bind at 1. rewrite Es.
    unfold bind at 1. unfold Adapter.receive_full_response.
    cbn [Adapter.recvs]. rewrite Hrecv.
    unfold null_bytes. cbn [Adapter.receive_loop app].
    unfold join_bytes. cbn [concat app].
    assert (Hl : loads_bytes [x6e; x75; x6c; x6c] = Ok JNull)
      by (vm_compute; reflexivity).
    unfold bytes in *. rewrite Hl. cbv beta iota zeta. rewrite Hl.
    reflexivity. }
  split; [exact Hserved|]. split; [exact Hsend|].
  unfold Adapter.get_maya_connection.
  cbn [Adapter._maya_connection Adapter.net].
  now rewrite Hsend.
Qed.

(** X20: the first [get_scene_info] of an adapter that has no connection
    yet, against the server on the document [sc]: the adapter
    connects, sends the command, the server reads it, runs its
    handler and replies, and the tool returns exactly the dict the
    handler of the server built -- also when that dict is the
    [{"error": ...}] of a failure inside the handler. *)
Theorem get_scene_info_end_to_end
        (sc : scene) (info : json) (n : Adapter.network)
        (more : list bool) (rest : list (result Adapter.exn bytes)) :
  get_scene_info cmds round2 (JDict []) sc = (Ok info, sc) ->
  valid info = true ->
  Adapter.connects n = true :: more ->
  hd None (Adapter.sendalls n) = None ->
  Adapter.recvs n
  = map Ok (served cmds round2 sc
              (wire_bytes (Command (lit "get_scene_info") (JDict []))))
    ++ rest ->
  fst (Adapter.get_scene_info
         {| Adapter._maya_connection := None; Adapter.net := n |})
  = Ok info.
Proof.
  intros Hinfo Hv Hc Hs Hrecv.
  set (response := JDict [(lit "status", JStr (lit "success"));
                          (lit "result", info)]).
  assert (Hresp : valid response = true).
  { unfold response. cbn [valid map fst forallb].
    rewrite Hv. vm_compute. reflexivity. }
  assert (Hexec : fst (execute_command cmds round2 main_thread
                         (Command (lit "get_scene_info") (JDict []))
                         {| doc := sc; runs := [] |}) = Ok response).
  { unfold Command.
    rewrite (@execute_command_registered scene cmds round2 main_thread
               [(lit "command", JStr (lit "get_scene_info"));
                (lit "params", JDict [])]
               (lit "get_scene_info") self_get_scene_info
               {| doc := sc; runs := [] |} eq_refl eq_refl).
    cbn [fst call doc]. unfold get_or. cbn [dict_get].
    change (str_eqb (lit "command") (lit "params")) with false.
    rewrite str_eqb_refl. cbv iota. now rewrite Hinfo. }
  rewrite (@served_reply (Command (lit "get_scene_info") (JDict []))
             response sc eq_refl Hexec Hresp) in Hrecv.
  cbn [map app] in Hrecv.
  unfold Adapter.get_scene_info, bind.
  unfold Adapter.get_maya_connection, Adapter.new_connection, Adapter.connect.
  cbn [Adapter._maya_connection Adapter.net Adapter.sock]. rewrite Hc.
  unfold Adapter.call_send_command. cbn [Adapter._maya_connection Adapter.net].
  unfold Adapter.send_command. cbn [Adapter.set_sock Adapter.sock truthy].
  rewrite (@exchange_reads (Command (lit "get_scene_info") (JDict []))
             (wire_bytes (Command (lit "get_scene_info") (JDict [])))
             [(lit "status", JStr (lit "success")); (lit "result", info)]
             {| Adapter.connects := more;
                Adapter.sendalls := Adapter.sendalls n;
                Adapter.recvs := Adapter.recvs n;
                Adapter.wire := Adapter.wire n;
                Adapter.opened := S (Adapter.opened n) |}
             rest eq_refl Hs Hresp Hrecv).
  reflexivity.
Qed.

(** X21: [create_object] from the adapter to the document and back.
    The adapter sends its [type] argument under [type]; the server
    passes what it finds under [type] to [polyCube] as the name of the
    cube and echoes it as [name].  So the cube is made under the name
    of the type: the document the wrapper leaves is the one on which
    [polyCube(name=type)] and the three calls of [xform] on its cube
    were made, in one run on the main thread through
    [executeInMainThreadWithResult].  The message of the tool says
    [Created <type> object: <type>]; the [name] argument of the tool
    and the name [polyCube] really gave the cube play no part. *)
Theorem create_object_end_to_end
        (type : str) (name location rotation scale : json)
        (sc sc1 sc2 sc3 sc4 : scene) (cube : str) (others : list str)
        (n : Adapter.network) (more : list bool)
        (rest : list (result Adapter.exn bytes)) :
  let params := Adapter.create_object_params type name location rotation
                  scale in
  valid (JDict params) = true ->
  polyCube cmds (JStr type) sc = (Ok (cube :: others), sc1) ->
  xform cmds xf_t (JStr cube)
    (if truthy location then location else JList [JInt 0; JInt 0; JInt 0])
    sc1 = (Ok tt, sc2) ->
  xform cmds xf_ro (JStr cube)
    (if truthy rotation then rotation else JList [JInt 0; JInt 0; JInt 0])
    sc2 = (Ok tt, sc3) ->
  xform cmds xf_s (JStr cube)
    (if truthy scale then scale else JList [JInt 1; JInt 1; JInt 1])
    sc3 = (Ok tt, sc4) ->
  Adapter.connects n = true :: more ->
  hd None (Adapter.sendalls n) = None ->
  Adapter.recvs n
  = map Ok (served cmds round2 sc
              (wire_bytes (Command (lit "create_object") (JDict params))))
    ++ rest ->
  host (run cmds round2
          [Recv (recv_data
                   (wire_bytes (Command (lit "create_object")
                                  (JDict params))));
           Idle true] (accepted sc))
  = {| doc := sc4;
       runs := [{| ran_on := main_thread;
                   via_executeInMainThreadWithResult := true;
                   ran_command :=
                     Command (lit "create_object") (JDict params) |}] |}
  /\ fst (Adapter.create_object type name location rotation scale
            {| Adapter._maya_connection := None; Adapter.net := n |})
     = Adapter.Created_object type (JStr type).
Proof.
  intros params Hv Hcube Hx1 Hx2 Hx3 Hc Hs Hrecv.
  assert (Hparams : params
    = [(lit "type", JStr type);
       (lit "location",
        if truthy location then location
        else JList [JInt 0; JInt 0; JInt 0]);
       (lit "rotation",
        if truthy rotation then rotation
        else JList [JInt 0; JInt 0; JInt 0]);
       (lit "scale",
        if truthy scale then scale else JList [JInt 1; JInt 1; JInt 1])]
      ++ (if truthy name then [(lit "name", name)] else [])).
  { subst params. apply create_object_params_eq. }
  set (loc := if truthy location then location
              else JList [JInt 0; JInt 0; JInt 0]) in *.
  set (rot := if truthy rotation then rotation
              else JList [JInt 0; JInt 0; JInt 0]) in *.
  set (sca := if truthy scale then scale
              else JList [JInt 1; JInt 1; JInt 1]) in *.
  assert (Hget : dict_get params (lit "type") = Some (JStr type)
                 /\ dict_get params (lit "location") = Some loc
                 /\ dict_get params (lit "rotation") = Some rot
                 /\ dict_get params (lit "scale") = Some sca).
  { rewrite Hparams. repeat split; reflexivity. }
  destruct Hget as (G4 & G5 & G6 & G7).
  set (result := JDict [(lit "name", JStr type); (lit "location", loc)]).
  set (response := JDict [(lit "status", JStr (lit "success"));
                          (lit "result", result)]).
  assert (Hin : text_ok type = true /\ valid loc = true).
  { rewrite Hparams in Hv. cbn [valid app map fst forallb] in Hv.
    apply andb_true_iff in Hv as [_ Hv].
    apply andb_true_iff in Hv as [Hty Hv].
    apply andb_true_iff in Hty as [_ Hty].
    apply andb_true_iff in Hv as [Hv _].
    apply andb_true_iff in Hv as [_ Hv]. now split. }
  destruct Hin as [Ht Hloc].
  assert (Hresp : valid response = true).
  { unfold response, result. cbn [valid map fst forallb].
    rewrite Hloc, Ht. vm_compute. reflexivity. }
  assert (Hcmd : valid (Command (lit "create_object") (JDict params)) = true).
  { unfold Command. cbn [valid map fst forallb] in *.
    rewrite Hv. vm_compute. reflexivity. }
  assert (Hcreate : create_object cmds (JDict params) sc = (Ok result, sc4)).
  { unfold create_object, bind, pure, get, dict_get_or, ret.
    rewrite G4, G5, G6, G7. cbv beta iota.
    rewrite Hcube. cbn [item nth_error]. cbv beta iota.
    rewrite Hx1, Hx2, Hx3. reflexivity. }
  assert (Hfull : execute_command cmds round2 main_thread
                    (Command (lit "create_object") (JDict params))
                    {| doc := sc; runs := [] |}
                  = (Ok response,
                     {| doc := sc4;
                        runs := [{| ran_on := main_thread;
                                    via_executeInMainThreadWithResult := true;
                                    ran_command :=
                                      Command (lit "create_object")
                                        (JDict params) |}] |})).
  { unfold Command.
    rewrite (@execute_command_registered scene cmds round2 main_thread
               [(lit "command", JStr (lit "create_object"));
                (lit "params", JDict params)]
               (lit "create_object") self_create_object
               {| doc := sc; runs := [] |} eq_refl eq_refl).
    cbn [fst snd call doc runs]. unfold get_or. cbn [dict_get].
    change (str_eqb (lit "command") (lit "params")) with false.
    rewrite str_eqb_refl. cbv iota. now rewrite Hcreate. }
  assert (Hexec : fst (execute_command cmds round2 main_thread
                         (Command (lit "create_object") (JDict params))
                         {| doc := sc; runs := [] |}) = Ok response)
    by now rewrite Hfull.
  assert (Hhost : host (run cmds round2
                          [Recv (recv_data
                                   (wire_bytes (Command (lit "create_object")
                                                  (JDict params))));
                           Idle true] (accepted sc))
                  = {| doc := sc4;
                       runs := [{| ran_on := main_thread;
                                   via_executeInMainThreadWithResult := true;
                                   ran_command :=
                                     Command (lit "create_object")
                                       (JDict params) |}] |}).
  { destruct (wire_bytes_valid _ Hcmd) as (_ & Hne & Hl).
    cbn [run fold_left step].
    rewrite (@handle_client_round_parses scene
               (wire_bytes (Command (lit "create_object") (JDict params)))
               (Command (lit "create_object") (JDict params))
               (accepted sc) eq_refl eq_refl Hne Hl).
    unfold dispatching, accepted.
    cbn [deferred running buffer command client_open sent host].
    rewrite execute_wrapper_host. cbn [command host]. now rewrite Hfull. }
  split; [exact Hhost|].
  rewrite (@served_reply (Command (lit "create_object") (JDict params))
             response sc Hcmd Hexec Hresp) in Hrecv.
  cbn [map app] in Hrecv.
  destruct (wire_bytes_valid _ Hcmd) as (Hd & _ & _).
  assert (Htruthy : truthy (JDict params) = true).
  { rewrite Hparams. reflexivity. }
  unfold Adapter.create_object, bind.
  unfold Adapter.get_maya_connection, Adapter.new_connection, Adapter.connect.
  cbn [Adapter._maya_connection Adapter.net Adapter.sock]. rewrite Hc.
  unfold Adapter.call_send_command. cbn [Adapter._maya_connection Adapter.net].
  unfold Adapter.send_command. cbn [Adapter.set_sock Adapter.sock].
  fold params. rewrite Htruthy.
  rewrite (@exchange_reads (Command (lit "create_object") (JDict params))
             (wire_bytes (Command (lit "create_object") (JDict params)))
             [(lit "status", JStr (lit "success")); (lit "result", result)]
             {| Adapter.connects := more;
                Adapter.sendalls := Adapter.sendalls n;
                Adapter.recvs := Adapter.recvs n;
                Adapter.wire := Adapter.wire n;
                Adapter.opened := S (Adapter.opened n) |}
             rest Hd Hs Hresp Hrecv).
  reflexivity.
Qed.

(** What the server writes for a command that has no handler, and
    what the adapter's [send_command] makes of it. *)
Lemma unregistered_exchange
      (name : str) (params : json) (sc : scene)
      (self : Adapter.MayaConnection) (k : nat) (n : Adapter.network)
      (rest : list (result Adapter.exn bytes)) :
  name <> lit "get_scene_info" -> name <> lit "create_object" ->
  valid (Command name params) = true ->
  truthy params = true \/ params = JDict [] ->
  Adapter.sock self = Some k ->
  hd None (Adapter.sendalls n) = None ->
  Adapter.recvs n
  = map Ok (served cmds round2 sc (wire_bytes (Command name params)))
    ++ rest ->
  served cmds round2 sc (wire_bytes (Command name params)) = [null_bytes]
  /\ doc (host (run cmds round2
                  [Recv (recv_data (wire_bytes (Command name params)));
                   Idle true] (accepted sc))) = sc
  /\ Adapter.send_command self name
       (if truthy params then params else JNull) n
     = (Raise Adapter.AttributeError, Adapter.set_sock None self,
        after_exchange (wire_bytes (Command name params)) rest n).
Proof.
  intros H1 H2 Hv Hp Hk Hs Hrecv.
  destruct (wire_bytes_valid _ Hv) as (Hd & Hne & Hl).
  pose proof (@execute_command_unregistered scene cmds round2 main_thread
                [(lit "command", JStr name); (lit "params", params)]
                name {| doc := sc; runs := [] |} eq_refl H1 H2) as He.
  fold (Command name params) in He.
  assert (Hserved : served cmds round2 sc (wire_bytes (Command name params))
                    = [null_bytes]).
  { rewrite (@served_reply (Command name params) JNull sc Hv);
      [reflexivity|now rewrite He|reflexivity]. }
  split; [exact Hserved|]. split.
  - cbn [run fold_left step].
    rewrite (@handle_client_round_parses scene
               (wire_bytes (Command name params)) (Command name params)
               (accepted sc) eq_refl eq_refl Hne Hl).
    unfold dispatching, accepted.
    cbn [deferred running buffer command client_open sent host].
    rewrite execute_wrapper_host. cbn [command host]. now rewrite He.
  - rewrite Hserved in Hrecv. cbn [map app] in Hrecv.
    unfold Adapter.send_command. rewrite Hk.
    assert (Ecmd : Command name
                     (if truthy (if truthy params then params else JNull)
                      then (if truthy params then params else JNull)
                      else JDict [])
                   = Command name params).
    { destruct Hp as [Hp| ->]; [now rewrite Hp, Hp|reflexivity]. }
    rewrite Ecmd.
    unfold Adapter.exchange. rewrite Hd.
    assert (Es : Adapter.sendall (wire_bytes (Command name params)) n
                 = (Ok tt,
                    {| Adapter.connects := Adapter.connects n;
                       Adapter.sendalls := tl (Adapter.sendalls n);
                       Adapter.recvs := Adapter.recvs n;
                       Adapter.wire :=
                         Adapter.wire n ++ [wire_bytes (Command name params)];
                       Adapter.opened := Adapter.opened n |})).
    { unfold Adapter.sendall.
      destruct (Adapter.sendalls n) as [|[e|] more]; cbn [hd] in Hs;
        try discriminate; reflexivity. }
    unfold bind at 1. rewrite Es.
    unfold bind at 1. unfold Adapter.receive_full_response.
    cbn [Adapter.recvs]. rewrite Hrecv.
    unfold null_bytes. cbn [Adapter.receive_loop app].
    unfold join_bytes. cbn [concat app].
    assert (Hn : loads_bytes [x6e; x75; x6c; x6c] = Ok JNull)
      by (vm_compute; reflexivity).
    unfold bytes in *. rewrite Hn. cbv beta iota zeta. rewrite Hn.
    reflexivity.
Qed.

(** X22: the tool [modify_object] against this server.  The server
    has no handler for [modify_object]: it leaves the document as it
    is and answers [null]; the adapter fails on that answer, and the
    tool returns its error message.  Whatever object and changes are
    asked for, nothing is modified. *)
Theorem modify_object_tool_modifies_nothing
        (name : str) (location rotation scale visible : json)
        (sc : scene) (n : Adapter.network) (more : list bool)
        (rest : list (result Adapter.exn bytes)) :
  let params := JDict (Adapter.modify_object_params name location rotation
                         scale visible) in
  valid params = true ->
  Adapter.connects n = true :: more ->
  hd None (Adapter.sendalls n) = None ->
  Adapter.recvs n
  = map Ok (served cmds round2 sc
              (wire_bytes (Command (lit "modify_object") params))) ++ rest ->
  doc (host (run cmds round2
               [Recv (recv_data
                        (wire_bytes (Command (lit "modify_object") params)));
                Idle true] (accepted sc))) = sc
  /\ fst (Adapter.modify_object name location rotation scale visible
            {| Adapter._maya_connection := None; Adapter.net := n |})
     = Adapter.Error_modifying_object Adapter.AttributeError.
Proof.
  intros params Hv Hc Hs Hrecv.
  assert (Hcmd : valid (Command (lit "modify_object") params) = true).
  { unfold Command. cbn [valid map fst forallb].
    change (valid params) with (valid params). rewrite Hv.
    vm_compute. reflexivity. }
  assert (Htruthy : truthy params = true).
  { subst params. unfold Adapter.modify_object_params.
    destruct (is_not_None location), (is_not_None rotation),
      (is_not_None scale), (is_not_None visible); reflexivity. }
  destruct (@unregistered_exchange (lit "modify_object") params sc
              {| Adapter.host := lit "localhost"; Adapter.port := 9876%N;
                 Adapter.sock := Some (Adapter.opened n) |}
              (Adapter.opened n)
              {| Adapter.connects := more;
                 Adapter.sendalls := Adapter.sendalls n;
                 Adapter.recvs := Adapter.recvs n;
                 Adapter.wire := Adapter.wire n;
                 Adapter.opened := S (Adapter.opened n) |}
              rest ltac:(discriminate) ltac:(discriminate) Hcmd
              (or_introl Htruthy) eq_refl Hs Hrecv) as (_ & Hdoc & Hsend).
  split; [exact Hdoc|].
  rewrite Htruthy in Hsend.
  unfold Adapter.modify_object, bind.
  unfold Adapter.get_maya_connection, Adapter.new_connection, Adapter.connect.
  cbn [Adapter._maya_connection Adapter.net Adapter.sock]. rewrite Hc.
  unfold Adapter.call_send_command. cbn [Adapter._maya_connection Adapter.net].
  unfold Adapter.set_sock. cbn [Adapter.host Adapter.port].
  fold params. now rewrite Hsend.
Qed.

(** X23: the tool [get_maya_version] against this server.  It sends
    [about], for which the server has no handler; the answer is
    [null], and the tool raises the [AttributeError] of
    [response.get] instead of returning a version.  The connection it
    had just made is given up: the object is left without socket. *)
Theorem get_maya_version_always_raises
        (sc : scene) (n : Adapter.network) (more : list bool)
        (rest : list (result Adapter.exn bytes)) :
  Adapter.connects n = true :: more ->
  hd None (Adapter.sendalls n) = None ->
  Adapter.recvs n
  = map Ok (served cmds round2 sc
              (wire_bytes (Command (lit "about") (JDict [])))) ++ rest ->
  fst (Adapter.get_maya_version
         {| Adapter._maya_connection := None; Adapter.net := n |})
  = Raise Adapter.AttributeError
  /\ Adapter._maya_connection
       (snd (Adapter.get_maya_version
               {| Adapter._maya_connection := None; Adapter.net := n |}))
     = Some {| Adapter.host := lit "localhost"; Adapter.port := 9876%N;
               Adapter.sock := None |}.
Proof.
  intros Hc Hs Hrecv.
  destruct (@unregistered_exchange (lit "about") (JDict []) sc
              {| Adapter.host := lit "localhost"; Adapter.port := 9876%N;
                 Adapter.sock := Some (Adapter.opened n) |}
              (Adapter.opened n)
              {| Adapter.connects := more;
                 Adapter.sendalls := Adapter.sendalls n;
                 Adapter.recvs := Adapter.recvs n;
                 Adapter.wire := Adapter.wire n;
                 Adapter.opened := S (Adapter.opened n) |}
              rest ltac:(discriminate) ltac:(discriminate) eq_refl
              (or_intror eq_refl) eq_refl Hs Hrecv) as (_ & _ & Hsend).
  cbn [truthy] in Hsend.
  unfold Adapter.get_maya_version, bind.
  unfold Adapter.get_maya_connection, Adapter.new_connection, Adapter.connect.
  cbn [Adapter._maya_connection Adapter.net Adapter.sock]. rewrite Hc.
  unfold Adapter.call_send_command. cbn [Adapter._maya_connection Adapter.net].
  unfold Adapter.set_sock. cbn [Adapter.host Adapter.port].
  rewrite Hsend. split; reflexivity.
Qed.
(** X24: a message that is valid JSON but not an object -- a list, a
    string, a number, [true], [null] -- is not dispatched:
    [execute_command] catches the [AttributeError] of [command.get],
    nothing is run and the document is as it was.  When the message
    is within the limits of [json] on digits and nesting, so that
    [json.loads] returns it, the one message written back is the
    error reply that names the type. *)
Theorem a_message_that_is_no_object_gets_an_error_reply
        (th : thread) (cmd : json) (h : host_state scene) (sc : scene) :
  (forall d, cmd <> JDict d) ->
  execute_command cmds round2 th cmd h = (Ok (no_attribute_get cmd), h)
  /\ (valid cmd = true -> within_limits cmd = true ->
      served cmds round2 sc (wire_bytes cmd)
      = [wire_bytes (no_attribute_get cmd)]).
Proof.
  intro Hd.
  assert (He : forall h0, execute_command cmds round2 th cmd h0
                          = (Ok (no_attribute_get cmd), h0)).
  { intro h0.
    unfold execute_command, try_except, bind, pure, get, dict_get_or.
    destruct cmd; try reflexivity. now destruct (Hd d). }
  assert (He' : forall h0, execute_command cmds round2 main_thread cmd h0
                           = (Ok (no_attribute_get cmd), h0)).
  { intro h0.
    unfold execute_command, try_except, bind, pure, get, dict_get_or.
    destruct cmd; try reflexivity. now destruct (Hd d). }
  split; [apply He|]. intros Hv _.
  apply served_reply; [exact Hv|now rewrite He'|].
  destruct cmd; vm_compute; reflexivity.
Qed.
End Together.

(* ================================================================== *)
(** * The statements above, at the hosts [Demo] and [Faulty] *)

Lemma get_scene_info_failure_is_answered_as_success_witness :
  exists result,
    MayaMCPServer.execute_command Faulty.cmds Demo.round2
      MayaMCPServer.main_thread
      (JDict [(lit "command", JStr (lit "get_scene_info"))])
      (untouched Demo.one_cube)
    = (Ok (JDict [(lit "status", JStr (lit "success"));
                  (lit "result", result)]),
       {| MayaMCPServer.doc := Demo.one_cube;
          MayaMCPServer.runs :=
            [{| MayaMCPServer.ran_on := MayaMCPServer.main_thread;
                MayaMCPServer.via_executeInMainThreadWithResult := false;
                MayaMCPServer.ran_command :=
                  JDict [(lit "command", JStr (lit "get_scene_info"))] |}] |})
    /\ result = JDict [(lit "error", JStr Faulty.locked)].
Proof.
  destruct (@get_scene_info_failure_is_answered_as_success
              Demo.scene Faulty.cmds Demo.round2 MayaMCPServer.main_thread
              [(lit "command", JStr (lit "get_scene_info"))]
              (untouched Demo.one_cube) eq_refl) as [result [E H]].
  exists result. split; [exact E|].
  apply H. left. reflexivity.
Defined.

Lemma create_object_needs_a_dict_witness :
  MayaMCPServer.create_object Demo.cmds JNull Demo.empty
  = (Raise (lit "'NoneType' object has no attribute 'get'"), Demo.empty).
Proof.
  apply (proj1 (@create_object_needs_a_dict Demo.scene Demo.cmds Demo.round2
                  MayaMCPServer.main_thread JNull (untouched Demo.empty)
                  (fun d H => eq_ind JNull
                                (fun v => match v with
                                          | JNull => True
                                          | _ => False
                                          end) I (JDict d) H))).
Defined.

Lemma create_object_failure_keeps_the_cube_witness :
  MayaMCPServer.execute_command Faulty.cmds Demo.round2
    MayaMCPServer.main_thread
    (Command (lit "create_object")
       (JDict [(lit "type", JStr (lit "CUBE"));
               (lit "location", JList [JInt 1; JInt 2])]))
    (untouched Demo.empty)
  = (Ok (JDict [(lit "status", JStr (lit "error"));
                (lit "message", JStr Faulty.bad_vector)]),
     {| MayaMCPServer.doc := with_CUBE;
        MayaMCPServer.runs :=
          [{| MayaMCPServer.ran_on := MayaMCPServer.main_thread;
              MayaMCPServer.via_executeInMainThreadWithResult := true;
              MayaMCPServer.ran_command :=
                Command (lit "create_object")
                  (JDict [(lit "type", JStr (lit "CUBE"));
                          (lit "location", JList [JInt 1; JInt 2])]) |}] |}).
Proof.
  apply (@create_object_failure_keeps_the_cube
           Demo.scene Faulty.cmds Demo.round2 MayaMCPServer.main_thread
           [(lit "command", JStr (lit "create_object"));
            (lit "params",
             JDict [(lit "type", JStr (lit "CUBE"));
                    (lit "location", JList [JInt 1; JInt 2])])]
           [(lit "type", JStr (lit "CUBE"));
            (lit "location", JList [JInt 1; JInt 2])]
           (untouched Demo.empty) (lit "CUBE") [lit "polyCube1"]
           with_CUBE with_CUBE Faulty.bad_vector
           eq_refl eq_refl eq_refl eq_refl).
Defined.

Lemma modify_object_shows_the_object_by_default_witness :
  MayaMCPServer.modify_object Stage.cmds
    (JDict [(lit "name", JStr (lit "pCube1"))]) Stage.hidden_cube
  = (Ok (JDict [(lit "name", JStr (lit "pCube1"));
                (lit "location",
                 JList [JFloat (lit "0.0"); JFloat (lit "0.0");
                        JFloat (lit "0.0")]);
                (lit "rotation",
                 JList [JFloat (lit "0.0"); JFloat (lit "0.0");
                        JFloat (lit "0.0")]);
                (lit "scale",
                 JList [JFloat (lit "1.0"); JFloat (lit "1.0");
                        JFloat (lit "1.0")]);
                (lit "visibility", JBool true)]),
     Stage.shown_cube).
Proof.
  apply (proj1
           (@modify_object_shows_the_object_by_default
              Stage.scene Stage.cmds
              [(lit "name", JStr (lit "pCube1"))]
              Stage.hidden_cube Stage.shown_cube (lit "pCube1") []
              [lit "0.0"; lit "0.0"; lit "0.0"]
              [lit "0.0"; lit "0.0"; lit "0.0"]
              [lit "1.0"; lit "1.0"; lit "1.0"] (JBool true)
              eq_refl eq_refl eq_refl eq_refl eq_refl eq_refl eq_refl
              eq_refl eq_refl eq_refl)).
Defined.

Lemma modify_object_raises_without_the_object_witness :
  MayaMCPServer.modify_object Demo.cmds
    (JDict [(lit "name", JStr (lit "ghost"))]) Demo.empty
  = (Raise (lit "list index out of range"), Demo.empty).
Proof.
  apply (proj2 (@modify_object_raises_without_the_object Demo.scene Demo.cmds
                  [(lit "name", JStr (lit "ghost"))] Demo.empty eq_refl)
           eq_refl eq_refl eq_refl).
  intro H. discriminate H.
Defined.

Lemma pipelined_commands_run_the_last_one_twice_witness :
  map MayaMCPServer.ran_command
    (MayaMCPServer.runs
       (MayaMCPServer.host
          (MayaMCPServer.run Demo.cmds Demo.round2
             [MayaMCPServer.Recv
                (MayaMCPServer.recv_data
                   (wire_bytes (Command (lit "create_object") cafe_cube)));
              MayaMCPServer.Recv
                (MayaMCPServer.recv_data
                   (wire_bytes (Command (lit "get_scene_info") (JDict []))));
              MayaMCPServer.Idle true; MayaMCPServer.Idle true]
             (MayaMCPServer.accepted Demo.empty))))
  = [Command (lit "get_scene_info") (JDict []);
     Command (lit "get_scene_info") (JDict [])].
Proof.
  apply (@pipelined_commands_run_the_last_one_twice
           Demo.scene Demo.cmds Demo.round2
           (wire_bytes (Command (lit "create_object") cafe_cube))
           (wire_bytes (Command (lit "get_scene_info") (JDict [])))
           (Command (lit "create_object") cafe_cube)
           [(lit "command", JStr (lit "get_scene_info"));
            (lit "params", JDict [])]
           true true (MayaMCPServer.accepted Demo.empty)
           eq_refl eq_refl eq_refl);
    try reflexivity; intro H; vm_compute in H; discriminate H.
Defined.

Lemma two_commands_in_one_read_are_never_run_witness :
  MayaMCPServer.sent
    (MayaMCPServer.run Demo.cmds Demo.round2
       [MayaMCPServer.Recv
          (MayaMCPServer.recv_data
             (wire_bytes (Command (lit "create_object") cafe_cube)
              ++ wire_bytes (Command (lit "get_scene_info") (JDict []))));
        MayaMCPServer.Idle true;
        MayaMCPServer.Recv
          (MayaMCPServer.recv_data
             (wire_bytes (Command (lit "get_scene_info") (JDict []))));
        MayaMCPServer.Idle true]
       (MayaMCPServer.accepted Demo.empty))
  = [].
Proof.
  apply (proj1 (proj2
           (@two_commands_in_one_read_are_never_run
              Demo.scene Demo.cmds Demo.round2
              [(lit "command", JStr (lit "create_object"));
               (lit "params", cafe_cube)]
              (Command (lit "get_scene_info") (JDict []))
              [MayaMCPServer.Idle true;
               MayaMCPServer.Recv
                 (MayaMCPServer.recv_data
                    (wire_bytes (Command (lit "get_scene_info") (JDict []))));
               MayaMCPServer.Idle true]
              (MayaMCPServer.accepted Demo.empty)
              eq_refl eq_refl eq_refl eq_refl eq_refl eq_refl))).
Defined.

Lemma command_of_a_client_that_left_is_still_run_witness :
  MayaMCPServer.sent
    (MayaMCPServer.run Demo.cmds Demo.round2
       [MayaMCPServer.Recv
          (MayaMCPServer.recv_data
             (wire_bytes (Command (lit "create_object") cafe_cube)));
        MayaMCPServer.Recv (MayaMCPServer.recv_data []);
        MayaMCPServer.Idle true]
       (MayaMCPServer.accepted Demo.empty)) = []
  /\ MayaMCPServer.host
       (MayaMCPServer.run Demo.cmds Demo.round2
          [MayaMCPServer.Recv
             (MayaMCPServer.recv_data
                (wire_bytes (Command (lit "create_object") cafe_cube)));
           MayaMCPServer.Recv (MayaMCPServer.recv_data []);
           MayaMCPServer.Idle true]
          (MayaMCPServer.accepted Demo.empty))
     = snd (MayaMCPServer.execute_command Demo.cmds Demo.round2
              MayaMCPServer.main_thread
              (Command (lit "create_object") cafe_cube)
              (untouched Demo.empty)).
Proof.
  apply (proj2
           (@command_of_a_client_that_left_is_still_run
              Demo.scene Demo.cmds Demo.round2
              (wire_bytes (Command (lit "create_object") cafe_cube))
              (Command (lit "create_object") cafe_cube)
              (MayaMCPServer.recv_data []) true
              (MayaMCPServer.accepted Demo.empty)
              eq_refl eq_refl eq_refl eq_refl
              ltac:(intro H; vm_compute in H; discriminate H)
              eq_refl (or_introl eq_refl))).
Defined.

Lemma start_brings_up_or_rolls_back_witness :
  Lifecycle.start (Lifecycle.__init__ (lit "localhost") 9876%N) quiet
  = ({| Lifecycle.host := lit "localhost"; Lifecycle.port := 9876%N;
        Lifecycle.running := true; Lifecycle.socket := Some 0;
        Lifecycle.server_thread := Some 0 |},
     {| Lifecycle.faults := []; Lifecycle.close_raises := [];
        Lifecycle.open_sockets := [0]; Lifecycle.listening := [0];
        Lifecycle.threads_started := 1; Lifecycle.next_socket := 1 |})
  /\ Lifecycle.running
       (fst (Lifecycle.start
               (Lifecycle.__init__ (lit "localhost") 9876%N) quiet)) = true.
Proof.
  split; [reflexivity|].
  apply (proj1 (proj2
           (@start_brings_up_or_rolls_back
              (Lifecycle.__init__ (lit "localhost") 9876%N) quiet
              (fun fd H => match H with
                           | or_introl F => match F with end
                           | or_intror F => match F with end
                           end)))
           eq_refl eq_refl eq_refl).
Defined.

Lemma send_command_writes_one_message_witness :
  Adapter.wire
    (snd (Adapter.send_command connected (lit "about") JNull
            (delivering [Ok null_bytes])))
  = [wire_bytes (Command (lit "about") (JDict []))].
Proof.
  apply (proj1 (@send_command_writes_one_message connected (lit "about")
                  JNull (delivering [Ok null_bytes]) (or_introl eq_refl))
           0 (wire_bytes (Command (lit "about") (JDict [])))
           eq_refl eq_refl eq_refl).
Defined.

Lemma response_survives_chunking_witness :
  Adapter.receive_full_response
    (delivering (map Ok (byte_by_byte (wire_bytes about_reply))))
  = (Ok (wire_bytes about_reply),
     recvs_left []
       (delivering (map Ok (byte_by_byte (wire_bytes about_reply))))).
Proof.
  apply (proj1
           (@response_survives_chunking about_reply
              (byte_by_byte (wire_bytes about_reply)) []
              (delivering (map Ok (byte_by_byte (wire_bytes about_reply))))
              eq_refl eq_refl eq_refl
              ltac:(intro H; vm_compute in H; discriminate H)
              eq_refl eq_refl eq_refl)).
Defined.

Lemma the_probe_is_never_validated_witness :
  Adapter.get_maya_connection
    {| Adapter._maya_connection := Some connected;
       Adapter.net := delivering [Ok null_bytes] |}
  = Adapter.new_connection
      (after_exchange (wire_bytes (Command (lit "about") (JDict []))) []
         (delivering [Ok null_bytes])).
Proof.
  apply (proj2 (proj2
           (@the_probe_is_never_validated Demo.scene Demo.cmds Demo.round2
              Demo.one_cube connected 0 (delivering [Ok null_bytes]) []
              eq_refl eq_refl eq_refl))).
Defined.

Lemma get_scene_info_end_to_end_witness :
  fst (Adapter.get_scene_info
         (talking_to
            (served Demo.cmds Demo.round2 Demo.one_cube
               (wire_bytes (Command (lit "get_scene_info") (JDict []))))))
  = Ok one_cube_info.
Proof.
  apply (@get_scene_info_end_to_end Demo.scene Demo.cmds Demo.round2
           Demo.one_cube one_cube_info
           (Adapter.net
              (talking_to
                 (served Demo.cmds Demo.round2 Demo.one_cube
                    (wire_bytes (Command (lit "get_scene_info") (JDict []))))))
           [] [] eq_refl eq_refl eq_refl eq_refl eq_refl).
Defined.

Lemma create_object_end_to_end_witness :
  MayaMCPServer.doc
    (MayaMCPServer.host
       (MayaMCPServer.run Demo.cmds Demo.round2
          [MayaMCPServer.Recv
             (MayaMCPServer.recv_data
                (wire_bytes
                   (Command (lit "create_object")
                      (JDict (Adapter.create_object_params (lit "CUBE")
                                (JStr (lit "crate"))
                                (JList [JInt 1; JInt 2; JInt 3])
                                JNull JNull)))));
           MayaMCPServer.Idle true]
          (MayaMCPServer.accepted Demo.empty)))
  = with_CUBE
  /\ fst (Adapter.create_object (lit "CUBE") (JStr (lit "crate"))
         (JList [JInt 1; JInt 2; JInt 3]) JNull JNull
         (talking_to
            (served Demo.cmds Demo.round2 Demo.empty
               (wire_bytes
                  (Command (lit "create_object")
                     (JDict (Adapter.create_object_params (lit "CUBE")
                               (JStr (lit "crate"))
                               (JList [JInt 1; JInt 2; JInt 3])
                               JNull JNull)))))))
  = Adapter.Created_object (lit "CUBE") (JStr (lit "CUBE")).
Proof.
  destruct (@create_object_end_to_end Demo.scene Demo.cmds Demo.round2
              (lit "CUBE") (JStr (lit "crate"))
              (JList [JInt 1; JInt 2; JInt 3]) JNull JNull
              Demo.empty with_CUBE with_CUBE with_CUBE with_CUBE
              (lit "CUBE") [lit "polyCube1"]
              (Adapter.net
                 (talking_to
                    (served Demo.cmds Demo.round2 Demo.empty
                       (wire_bytes
                          (Command (lit "create_object")
                             (JDict (Adapter.create_object_params
                                       (lit "CUBE") (JStr (lit "crate"))
                                       (JList [JInt 1; JInt 2; JInt 3])
                                       JNull JNull)))))))
              [] [] eq_refl eq_refl eq_refl eq_refl eq_refl eq_refl eq_refl
              eq_refl) as [Hhost Htool].
  split; [exact (f_equal (@MayaMCPServer.doc Demo.scene) Hhost)|exact Htool].
Defined.

Lemma modify_object_tool_modifies_nothing_witness :
  fst (Adapter.modify_object (lit "pCube1")
         (JList [JInt 1; JInt 2; JInt 3]) JNull JNull (JBool false)
         (talking_to
            (served Demo.cmds Demo.round2 Demo.one_cube
               (wire_bytes
                  (Command (lit "modify_object")
                     (JDict (Adapter.modify_object_params (lit "pCube1")
                               (JList [JInt 1; JInt 2; JInt 3])
                               JNull JNull (JBool false))))))))
  = Adapter.Error_modifying_object Adapter.AttributeError.
Proof.
  apply (proj2
           (@modify_object_tool_modifies_nothing
              Demo.scene Demo.cmds Demo.round2
              (lit "pCube1") (JList [JInt 1; JInt 2; JInt 3]) JNull JNull
              (JBool false) Demo.one_cube
              (Adapter.net
                 (talking_to
                    (served Demo.cmds Demo.round2 Demo.one_cube
                       (wire_bytes
                          (Command (lit "modify_object")
                             (JDict (Adapter.modify_object_params
                                       (lit "pCube1")
                                       (JList [JInt 1; JInt 2; JInt 3])
                                       JNull JNull (JBool false))))))))
              [] [] eq_refl eq_refl eq_refl eq_refl)).
Defined.

Lemma get_maya_version_always_raises_witness :
  fst (Adapter.get_maya_version
         (talking_to
            (served Demo.cmds Demo.round2 Demo.one_cube
               (wire_bytes (Command (lit "about") (JDict []))))))
  = Raise Adapter.AttributeError.
Proof.
  apply (proj1
           (@get_maya_version_always_raises Demo.scene Demo.cmds Demo.round2
              Demo.one_cube
              (Adapter.net
                 (talking_to
                    (served Demo.cmds Demo.round2 Demo.one_cube
                       (wire_bytes (Command (lit "about") (JDict []))))))
              [] [] eq_refl eq_refl eq_refl)).
Defined.

Lemma a_message_that_is_no_object_gets_an_error_reply_witness :
  served Demo.cmds Demo.round2 Demo.one_cube
    (wire_bytes (JList [JInt 1; JInt 2]))
  = [wire_bytes (no_attribute_get (JList [JInt 1; JInt 2]))].
Proof.
  apply (proj2
           (@a_message_that_is_no_object_gets_an_error_reply
              Demo.scene Demo.cmds Demo.round2 MayaMCPServer.main_thread
              (JList [JInt 1; JInt 2]) (untouched Demo.one_cube)
              Demo.one_cube
              (fun d H => eq_ind (JList [JInt 1; JInt 2])
                            (fun v => match v with
                                      | JList _ => True
                                      | _ => False
                                      end) I (JDict d) H))
           eq_refl eq_refl).
Defined.
